(** * LP performance dashboard: normalisation, extremum selection and ranking

    A shallow embedding of [src/lp_dashboard.py].  The script reads a
    table, checks that five columns are present, derives three float64
    columns from display-formatted text, restricts the table to one
    symbol, picks the best and the worst stream for a metric and builds
    a ranking table.

    The pandas objects are modelled the way pandas stores them: a frame
    is an index of row labels and an ordered list of named columns, a
    column is either an object column (text or missing cells) or a
    float64 column.  Floats are IEEE 754 binary64 values
    ([spec_float] with precision 53 and exponent bound 1024). *)

From Stdlib Require Import ZArith NArith List String Ascii Bool Lia Arith.
From Stdlib Require Import Permutation Sorted.
From Stdlib Require Import Floats.SpecFloat.
Import ListNotations.

Open Scope string_scope.
Open Scope list_scope.

(** ** Binary64 values *)

Module F64.

Definition prec : Z := 53.
Definition emax : Z := 1024.

Definition float := spec_float.

Definition is_nan (x : float) : bool :=
  match x with S754_nan => true | _ => false end.

(** [numpy.isfinite]: neither NaN nor an infinity. *)
Definition is_finite (x : float) : bool :=
  match x with
  | S754_zero _ | S754_finite _ _ _ => true
  | S754_infinity _ | S754_nan => false
  end.

Definition ltb (x y : float) : bool := SFltb x y.
Definition leb (x y : float) : bool := SFleb x y.
Definition eqb (x y : float) : bool := SFeqb x y.

Definition pos_inf : float := S754_infinity false.
Definition neg_inf : float := S754_infinity true.

(** The binary64 value nearest to [n / d] (ties to even), with sign [s];
    the quotient and the rounding are those of IEEE division. *)
Definition round_ratio (s : bool) (n d : positive) : float :=
  let '(q, e, l) := SFdiv_core_binary prec emax (Zpos n) 0 (Zpos d) 0 in
  binary_round_aux prec emax s q e l.

(** The binary64 value nearest to [(-1)^s * m * 10^e]: what a correctly
    rounded decimal-to-binary conversion returns. *)
Definition of_decimal (s : bool) (m : N) (e : Z) : float :=
  match m with
  | N0 => S754_zero s
  | Npos p =>
      match e with
      | Zneg k => round_ratio s p (Pos.pow 10 k)
      | Z0 => round_ratio s p 1
      | Zpos k => round_ratio s (p * Pos.pow 10 k) 1
      end
  end.

End F64.

(** ** Text

    A text is held as the bytes of its UTF-8 encoding.  Equality, the
    order of texts (by code point) and the replacement of ASCII
    substrings are the same on the bytes as on the code points. *)

Definition chars (s : string) : list ascii := list_ascii_of_string s.

Fixpoint starts_with (p s : list ascii) : bool :=
  match p, s with
  | [], _ => true
  | _ :: _, [] => false
  | a :: p', b :: s' => Ascii.eqb a b && starts_with p' s'
  end.

(** [str.replace(old, new)] for a non-empty [old]: occurrences are
    found left to right and do not overlap.  [skip] counts the
    characters of a matched occurrence that are still to be dropped. *)
Fixpoint replace_from (old new : list ascii) (skip : nat) (s : list ascii)
  : list ascii :=
  match s with
  | [] => []
  | c :: s' =>
      match skip with
      | S k => replace_from old new k s'
      | O =>
          if starts_with old s
          then new ++ replace_from old new (Nat.pred (List.length old)) s'
          else c :: replace_from old new 0 s'
      end
  end.

(** With an empty [old] Python puts [new] before every character and
    at the end. *)
Fixpoint intersperse_all (new s : list ascii) : list ascii :=
  match s with
  | [] => new
  | c :: s' => new ++ c :: intersperse_all new s'
  end.

Definition str_replace (old new s : string) : string :=
  string_of_list_ascii
    (match chars old with
     | [] => intersperse_all (chars new) (chars s)
     | o => replace_from o (chars new) 0 (chars s)
     end).

(** ** [float(str)] *)

Module PyFloat.

Definition is_digit (c : ascii) : bool :=
  let n := nat_of_ascii c in (48 <=? n)%nat && (n <=? 57)%nat.

(** ASCII white space: tab, line feed, vertical tab, form feed,
    carriage return, space. *)
Definition is_space (c : ascii) : bool :=
  let n := nat_of_ascii c in ((9 <=? n)%nat && (n <=? 13)%nat) || (n =? 32)%nat.

Fixpoint lstrip (s : list ascii) : list ascii :=
  match s with
  | c :: s' => if is_space c then lstrip s' else s
  | [] => []
  end.

Definition strip (s : list ascii) : list ascii :=
  rev (lstrip (rev (lstrip s))).

(** Underscores may only stand between two digits; they are removed
    before the number is read.  [prev] is the previous character. *)
Fixpoint drop_underscores (prev : option ascii) (s : list ascii)
  : option (list ascii) :=
  let prev_digit := match prev with Some p => is_digit p | None => false end in
  let prev_us := match prev with Some p => Ascii.eqb p "_" | None => false end in
  match s with
  | [] => if prev_us then None else Some []
  | c :: s' =>
      if Ascii.eqb c "_"
      then if prev_digit then drop_underscores (Some c) s' else None
      else if prev_us && negb (is_digit c) then None
           else option_map (cons c) (drop_underscores (Some c) s')
  end.

Fixpoint span_digits (s : list ascii) : list ascii * list ascii :=
  match s with
  | c :: s' =>
      if is_digit c
      then let '(d, r) := span_digits s' in (c :: d, r)
      else ([], s)
  | [] => ([], [])
  end.

Definition digit_value (c : ascii) : N := N.of_nat (nat_of_ascii c - 48).

Definition digits_value (d : list ascii) : N :=
  fold_left (fun acc c => (10 * acc + digit_value c)%N) d 0%N.

Definition lower (c : ascii) : ascii :=
  let n := nat_of_ascii c in
  if (65 <=? n)%nat && (n <=? 90)%nat then ascii_of_nat (n + 32) else c.

Definition read_sign (s : list ascii) : bool * list ascii :=
  match s with
  | c :: s' =>
      if Ascii.eqb c "-" then (true, s')
      else if Ascii.eqb c "+" then (false, s')
      else (false, s)
  | [] => (false, [])
  end.

(** [inf], [infinity] and [nan], in any letter case, after the sign. *)
Definition read_inf_nan (neg : bool) (s : list ascii) : option F64.float :=
  let l := string_of_list_ascii (map lower s) in
  if String.eqb l "inf" || String.eqb l "infinity"
  then Some (S754_infinity neg)
  else if String.eqb l "nan" then Some S754_nan
  else None.

(** The exponent part: nothing, or [e]/[E], a sign and at least one
    digit, up to the end of the text. *)
Definition read_exponent (s : list ascii) : option Z :=
  match s with
  | [] => Some 0%Z
  | c :: s' =>
      if Ascii.eqb (lower c) "e"
      then let '(neg, s'') := read_sign s' in
           match span_digits s'' with
           | ((_ :: _) as d, []) =>
               let v := Z.of_N (digits_value d) in
               Some (if neg then (- v)%Z else v)
           | _ => None
           end
      else None
  end.

(** A decimal literal after the sign: digits, an optional point and
    more digits (one digit at least), an optional exponent. *)
Definition read_decimal (neg : bool) (s : list ascii) : option F64.float :=
  let '(ip, r1) := span_digits s in
  let '(fp, r2) :=
    match r1 with
    | c :: r =>
        if Ascii.eqb c "." then span_digits r else ([], r1)
    | [] => ([], [])
    end in
  match ip ++ fp with
  | [] => None
  | ds =>
      match read_exponent r2 with
      | Some x =>
          Some (F64.of_decimal neg (digits_value ds)
                  (x - Z.of_nat (List.length fp)))
      | None => None
      end
  end.

(** The number read from ASCII characters: what the C parser does
    with the buffer it is given. *)
Definition float_of_ascii (l : list ascii) : option F64.float :=
  match drop_underscores None (strip l) with
  | None => None
  | Some t =>
      let '(neg, body) := read_sign t in
      match read_decimal neg body with
      | Some x => Some x
      | None => read_inf_nan neg body
      end
  end.

(** *** Characters outside ASCII

    A text is held as its UTF-8 encoding; a sequence of bytes that is
    not well-formed UTF-8 is no text.  [utf8_decode] gives the code
    points. *)

Definition is_cont (b : N) : bool := (128 <=? b)%N && (b <? 192)%N.

Fixpoint utf8_decode (l : list ascii) : option (list N) :=
  match l with
  | [] => Some []
  | a :: l1 =>
      let x := N_of_ascii a in
      if (x <? 128)%N then option_map (cons x) (utf8_decode l1)
      else if (x <? 194)%N then None
      else if (x <? 224)%N then
        match l1 with
        | b :: l2 =>
            let y := N_of_ascii b in
            if is_cont y
            then option_map (cons ((x - 192) * 64 + (y - 128))%N)
                   (utf8_decode l2)
            else None
        | _ => None
        end
      else if (x <? 240)%N then
        match l1 with
        | b :: c :: l3 =>
            let y := N_of_ascii b in
            let z := N_of_ascii c in
            let v := ((x - 224) * 4096 + (y - 128) * 64 + (z - 128))%N in
            if is_cont y && is_cont z && (2048 <=? v)%N
               && negb ((55296 <=? v)%N && (v <? 57344)%N)
            then option_map (cons v) (utf8_decode l3)
            else None
        | _ => None
        end
      else if (x <? 245)%N then
        match l1 with
        | b :: c :: e :: l4 =>
            let y := N_of_ascii b in
            let z := N_of_ascii c in
            let w := N_of_ascii e in
            let v := ((x - 240) * 262144 + (y - 128) * 4096
                      + (z - 128) * 64 + (w - 128))%N in
            if is_cont y && is_cont z && is_cont w
               && (65536 <=? v)%N && (v <? 1114112)%N
            then option_map (cons v) (utf8_decode l4)
            else None
        | _ => None
        end
      else None
  end.

(** The code points for which [str.isspace] holds. *)
Definition unicode_spaces : list N :=
  [ 9; 10; 11; 12; 13; 28; 29; 30; 31; 32; 133; 160; 5760; 8192; 8193;
    8194; 8195; 8196; 8197; 8198; 8199; 8200; 8201; 8202; 8232; 8233; 8239;
    8287; 12288 ]%N.

Definition is_unicode_space (c : N) : bool :=
  existsb (N.eqb c) unicode_spaces.

(** The code points of the digit zero of each decimal digit system
    (Unicode 14.0, the tables of CPython 3.11); the nine digits that
    follow each are its digits one to nine. *)
Definition decimal_zeros : list N :=
  [ 48; 1632; 1776; 1984; 2406; 2534; 2662; 2790; 2918; 3046; 3174; 3302;
    3430; 3558; 3664; 3792; 3872; 4160; 4240; 6112; 6160; 6470; 6608; 6784;
    6800; 6992; 7088; 7232; 7248; 42528; 43216; 43264; 43472; 43504; 43600;
    44016; 65296; 66720; 68912; 69734; 69872; 69942; 70096; 70384; 70736;
    70864; 71248; 71360; 71472; 71904; 72016; 72784; 73040; 73120; 92768;
    92864; 93008; 120782; 120792; 120802; 120812; 120822; 123200; 123632;
    125264; 130032 ]%N.

(** [Py_UNICODE_TODECIMAL] *)
Definition decimal_of (c : N) : option N :=
  match find (fun z => (z <=? c)%N && (c <? z + 10)%N) decimal_zeros with
  | Some z => Some (c - z)%N
  | None => None
  end.

(** What [float] hands to the C parser
    ([_PyUnicode_TransformDecimalAndSpaceToASCII]): characters below
    127 as they are, any other white space as a space, any other
    decimal digit as the ASCII digit of its value; the first character
    that is none of these is put down as [?] and ends the buffer. *)
Fixpoint to_ascii (cs : list N) : list ascii :=
  match cs with
  | [] => []
  | c :: cs' =>
      if (c <? 127)%N then ascii_of_N c :: to_ascii cs'
      else if is_unicode_space c then " "%char :: to_ascii cs'
      else match decimal_of c with
           | Some d => ascii_of_N (48 + d) :: to_ascii cs'
           | None => ["?"%char]
           end
  end.

(** [float(s)] on a text; [None] is the [ValueError]. *)
Definition float_of_string (s : string) : option F64.float :=
  match utf8_decode (chars s) with
  | None => None
  | Some cs => float_of_ascii (to_ascii cs)
  end.

End PyFloat.

(** ** Frames *)

(** A cell of an object column of the uploaded table: a text (a
    [str], held in UTF-8) or a missing value (the NaN that the reader
    puts for a blank cell).  The uploads modelled are those whose
    columns the reader leaves as object columns of texts and blanks,
    as it does for symbols, stream names and display-formatted
    numbers; a column that the reader parses to a numeric dtype has no
    representation here. *)
Inductive cell := Text (s : string) | Missing.

(** A column is an object column or a float64 column. *)
Inductive column :=
| ObjCol (data : list cell)
| FloatCol (data : list F64.float).

Record DataFrame := mkDF {
  index : list nat;
  cols : list (string * column)
}.

(** The parsed upload: named object columns, in file order. *)
Definition RawTable := list (string * list cell).

(** [pd.read_csv] / [pd.read_excel]: object columns under a
    [RangeIndex]. *)
Definition read_table (t : RawTable) : DataFrame :=
  {| index := seq 0 (match t with [] => 0 | (_, d) :: _ => List.length d end);
     cols := map (fun nc => (fst nc, ObjCol (snd nc))) t |}.

Definition columns (df : DataFrame) : list string := map fst (cols df).

Definition col_len (c : column) : nat :=
  match c with ObjCol d => List.length d | FloatCol d => List.length d end.

Definition nrows (df : DataFrame) : nat := List.length (index df).

(** [name in df.columns] *)
Definition has_column (name : string) (df : DataFrame) : bool :=
  existsb (String.eqb name) (columns df).

Fixpoint lookup_col (name : string) (cs : list (string * column))
  : option column :=
  match cs with
  | [] => None
  | (n, c) :: cs' => if String.eqb name n then Some c else lookup_col name cs'
  end.

Fixpoint assign_col (name : string) (c : column) (cs : list (string * column))
  : list (string * column) :=
  match cs with
  | [] => [(name, c)]
  | (n, c0) :: cs' =>
      if String.eqb name n then (n, c) :: cs'
      else (n, c0) :: assign_col name c cs'
  end.

(** What the script can raise. *)
Inductive exn :=
| ValueError_float (text : string)
    (* could not convert string to float: 'text' *)
| ValueError_empty
    (* attempt to get argmax/argmin of an empty sequence *)
| AllNA
    (* idxmax/idxmin of an all-NaN column: no label to look up *)
| KeyError (name : string)
| KeyError_label (label : nat)
| TypeError.

Inductive result (A : Type) :=
| Ok (a : A)
| Raise (e : exn).
Arguments Ok {A} a.
Arguments Raise {A} e.

Definition bind {A B} (r : result A) (k : A -> result B) : result B :=
  match r with
  | Ok a => k a
  | Raise e => Raise e
  end.

Notation "x <- r ;; k" := (bind r (fun x => k))
  (at level 61, r at next level, right associativity).
Notation "' p <- r ;; k" := (bind r (fun x => let 'p := x in k))
  (at level 61, p pattern, r at next level, right associativity).

(** [df[name]] *)
Definition getitem (df : DataFrame) (name : string) : result column :=
  match lookup_col name (cols df) with
  | Some c => Ok c
  | None => Raise (KeyError name)
  end.

(** [df[name] = c]: an existing column is replaced where it stands, a
    new one is appended. *)
Definition setitem (df : DataFrame) (name : string) (c : column) : DataFrame :=
  {| index := index df; cols := assign_col name c (cols df) |}.

(** ** Schema validation (lines 44-56) *)

Definition required_columns : list string :=
  [ "Core Symbol"; "Maker Stream Name"; "% Filled Volume";
    "Avg. Fill Latency"; "Total Filled Volume" ].

Definition missing_columns (df : DataFrame) : list string :=
  filter (fun c => negb (has_column c df)) required_columns.

(** ** Numeric conversion (lines 61-81) *)

(** [.astype(str)] on an object column: a missing value becomes the
    text [nan]. *)
Definition astype_str (c : cell) : string :=
  match c with
  | Text s => s
  | Missing => "nan"
  end.

(** [.astype(float)] on texts: the first text that [float] rejects
    raises, with that text in the message. *)
Fixpoint astype_float (l : list string) : result (list F64.float) :=
  match l with
  | [] => Ok []
  | s :: l' =>
      match PyFloat.float_of_string s with
      | None => Raise (ValueError_float s)
      | Some x => r <- astype_float l' ;; Ok (x :: r)
      end
  end.

Definition strip_pct (s : string) : string := str_replace "%" "" s.
Definition strip_ms (s : string) : string := str_replace "ms" "" s.
Definition strip_vol (s : string) : string :=
  str_replace "," "" (str_replace "$" "" s).

(** [col.astype(str).str.replace(..).astype(float)].  A float64
    column comes back as it is: [str] of a float is its [repr], which
    holds no stripped character and which [float] reads back to the
    same value. *)
Definition to_numeric (strip : string -> string) (c : column)
  : result (list F64.float) :=
  match c with
  | ObjCol d => astype_float (map strip (map astype_str d))
  | FloatCol d => Ok d
  end.

Definition convert (df : DataFrame) (src : string)
  (strip : string -> string) (dst : string) : result DataFrame :=
  c <- getitem df src ;;
  v <- to_numeric strip c ;;
  Ok (setitem df dst (FloatCol v)).

Definition normalise (df : DataFrame) : result DataFrame :=
  df1 <- convert df "% Filled Volume" strip_pct "Filled_Vol_Pct" ;;
  df2 <- convert df1 "Avg. Fill Latency" strip_ms "Avg_Latency_ms" ;;
  convert df2 "Total Filled Volume" strip_vol "Total_Filled_Vol".

(** ** Symbol filter (lines 91-106) *)

(** [==] on cells: a missing value equals nothing, itself included. *)
Definition cell_eqb (a b : cell) : bool :=
  match a, b with
  | Text s, Text t => String.eqb s t
  | _, _ => false
  end.

(** [Series.unique()]: first occurrences, missing values being one
    value. *)
Definition same_key (a b : cell) : bool :=
  match a, b with
  | Text s, Text t => String.eqb s t
  | Missing, Missing => true
  | _, _ => false
  end.

Fixpoint unique_from (seen : list cell) (l : list cell) : list cell :=
  match l with
  | [] => []
  | c :: l' =>
      if existsb (same_key c) seen then unique_from seen l'
      else c :: unique_from (c :: seen) l'
  end.

Definition unique (l : list cell) : list cell := unique_from [] l.

Fixpoint insert_text (s : string) (l : list string) : list string :=
  match l with
  | [] => [s]
  | t :: l' => if String.leb s t then s :: l else t :: insert_text s l'
  end.

Definition sort_texts (l : list string) : list string :=
  fold_right insert_text [] l.

Fixpoint texts_of (l : list cell) : option (list string) :=
  match l with
  | [] => Some []
  | Text s :: l' => option_map (cons s) (texts_of l')
  | Missing :: _ => None
  end.

(** [sorted(df["Core Symbol"].unique())], the options of the symbol
    select box, for an object column of texts and blanks.  Texts are
    ordered by code point; a missing value (a float) is not comparable
    with a text, and alone it is the only option. *)
Definition symbol_options (symbols : list cell) : result (list cell) :=
  let u := unique symbols in
  match texts_of u with
  | Some ts => Ok (map Text (sort_texts ts))
  | None =>
      match u with
      | [Missing] => Ok [Missing]
      | _ => Raise TypeError
      end
  end.

(** Lines 91-94: the options are computed when the select box is
    drawn, which fails where [sorted] fails; which option is selected
    is the user's choice, a parameter of the script.  The values of a
    float64 column can always be sorted. *)
Definition symbol_box (df : DataFrame) : result unit :=
  c <- getitem df "Core Symbol" ;;
  match c with
  | ObjCol d => bind (symbol_options d) (fun _ => Ok tt)
  | FloatCol _ => Ok tt
  end.

(** [df[col] == selected_symbol] *)
Definition eq_mask (c : column) (sel : cell) : list bool :=
  match c with
  | ObjCol d => map (fun x => cell_eqb x sel) d
  | FloatCol d => map (fun _ => false) d
  end.

Fixpoint select {A} (mask : list bool) (l : list A) : list A :=
  match mask, l with
  | b :: m, x :: l' => if b then x :: select m l' else select m l'
  | _, _ => []
  end.

Definition col_select (mask : list bool) (c : column) : column :=
  match c with
  | ObjCol d => ObjCol (select mask d)
  | FloatCol d => FloatCol (select mask d)
  end.

(** [df[mask]] *)
Definition filter_rows (df : DataFrame) (mask : list bool) : DataFrame :=
  {| index := select mask (index df);
     cols := map (fun nc => (fst nc, col_select mask (snd nc))) (cols df) |}.

Definition symbol_rows (df : DataFrame) (sel : cell) : result DataFrame :=
  c <- getitem df "Core Symbol" ;;
  Ok (filter_rows df (eq_mask c sel)).

(** ** Best and worst row (lines 111-127) *)

Definition fill_nan (v x : F64.float) : F64.float :=
  if F64.is_nan x then v else x.

(** [numpy.argmax] / [numpy.argmin]: one pass that keeps the first
    position whose value no later value beats; [bi], [bv] are the best
    position and value so far. *)
Fixpoint arg_from (beats : F64.float -> F64.float -> bool)
  (bi : nat) (bv : F64.float) (i : nat) (l : list F64.float) : nat :=
  match l with
  | [] => bi
  | x :: l' =>
      if beats x bv then arg_from beats i x (S i) l'
      else arg_from beats bi bv (S i) l'
  end.

Definition argmax (l : list F64.float) : nat :=
  match l with
  | [] => 0
  | x :: l' => arg_from (fun y b => F64.ltb b y) 0 x 1 l'
  end.

Definition argmin (l : list F64.float) : nat :=
  match l with
  | [] => 0
  | x :: l' => arg_from (fun y b => F64.ltb y b) 0 x 1 l'
  end.

(** [nanops.nanargmax] with [skipna=True]: NaN counts as minus
    infinity; an empty column and an all-NaN column have no answer. *)
Definition nanargmax (v : list F64.float) : result nat :=
  match v with
  | [] => Raise ValueError_empty
  | _ => if forallb F64.is_nan v then Raise AllNA
         else Ok (argmax (map (fill_nan F64.neg_inf) v))
  end.

Definition nanargmin (v : list F64.float) : result nat :=
  match v with
  | [] => Raise ValueError_empty
  | _ => if forallb F64.is_nan v then Raise AllNA
         else Ok (argmin (map (fill_nan F64.pos_inf) v))
  end.

Definition label_at (idx : list nat) (p : nat) : result nat :=
  match nth_error idx p with
  | Some l => Ok l
  | None => Raise (KeyError_label p)
  end.

(** [Series.idxmax()] / [Series.idxmin()]: the label of that row. *)
Definition idxmax (idx : list nat) (v : list F64.float) : result nat :=
  p <- nanargmax v ;; label_at idx p.

Definition idxmin (idx : list nat) (v : list F64.float) : result nat :=
  p <- nanargmin v ;; label_at idx p.

(** A value of a row. *)
Inductive scalar :=
| SCell (c : cell)
| SFloat (f : F64.float).

(** A row taken out of a frame: its label and its values by column. *)
Record Row := mkRow {
  label : nat;
  fields : list (string * scalar)
}.

Definition col_nth (c : column) (i : nat) : option scalar :=
  match c with
  | ObjCol d => option_map SCell (nth_error d i)
  | FloatCol d => option_map SFloat (nth_error d i)
  end.

Fixpoint row_fields (cs : list (string * column)) (i : nat)
  : option (list (string * scalar)) :=
  match cs with
  | [] => Some []
  | (n, c) :: cs' =>
      match col_nth c i, row_fields cs' i with
      | Some v, Some r => Some ((n, v) :: r)
      | _, _ => None
      end
  end.

Fixpoint position (l : list nat) (x : nat) : option nat :=
  match l with
  | [] => None
  | y :: l' => if Nat.eqb x y then Some 0 else option_map S (position l' x)
  end.

(** [df.loc[label]] for a label that occurs once. *)
Definition loc (df : DataFrame) (lbl : nat) : result Row :=
  match position (index df) lbl with
  | None => Raise (KeyError_label lbl)
  | Some i =>
      match row_fields (cols df) i with
      | Some f => Ok {| label := lbl; fields := f |}
      | None => Raise (KeyError_label lbl)
      end
  end.

(** [row[name]] *)
Fixpoint field (name : string) (f : list (string * scalar)) : option scalar :=
  match f with
  | [] => None
  | (n, v) :: f' => if String.eqb name n then Some v else field name f'
  end.

(** A float64 column of the frame; the three derived columns are
    float64 by construction. *)
Definition float_series (df : DataFrame) (name : string)
  : result (list F64.float) :=
  c <- getitem df name ;;
  match c with
  | FloatCol d => Ok d
  | ObjCol _ => Raise TypeError
  end.

Definition max_then_min (df : DataFrame) (name : string) : result (Row * Row) :=
  v <- float_series df name ;;
  i <- idxmax (index df) v ;;
  b <- loc df i ;;
  j <- idxmin (index df) v ;;
  w <- loc df j ;;
  Ok (b, w).

Definition min_then_max (df : DataFrame) (name : string) : result (Row * Row) :=
  v <- float_series df name ;;
  i <- idxmin (index df) v ;;
  b <- loc df i ;;
  j <- idxmax (index df) v ;;
  w <- loc df j ;;
  Ok (b, w).

(** The [if]/[elif]/[else] of lines 111-127:
    [(best_row, worst_row, metric_col, higher_is_better)]. *)
Definition best_worst (sym_df : DataFrame) (selected_metric : string)
  : result (Row * Row * string * bool) :=
  if String.eqb selected_metric "% Filled Volume" then
    bw <- max_then_min sym_df "Filled_Vol_Pct" ;;
    Ok (fst bw, snd bw, "Filled_Vol_Pct", true)
  else if String.eqb selected_metric "Avg Fill Latency (ms)" then
    bw <- min_then_max sym_df "Avg_Latency_ms" ;;
    Ok (fst bw, snd bw, "Avg_Latency_ms", false)
  else
    bw <- max_then_min sym_df "Total_Filled_Vol" ;;
    Ok (fst bw, snd bw, "Total_Filled_Vol", true).

(** ** Ranking table (lines 154-173) *)

Fixpoint project (names : list string) (cs : list (string * column))
  : result (list (string * column)) :=
  match names with
  | [] => Ok []
  | n :: names' =>
      match lookup_col n cs with
      | None => Raise (KeyError n)
      | Some c => r <- project names' cs ;; Ok ((n, c) :: r)
      end
  end.

(** [df[[n1, n2, ..]]] *)
Definition getitem_list (df : DataFrame) (names : list string)
  : result DataFrame :=
  cs <- project names (cols df) ;;
  Ok {| index := index df; cols := cs |}.

Fixpoint renamed (mapping : list (string * string)) (n : string) : string :=
  match mapping with
  | [] => n
  | (old, new) :: m' => if String.eqb n old then new else renamed m' n
  end.

(** [df.rename(columns=mapping)] *)
Definition rename (mapping : list (string * string)) (df : DataFrame)
  : DataFrame :=
  {| index := index df;
     cols := map (fun nc => (renamed mapping (fst nc), snd nc)) (cols df) |}.

Definition ranking_source : list string :=
  [ "Maker Stream Name"; "Filled_Vol_Pct"; "Avg_Latency_ms";
    "Total_Filled_Vol" ].

Definition ranking_labels : list (string * string) :=
  [ ("Maker Stream Name", "LP Name");
    ("Filled_Vol_Pct", "% Filled Volume");
    ("Avg_Latency_ms", "Avg Fill Latency (ms)");
    ("Total_Filled_Vol", "Total Filled Volume") ].

Definition rank_table (sym_df : DataFrame) : result DataFrame :=
  p <- getitem_list sym_df ranking_source ;;
  Ok (rename ranking_labels p).

(** [list(..).index(x)] *)
Fixpoint index_of (x : string) (l : list string) : option nat :=
  match l with
  | [] => None
  | y :: l' => if String.eqb x y then Some 0 else option_map S (index_of x l')
  end.

(** The [by=] argument of line 169-171. *)
Definition sort_key (rank_df : DataFrame) (selected_metric metric_col : string)
  : string :=
  if has_column selected_metric rank_df then
    match index_of selected_metric (columns rank_df) with
    | Some i => nth i (columns rank_df) metric_col
    | None => metric_col
    end
  else metric_col.

(** *** [sort_values]

    The call names no [kind], so the sort is the default quicksort,
    which promises a sorted order and nothing about rows with equal
    keys.  The indexer is therefore specified, not computed: the rows
    with a NaN key come last, in their original order; before them
    come the other rows in any order that is sorted by the key. *)

Definition key_at (k : list F64.float) (i : nat) : F64.float :=
  nth i k S754_nan.

Definition positions_where (p : F64.float -> bool) (k : list F64.float)
  : list nat :=
  filter (fun i => p (key_at k i)) (seq 0 (List.length k)).

Definition in_order_b (asc : bool) (k : list F64.float) (i j : nat) : bool :=
  if asc then F64.leb (key_at k i) (key_at k j)
  else F64.leb (key_at k j) (key_at k i).

Definition in_order (asc : bool) (k : list F64.float) (i j : nat) : Prop :=
  in_order_b asc k i j = true.

Definition is_argsort (asc : bool) (k : list F64.float) (ix : list nat) : Prop :=
  exists p,
    ix = p ++ positions_where F64.is_nan k /\
    Permutation p (positions_where (fun x => negb (F64.is_nan x)) k) /\
    StronglySorted (in_order asc k) p.

Fixpoint take {A} (ix : list nat) (l : list A) : list A :=
  match ix with
  | [] => []
  | i :: ix' =>
      match nth_error l i with
      | Some x => x :: take ix' l
      | None => take ix' l
      end
  end.

Definition col_take (ix : list nat) (c : column) : column :=
  match c with
  | ObjCol d => ObjCol (take ix d)
  | FloatCol d => FloatCol (take ix d)
  end.

(** [df.take(indexer)]: rows, with their labels, in the indexer's order. *)
Definition take_rows (ix : list nat) (df : DataFrame) : DataFrame :=
  {| index := take ix (index df);
     cols := map (fun nc => (fst nc, col_take ix (snd nc))) (cols df) |}.

Inductive sort_values (df : DataFrame) (by_ : string) (ascending : bool)
  : result DataFrame -> Prop :=
| sort_done k ix :
    lookup_col by_ (cols df) = Some (FloatCol k) ->
    is_argsort ascending k ix ->
    sort_values df by_ ascending (Ok (take_rows ix df))
| sort_no_column :
    lookup_col by_ (cols df) = None ->
    sort_values df by_ ascending (Raise (KeyError by_)).

(** One admissible indexer, computed: the stable one, by insertion. *)
Fixpoint insert_pos (asc : bool) (k : list F64.float) (i : nat) (l : list nat)
  : list nat :=
  match l with
  | [] => [i]
  | j :: l' =>
      if in_order_b asc k i j then i :: l else j :: insert_pos asc k i l'
  end.

Definition argsort_stable (asc : bool) (k : list F64.float) : list nat :=
  fold_right (insert_pos asc k) []
    (positions_where (fun x => negb (F64.is_nan x)) k)
  ++ positions_where F64.is_nan k.

(** [to_csv(index=False)]: the header line. *)
Definition csv_header (df : DataFrame) : string :=
  String.concat "," (columns df).

(** ** The script *)

Record Prepared := mkPrepared {
  p_df : DataFrame;
  p_sym_df : DataFrame;
  p_best_row : Row;
  p_worst_row : Row;
  p_metric_col : string;
  p_higher_is_better : bool;
  p_rank_df : DataFrame
}.

(** Lines 61-166: everything between the schema check and the sort. *)
Definition prepare (df0 : DataFrame) (selected_symbol : cell)
  (selected_metric : string) : result Prepared :=
  df <- normalise df0 ;;
  box <- symbol_box df ;;
  sym_df <- symbol_rows df selected_symbol ;;
  x <- best_worst sym_df selected_metric ;;
  rank_df <- rank_table sym_df ;;
  Ok {| p_df := df; p_sym_df := sym_df;
        p_best_row := fst (fst (fst x)); p_worst_row := snd (fst (fst x));
        p_metric_col := snd (fst x); p_higher_is_better := snd x;
        p_rank_df := rank_df |}.

(** The variables of the script when it has run to its end. *)
Record Session := mkSession {
  df : DataFrame;
  sym_df : DataFrame;
  best_row : Row;
  worst_row : Row;
  metric_col : string;
  higher_is_better : bool;
  rank_df : DataFrame
}.

Inductive outcome :=
| Finished (s : Session)
| Stopped (missing : list string)   (* st.error(..); st.stop() *)
| Raised (e : exn).

Definition finish (p : Prepared) (sorted : DataFrame) : Session :=
  {| df := p_df p; sym_df := p_sym_df p;
     best_row := p_best_row p; worst_row := p_worst_row p;
     metric_col := p_metric_col p;
     higher_is_better := p_higher_is_better p;
     rank_df := sorted |}.

Inductive run (t : RawTable) (selected_symbol : cell) (selected_metric : string)
  : outcome -> Prop :=
| run_stopped :
    missing_columns (read_table t) <> [] ->
    run t selected_symbol selected_metric
      (Stopped (missing_columns (read_table t)))
| run_raised e :
    missing_columns (read_table t) = [] ->
    prepare (read_table t) selected_symbol selected_metric = Raise e ->
    run t selected_symbol selected_metric (Raised e)
| run_sort_raised p e :
    missing_columns (read_table t) = [] ->
    prepare (read_table t) selected_symbol selected_metric = Ok p ->
    sort_values (p_rank_df p)
      (sort_key (p_rank_df p) selected_metric (p_metric_col p))
      (negb (p_higher_is_better p)) (Raise e) ->
    run t selected_symbol selected_metric (Raised e)
| run_finished p sorted :
    missing_columns (read_table t) = [] ->
    prepare (read_table t) selected_symbol selected_metric = Ok p ->
    sort_values (p_rank_df p)
      (sort_key (p_rank_df p) selected_metric (p_metric_col p))
      (negb (p_higher_is_better p)) (Ok sorted) ->
    run t selected_symbol selected_metric (Finished (finish p sorted)).

(** The three labels of the metric select box. *)
Inductive Metric := FilledPercent | AvgLatency | TotalVolume.

Definition metric_label (m : Metric) : string :=
  match m with
  | FilledPercent => "% Filled Volume"
  | AvgLatency => "Avg Fill Latency (ms)"
  | TotalVolume => "Total Filled Volume"
  end.

(** The scenario of the specification. *)
Definition scenario : RawTable :=
  [ ("Core Symbol", [Text "EURUSD"; Text "EURUSD"]);
    ("Maker Stream Name", [Text "LP_A"; Text "LP_B"]);
    ("% Filled Volume", [Text "87.3%"; Text "92.1%"]);
    ("Avg. Fill Latency", [Text "120ms"; Text "95ms"]);
    ("Total Filled Volume", [Text "$10,000.00"; Text "$8,500.50"]) ].

(** ** Vocabulary of the statements *)

(** Names of the source and of the derived columns. *)
Definition pct_src := "% Filled Volume".
Definition lat_src := "Avg. Fill Latency".
Definition vol_src := "Total Filled Volume".
Definition pct_col := "Filled_Vol_Pct".
Definition lat_col := "Avg_Latency_ms".
Definition vol_col := "Total_Filled_Vol".

Definition derived_columns : list string := [pct_col; lat_col; vol_col].

(** Position [p] holds a value [v] that every value of [l] is below
    ([le x v]), and no earlier position holds one as good. *)
Definition best_at (le : F64.float -> F64.float -> bool)
  (l : list F64.float) (p : nat) : Prop :=
  exists v, nth_error l p = Some v /\
    (forall x, In x l -> le x v = true) /\
    (forall j x, j < p -> nth_error l j = Some x -> le v x = false).

Fixpoint distinct (l : list nat) : bool :=
  match l with
  | [] => true
  | x :: l' => negb (existsb (Nat.eqb x) l') && distinct l'
  end.

(** Labels occur once and every column has one value per label. *)
Definition well_formed (d : DataFrame) : bool :=
  distinct (index d) &&
  forallb (fun nc => Nat.eqb (col_len (snd nc)) (nrows d)) (cols d).

(** Every column of the upload has as many cells as the first. *)
Definition rectangular (t : RawTable) : bool :=
  match t with
  | [] => true
  | (_, d) :: _ =>
      forallb (fun nc => Nat.eqb (List.length (snd nc)) (List.length d)) t
  end.

(** The row at a position of a frame. *)
Definition row_at (d : DataFrame) (p : nat) : option Row :=
  match nth_error (index d) p, row_fields (cols d) p with
  | Some l, Some f => Some {| label := l; fields := f |}
  | _, _ => None
  end.

(** The float a row holds under a column name. *)
Definition metric_value (name : string) (r : Row) : option F64.float :=
  match field name (fields r) with
  | Some (SFloat v) => Some v
  | _ => None
  end.

(** The metric resolver of the specification: canonical column and
    comparison direction ([true]: higher is better). *)
Definition resolve (m : Metric) : string * bool :=
  match m with
  | FilledPercent => (pct_col, true)
  | AvgLatency => (lat_col, false)
  | TotalVolume => (vol_col, true)
  end.

(** [x] is strictly more favourable than [y]. *)
Definition more_favourable (higher : bool) (x y : F64.float) : bool :=
  if higher then F64.ltb y x else F64.ltb x y.

(** [x] is at least as favourable as [y]. *)
Definition as_favourable (higher : bool) (x y : F64.float) : bool :=
  if higher then F64.leb y x else F64.leb x y.

(** Some value of the column is a number; no value is NaN. *)
Definition some_number (k : list F64.float) : bool :=
  existsb (fun x => negb (F64.is_nan x)) k.

Definition no_nan (k : list F64.float) : bool :=
  forallb (fun x => negb (F64.is_nan x)) k.

(** ** Tables used as instances *)

Definition the_frame (r : result DataFrame) : DataFrame :=
  match r with
  | Ok d => d
  | Raise _ => {| index := []; cols := [] |}
  end.

Definition scenario_df : DataFrame := the_frame (normalise (read_table scenario)).

Definition scenario_sym : DataFrame :=
  the_frame (symbol_rows scenario_df (Text "EURUSD")).

(** The latencies of the scenario, 120 and 95. *)
Definition scenario_latencies : list F64.float :=
  [ S754_finite false 8444249301319680 (-46);
    S754_finite false 6685030696878080 (-46) ].

(** An upload whose fill percentages are blank. *)
Definition blank_percent : RawTable :=
  [ ("Core Symbol", [Text "EURUSD"; Text "EURUSD"]);
    ("Maker Stream Name", [Text "LP_A"; Text "LP_B"]);
    ("% Filled Volume", [Missing; Missing]);
    ("Avg. Fill Latency", [Text "120ms"; Text "95ms"]);
    ("Total Filled Volume", [Text "$10,000.00"; Text "$8,500.50"]) ].

(** Two uploads that differ by the order of two rows tied at 90%. *)
Definition tie_ab : RawTable :=
  [ ("Core Symbol", [Text "EURUSD"; Text "EURUSD"]);
    ("Maker Stream Name", [Text "LP_A"; Text "LP_B"]);
    ("% Filled Volume", [Text "90%"; Text "90%"]);
    ("Avg. Fill Latency", [Text "100ms"; Text "200ms"]);
    ("Total Filled Volume", [Text "$1"; Text "$2"]) ].


(** The stream a row names. *)
Definition stream_name (r : Row) : option scalar :=
  field "Maker Stream Name" (fields r).

(** The symbol subset of a normalised upload. *)
Definition subset_of (t : RawTable) (sel : cell) : DataFrame :=
  the_frame (symbol_rows (the_frame (normalise (read_table t))) sel).

Definition ninety : F64.float := S754_finite false 6333186975989760 (-46).

(** The scenario without its latency column, and with a malformed
    percentage. *)
Definition no_latency : RawTable :=
  [ ("Core Symbol", [Text "EURUSD"; Text "EURUSD"]);
    ("Maker Stream Name", [Text "LP_A"; Text "LP_B"]);
    ("% Filled Volume", [Text "abc%"; Text "92.1%"]);
    ("Total Filled Volume", [Text "$10,000.00"; Text "$8,500.50"]) ].

(** The scenario with two headers spelt differently. *)
Definition other_spelling : RawTable :=
  [ ("core symbol", [Text "EURUSD"; Text "EURUSD"]);
    ("Maker Stream Name ", [Text "LP_A"; Text "LP_B"]);
    ("% Filled Volume", [Text "87.3%"; Text "92.1%"]);
    ("Avg. Fill Latency", [Text "120ms"; Text "95ms"]);
    ("Total Filled Volume", [Text "$10,000.00"; Text "$8,500.50"]) ].

(** [x] is a finite float within half a unit in the last place of the
    rational [num / den] ([den > 0]): no other float is nearer. *)
Definition nearest_to (x : F64.float) (num den : Z) : bool :=
  match x with
  | S754_finite s m e =>
      let v := if s then Z.neg m else Z.pos m in
      let up := Z.pow 2 (Z.max e 0) in
      let down := Z.pow 2 (Z.max (- e) 0) in
      (Z.abs (v * up * den - num * down) * 2 <=? up * den)%Z
  | _ => false
  end.

Definition not_char (x : ascii) (a : ascii) : bool := negb (Ascii.eqb a x).

(** [float] reads the cell's text once its decoration is removed. *)
Definition accepted (strip : string -> string) (c : cell) : Prop :=
  PyFloat.float_of_string (strip (astype_str c)) <> None.

(** [text] is the stripped text of the first cell of the column that
    [float] does not read. *)
Definition first_rejected (strip : string -> string) (cells : list cell)
  (text : string) : Prop :=
  exists pre c post,
    cells = pre ++ c :: post /\ text = strip (astype_str c) /\
    PyFloat.float_of_string text = None /\ Forall (accepted strip) pre.

(** Uploads with a cell that is not a finite number. *)
Definition infinite_percent : RawTable :=
  [ ("Core Symbol", [Text "EURUSD"; Text "EURUSD"]);
    ("Maker Stream Name", [Text "LP_A"; Text "LP_B"]);
    ("% Filled Volume", [Text "inf%"; Text "92.1%"]);
    ("Avg. Fill Latency", [Text "120ms"; Text "95ms"]);
    ("Total Filled Volume", [Text "$10,000.00"; Text "$8,500.50"]) ].



Definition is_derived (name : string) : bool :=
  existsb (String.eqb name) derived_columns.

(** The scenario with a column that already bears a derived name. *)
Definition name_clash : RawTable :=
  scenario ++ [ ("Filled_Vol_Pct", [Text "n/a"; Text "n/a"]) ].

(** The scenario with a blank symbol column. *)
Definition blank_symbol : RawTable :=
  [ ("Core Symbol", [Missing; Missing]);
    ("Maker Stream Name", [Text "LP_A"; Text "LP_B"]);
    ("% Filled Volume", [Text "87.3%"; Text "92.1%"]);
    ("Avg. Fill Latency", [Text "120ms"; Text "95ms"]);
    ("Total Filled Volume", [Text "$10,000.00"; Text "$8,500.50"]) ].

(** A ranked key column: the numbers first, each at least as
    favourable as all that follow, then the NaN values. *)
Definition ranked (higher : bool) (ks : list F64.float) : Prop :=
  exists nums nans,
    ks = nums ++ nans /\
    StronglySorted (fun x y => as_favourable higher x y = true) nums /\
    Forall (fun x => F64.is_nan x = false) nums /\
    Forall (fun x => F64.is_nan x = true) nans.

(** The ranking as the script builds it: project, rename, then sort by
    the key found among the table's own labels. *)
Definition ranking_by_label (sym : DataFrame)
  (selected_metric metric_col : string) (higher : bool)
  (o : result DataFrame) : Prop :=
  exists r, rank_table sym = Ok r /\
    sort_values r (sort_key r selected_metric metric_col) (negb higher) o.

Definition map_result {A B} (f : A -> B) (r : result A) : result B :=
  match r with
  | Ok a => Ok (f a)
  | Raise e => Raise e
  end.

(** The ranking as the specification words it: project, sort by the
    resolver's canonical column in the resolver's direction, and label
    the columns for display. *)
Definition ranking_by_resolver (sym : DataFrame) (m : Metric)
  (o : result DataFrame) : Prop :=
  exists p o', getitem_list sym ranking_source = Ok p /\
    sort_values p (fst (resolve m)) (negb (snd (resolve m))) o' /\
    o = map_result (rename ranking_labels) o'.

Definition ranking_header : string :=
  "LP Name,% Filled Volume,Avg Fill Latency (ms),Total Filled Volume".

(** The key at a position is a number. *)
Definition is_number_at (k : list F64.float) (i : nat) : Prop :=
  F64.is_nan (key_at k i) = false.

(** The float a cell gives under a stripping rule: [float] of the
    cell's text without its decoration; a blank cell gives NaN. *)
Definition reads_as (strip : string -> string) (c : cell) (x : F64.float)
  : Prop :=
  match c with
  | Text s => PyFloat.float_of_string (strip s) = Some x
  | Missing => x = S754_nan
  end.

Definition all_read (strip : string -> string) (cells : list cell) : Prop :=
  Forall (fun c => exists x, reads_as strip c x) cells.

(** [text] is the stripped text of the first cell of the column that
    gives no float; that cell is a text. *)
Definition first_unread (strip : string -> string) (cells : list cell)
  (text : string) : Prop :=
  exists pre s post,
    cells = pre ++ Text s :: post /\ text = strip s /\
    PyFloat.float_of_string text = None /\ all_read strip pre.

(** One row in the display formats of the specification. *)
Definition display_formats : RawTable :=
  [ ("Core Symbol", [Text "EURUSD"]);
    ("Maker Stream Name", [Text "LP_A"]);
    ("% Filled Volume", [Text "87.3%"]);
    ("Avg. Fill Latency", [Text "142.5ms"]);
    ("Total Filled Volume", [Text "$12,345.67"]) ].

(** [sub] occurs in [l]. *)
Definition occurs (sub l : list ascii) : Prop :=
  exists u v, l = u ++ sub ++ v.

(** The no-break space, U+00A0, in UTF-8. *)
Definition nbsp : string := String "194" (String "160" EmptyString).

(** An upload with a blank percentage, a latency that holds [ms]
    twice and a volume followed by a no-break space. *)
Definition mixed_cells : RawTable :=
  [ ("Core Symbol", [Text "EURUSD"; Text "EURUSD"]);
    ("Maker Stream Name", [Text "LP_A"; Text "LP_B"]);
    ("% Filled Volume", [Missing; Text "92.1%"]);
    ("Avg. Fill Latency", [Text "1ms20ms"; Text "95ms"]);
    ("Total Filled Volume", [Text "$10,000.00"; Text ("$8,500.50" ++ nbsp)]) ].

Definition mixed_cells_df : DataFrame :=
  the_frame (normalise (read_table mixed_cells)).

(** The least and the most favourable value there is in a direction. *)
Definition least_favourable (higher : bool) : F64.float :=
  if higher then F64.neg_inf else F64.pos_inf.

Definition most_favourable (higher : bool) : F64.float :=
  if higher then F64.pos_inf else F64.neg_inf.

(** A subset with blank fill percentages among numbers. *)
Definition gaps : RawTable :=
  [ ("Core Symbol", [Text "EURUSD"; Text "EURUSD"; Text "EURUSD"; Text "EURUSD"]);
    ("Maker Stream Name", [Text "LP_A"; Text "LP_B"; Text "LP_C"; Text "LP_D"]);
    ("% Filled Volume", [Missing; Text "50%"; Missing; Text "70%"]);
    ("Avg. Fill Latency", [Text "1ms"; Text "2ms"; Text "3ms"; Text "4ms"]);
    ("Total Filled Volume", [Text "$1"; Text "$2"; Text "$3"; Text "$4"]) ].

Definition gaps_percentages : list F64.float :=
  [ S754_nan; S754_finite false 7036874417766400 (-47);
    S754_nan; S754_finite false 4925812092436480 (-46) ].

(** A blank fill percentage before one that reads minus infinity. *)
Definition blank_then_minus_infinity : RawTable :=
  [ ("Core Symbol", [Text "EURUSD"; Text "EURUSD"]);
    ("Maker Stream Name", [Text "LP_A"; Text "LP_B"]);
    ("% Filled Volume", [Missing; Text "-inf%"]);
    ("Avg. Fill Latency", [Text "120ms"; Text "95ms"]);
    ("Total Filled Volume", [Text "$10,000.00"; Text "$8,500.50"]) ].

(** The same two rows in the other order. *)
Definition minus_infinity_then_blank : RawTable :=
  [ ("Core Symbol", [Text "EURUSD"; Text "EURUSD"]);
    ("Maker Stream Name", [Text "LP_B"; Text "LP_A"]);
    ("% Filled Volume", [Text "-inf%"; Missing]);
    ("Avg. Fill Latency", [Text "95ms"; Text "120ms"]);
    ("Total Filled Volume", [Text "$8,500.50"; Text "$10,000.00"]) ].



(** [out] is the ranking table made of the rows of a subset taken in
    the order [ix]: its row [j] holds the label, the stream name, the
    fill percentage, the latency and the volume of the subset's row
    [ix_j], under the display labels, and it has no other row. *)
Definition ranking_rows (labels : list nat) (names : list cell)
  (k1 k2 k3 : list F64.float) (ix : list nat) (out : DataFrame) : Prop :=
  exists ns p l v,
    cols out = [ ("LP Name", ObjCol ns); ("% Filled Volume", FloatCol p);
                 ("Avg Fill Latency (ms)", FloatCol l);
                 ("Total Filled Volume", FloatCol v) ] /\
    List.length (index out) = List.length ix /\
    List.length ns = List.length ix /\ List.length p = List.length ix /\
    List.length l = List.length ix /\ List.length v = List.length ix /\
    forall j i, nth_error ix j = Some i ->
      nth_error (index out) j = nth_error labels i /\
      nth_error ns j = nth_error names i /\
      nth_error p j = nth_error k1 i /\
      nth_error l j = nth_error k2 i /\
      nth_error v j = nth_error k3 i.

(** ** Further vocabulary *)

(** The positions of the rows whose symbol is the selected one. *)
Definition matching_positions (symbols : list cell) (sel : cell) : list nat :=
  filter (fun i => cell_eqb (nth i symbols Missing) sel)
    (seq 0 (List.length symbols)).

(** The required headers without any data row. *)
Definition headers_only : RawTable :=
  [ ("Core Symbol", []); ("Maker Stream Name", []); ("% Filled Volume", []);
    ("Avg. Fill Latency", []); ("Total Filled Volume", []) ].

(** The scenario with one blank symbol cell. *)
Definition one_blank_symbol : RawTable :=
  [ ("Core Symbol", [Text "EURUSD"; Missing]);
    ("Maker Stream Name", [Text "LP_A"; Text "LP_B"]);
    ("% Filled Volume", [Text "87.3%"; Text "92.1%"]);
    ("Avg. Fill Latency", [Text "120ms"; Text "95ms"]);
    ("Total Filled Volume", [Text "$10,000.00"; Text "$8,500.50"]) ].

(** The ranking table of a subset before it is sorted. *)
Definition unsorted_ranking (sym : DataFrame) (names : column)
  (k1 k2 k3 : list F64.float) : DataFrame :=
  {| index := index sym;
     cols := [ ("LP Name", names); ("% Filled Volume", FloatCol k1);
               ("Avg Fill Latency (ms)", FloatCol k2);
               ("Total Filled Volume", FloatCol k3) ] |}.

(** The scenario ranked by latency with the stable indexer. *)
Definition scenario_by_latency_ranking : DataFrame :=
  take_rows (argsort_stable true scenario_latencies)
    (the_frame (rank_table scenario_sym)).

(** ** File reader (lines 30-34) *)

Inductive reader := read_csv | read_excel.

(** [s.endswith(suffix)] *)
Definition ends_with (suffix s : string) : bool :=
  starts_with (rev (chars suffix)) (rev (chars s)).

(** [pd.read_csv] when the uploaded file's name ends with [.csv],
    [pd.read_excel] otherwise. *)
Definition reader_for (name : string) : reader :=
  if ends_with ".csv" name then read_csv else read_excel.

(** ** KPI cards (lines 136-147) *)

Definition digit_char (d : N) : ascii := ascii_of_nat (48 + N.to_nat d).

(** The decimal digits of [n], most significant first; [fuel] bounds
    their number. *)
Fixpoint digits_from (fuel : nat) (n : N) (acc : list ascii) : list ascii :=
  match fuel with
  | O => acc
  | S f =>
      if (n <? 10)%N then digit_char n :: acc
      else digits_from f (n / 10)%N (digit_char (n mod 10)%N :: acc)
  end.

Definition digits_of (n : N) : list ascii :=
  digits_from (S (N.to_nat (N.log2 n))) n [].

(** The [,] option of the format: a comma before every group of three
    digits, counted from the right.  The digits come least significant
    first; [room] is what is left of the current group. *)
Fixpoint commas_from (room : nat) (r : list ascii) : list ascii :=
  match r with
  | [] => []
  | c :: r' =>
      match room with
      | O => ","%char :: c :: commas_from 2 r'
      | S k => c :: commas_from k r'
      end
  end.

Definition grouped (digits : list ascii) : list ascii :=
  rev (commas_from 3 (rev digits)).

(** The nearest integer to [num / den] ([den > 0]), ties to even. *)
Definition round_half_even (num den : Z) : Z :=
  let q := (num / den)%Z in
  let r := (num mod den)%Z in
  match (2 * r ?= den)%Z with
  | Lt => q
  | Gt => (q + 1)%Z
  | Eq => if Z.even q then q else (q + 1)%Z
  end.

(** [|x| * 100] rounded to an integer, for a finite [x = m * 2^e]. *)
Definition hundredths (m : positive) (e : Z) : N :=
  match e with
  | Zneg k => Z.to_N (round_half_even (Zpos m * 100) (Z.pow 2 (Zpos k)))
  | _ => Z.to_N (Zpos m * 100 * Z.pow 2 e)
  end.

Definition fixed2 (neg : bool) (n : N) : list ascii :=
  (if neg then ["-"%char] else [])
  ++ grouped (digits_of (n / 100)%N)
  ++ "."%char :: digit_char ((n / 10) mod 10)%N :: digit_char (n mod 10)%N :: [].

(** [format(x, ",.2f")] *)
Definition format_2f (x : F64.float) : string :=
  match x with
  | S754_nan => "nan"
  | S754_infinity s => if s then "-inf" else "inf"
  | S754_zero s => string_of_list_ascii (fixed2 s 0)
  | S754_finite s m e => string_of_list_ascii (fixed2 s (hundredths m e))
  end.

Record Card := mkCard {
  card_label : string;
  card_value : scalar;
  card_delta : string
}.

Inductive kpi_outcome :=
| Cards (best worst : Card)
| KpiKeyError (name : string)   (* the row has no such field *)
| KpiFormatError.               (* format code 'f' on a text *)

(** [f"{v:,.2f}"] on a value of a row: a missing value is the float
    NaN; a text has no such format. *)
Definition format_scalar (v : scalar) : option string :=
  match v with
  | SFloat x => Some (format_2f x)
  | SCell Missing => Some "nan"
  | SCell (Text _) => None
  end.

Definition kpi_card (title : string) (r : Row) (metric_col : string)
  : Card + kpi_outcome :=
  match field "Maker Stream Name" (fields r) with
  | None => inr (KpiKeyError "Maker Stream Name")
  | Some name =>
      match field metric_col (fields r) with
      | None => inr (KpiKeyError metric_col)
      | Some v =>
          match format_scalar v with
          | None => inr KpiFormatError
          | Some delta =>
              inl {| card_label := title; card_value := name;
                     card_delta := delta |}
          end
      end
  end.

Definition kpi_cards (best_row worst_row : Row) (metric_col : string)
  : kpi_outcome :=
  match kpi_card "Best LP" best_row metric_col with
  | inr e => e
  | inl b =>
      match kpi_card "Worst LP" worst_row metric_col with
      | inr e => e
      | inl w => Cards b w
      end
  end.

(** What a KPI card's text stands for: the displayed hundredths, read
    as a decimal. *)
Definition shown_value (x : F64.float) : F64.float :=
  match x with
  | S754_finite s m e => F64.of_decimal s (hundredths m e) (-2)
  | _ => x
  end.

Definition is_metric_column (name : string) : bool :=
  existsb (String.eqb name) [pct_col; lat_col; vol_col].

(** * Properties *)

(** ** The order on binary64 values *)

Module F64Facts.
Import F64.

Ltac cmp_cases :=
  repeat match goal with
  | |- context [Z.compare ?a ?b] => destruct (Z.compare_spec a b)
  | H : context [Z.compare ?a ?b] |- _ => destruct (Z.compare_spec a b)
  | |- context [Pos.compare_cont Eq ?a ?b] =>
      change (Pos.compare_cont Eq a b) with (Pos.compare a b);
      destruct (Pos.compare_spec a b)
  | H : context [Pos.compare_cont Eq ?a ?b] |- _ =>
      change (Pos.compare_cont Eq a b) with (Pos.compare a b) in H;
      destruct (Pos.compare_spec a b)
  end.

Ltac float_cases :=
  unfold leb, ltb, eqb, SFleb, SFltb, SFeqb, SFcompare, is_nan in *;
  repeat match goal with
  | x : float |- _ => destruct x as [[|]|[|]| |[|] ? ?]
  | x : spec_float |- _ => destruct x as [[|]|[|]| |[|] ? ?]
  end;
  simpl in *; try congruence; try tauto;
  cmp_cases; simpl in *; subst; try congruence; try tauto; try lia.

Lemma leb_refl (x : float) : is_nan x = false -> leb x x = true.
Proof. intros H. float_cases. Qed.

Lemma leb_trans (x y z : float) :
  leb x y = true -> leb y z = true -> leb x z = true.
Proof. intros H1 H2. float_cases. Qed.

Lemma leb_total (x y : float) :
  is_nan x = false -> is_nan y = false -> leb x y = true \/ leb y x = true.
Proof. intros H1 H2. float_cases. Qed.

Lemma ltb_not_leb (x y : float) :
  is_nan x = false -> is_nan y = false -> ltb x y = negb (leb y x).
Proof. intros H1 H2. float_cases. Qed.

Lemma leb_not_nan (x y : float) :
  leb x y = true -> is_nan x = false /\ is_nan y = false.
Proof. intros H. float_cases. Qed.

Lemma ltb_leb (x y : float) : ltb x y = true -> leb x y = true.
Proof. intros H. float_cases. Qed.

Lemma ltb_irrefl (x : float) : ltb x x = false.
Proof. float_cases. Qed.

Lemma ltb_nan_l (y : float) : ltb S754_nan y = false.
Proof. reflexivity. Qed.

Lemma ltb_nan_r (x : float) : ltb x S754_nan = false.
Proof. destruct x; reflexivity. Qed.

Lemma eqb_leb (x y : float) :
  eqb x y = leb x y && leb y x.
Proof. float_cases. Qed.

Lemma leb_neg_inf (x : float) : is_nan x = false -> leb neg_inf x = true.
Proof. intros H. unfold neg_inf. float_cases. Qed.

Lemma leb_pos_inf (x : float) : is_nan x = false -> leb x pos_inf = true.
Proof. intros H. unfold pos_inf. float_cases. Qed.

End F64Facts.

(** ** First extreme position *)

Section ArgBest.
Import F64.

  (** [le x y]: [y] is at least as good as [x]. *)
Variable le : float -> float -> bool.
Variable beats : float -> float -> bool.
Hypothesis le_trans : forall x y z, le x y = true -> le y z = true -> le x z = true.
Hypothesis le_refl : forall x, is_nan x = false -> le x x = true.
Hypothesis beats_le : forall x b,
    is_nan x = false -> is_nan b = false -> beats x b = negb (le x b).
Hypothesis le_total : forall x y,
    is_nan x = false -> is_nan y = false -> le x y = true \/ le y x = true.

Lemma arg_from_best (l pre : list float) (bi : nat) (bv : float) :
    (forall x, In x (pre ++ l) -> is_nan x = false) ->
    nth_error pre bi = Some bv ->
    (forall x, In x pre -> le x bv = true) ->
    (forall j x, j < bi -> nth_error pre j = Some x -> le bv x = false) ->
    best_at le (pre ++ l) (arg_from beats bi bv (List.length pre) l).
  Proof.
    revert pre bi bv.
    induction l as [|x l IH]; intros pre bi bv Hnan Hbi Hle Hfirst; simpl.
    - rewrite app_nil_r. exists bv. repeat split; auto.
    - assert (Hx : is_nan x = false) by (apply Hnan, in_or_app; right; left; auto).
      assert (Hbv : is_nan bv = false).
      { apply Hnan, in_or_app. left. eapply nth_error_In; eauto. }
      assert (Hpre : forall y, In y pre -> is_nan y = false).
      { intros y Hy. apply Hnan, in_or_app. auto. }
      replace (pre ++ x :: l) with ((pre ++ [x]) ++ l)
        by (rewrite <- app_assoc; reflexivity).
      replace (S (List.length pre)) with (List.length (pre ++ [x]))
        by (rewrite length_app; simpl; lia).
      rewrite (beats_le x bv Hx Hbv).
      destruct (le x bv) eqn:E; simpl.
      + apply IH.
        * intros y Hy. apply Hnan. rewrite <- app_assoc in Hy. exact Hy.
        * rewrite nth_error_app1; auto. apply nth_error_Some. congruence.
        * intros y Hy. apply in_app_or in Hy. destruct Hy as [Hy|[Hy|[]]]; subst; auto.
        * intros j y Hj Hy. apply (Hfirst j y Hj).
          rewrite nth_error_app1 in Hy; auto.
          assert (bi < List.length pre) by (apply nth_error_Some; congruence). lia.
      + assert (Hbx : le bv x = true).
        { destruct (le_total x bv Hx Hbv); congruence. }
        apply IH.
        * intros y Hy. apply Hnan. rewrite <- app_assoc in Hy. exact Hy.
        * rewrite nth_error_app2 by lia. rewrite Nat.sub_diag. reflexivity.
        * intros y Hy. apply in_app_or in Hy. destruct Hy as [Hy|[Hy|[]]]; subst; auto.
          apply le_trans with bv; auto.
        * intros j y Hj Hy. rewrite nth_error_app1 in Hy by exact Hj.
          destruct (le x y) eqn:Exy; auto.
          assert (le x bv = true); [|congruence].
          apply le_trans with y; auto. apply Hle. eapply nth_error_In; eauto.
  Qed.

Lemma arg_from_head_best (x : float) (l : list float) :
    (forall y, In y (x :: l) -> is_nan y = false) ->
    best_at le (x :: l) (arg_from beats 0 x 1 l).
  Proof.
    intros Hnan.
    apply (arg_from_best l [x] 0 x); simpl; auto.
    - intros y [Hy|[]]; subst. apply le_refl. apply Hnan. left; auto.
    - intros j y Hj. lia.
  Qed.

End ArgBest.

(** ** Columns and frames *)

Lemma lookup_assign_same name c cs :
  lookup_col name (assign_col name c cs) = Some c.
Proof.
  induction cs as [|[n c0] cs IH]; simpl.
  - rewrite String.eqb_refl. reflexivity.
  - destruct (String.eqb name n) eqn:E; simpl; rewrite E; auto.
Qed.

Lemma lookup_assign_other name name' c cs :
  name' <> name ->
  lookup_col name' (assign_col name c cs) = lookup_col name' cs.
Proof.
  intros Hne. induction cs as [|[n c0] cs IH]; simpl.
  - apply String.eqb_neq in Hne. rewrite Hne. reflexivity.
  - destruct (String.eqb name n) eqn:E; simpl.
    + apply String.eqb_eq in E. subst n.
      apply String.eqb_neq in Hne. rewrite Hne. reflexivity.
    + rewrite IH. reflexivity.
Qed.

Lemma has_column_In name d : has_column name d = true <-> In name (columns d).
Proof.
  unfold has_column. rewrite existsb_exists. split.
  - intros [x [Hx E]]. apply String.eqb_eq in E. subst. exact Hx.
  - intros H. exists name. split; auto. apply String.eqb_refl.
Qed.

Lemma lookup_col_In name cs :
  In name (map fst cs) <-> exists c, lookup_col name cs = Some c.
Proof.
  induction cs as [|[n c] cs IH]; simpl.
  - split; [tauto | intros [c H]; discriminate].
  - destruct (String.eqb name n) eqn:E.
    + apply String.eqb_eq in E. subst. split; eauto.
    + apply String.eqb_neq in E. rewrite <- IH. split.
      * intros [H|H]; [congruence | exact H].
      * auto.
Qed.

Lemma columns_assign name c cs :
  map fst (assign_col name c cs) =
  if existsb (String.eqb name) (map fst cs) then map fst cs
  else map fst cs ++ [name].
Proof.
  induction cs as [|[n c0] cs IH]; simpl; auto.
  destruct (String.eqb name n) eqn:E; simpl; auto.
  rewrite IH. destruct (existsb _ _); reflexivity.
Qed.

(** *** [astype(float)] *)

Lemma astype_float_ok l v :
  astype_float l = Ok v <->
  Forall2 (fun s x => PyFloat.float_of_string s = Some x) l v.
Proof.
  revert v. induction l as [|s l IH]; intros v; simpl.
  - split; intros H; [injection H as <-; constructor | inversion H; auto].
  - destruct (PyFloat.float_of_string s) as [x|] eqn:E.
    + destruct (astype_float l) as [r|e] eqn:R; simpl.
      * split; intros H.
        -- injection H as <-. constructor; auto. apply IH. reflexivity.
        -- inversion H; subst. rewrite E in H2. injection H2 as <-.
           apply IH in H4. injection H4 as <-. reflexivity.
      * split; intros H; [discriminate|].
        inversion H; subst. apply IH in H4. discriminate.
    + split; intros H; [discriminate|]. inversion H; subst. congruence.
Qed.

Lemma astype_float_raise l e :
  astype_float l = Raise e ->
  exists pre s post,
    l = pre ++ s :: post /\ e = ValueError_float s /\
    PyFloat.float_of_string s = None /\
    Forall (fun s' => PyFloat.float_of_string s' <> None) pre.
Proof.
  revert e. induction l as [|s l IH]; intros e; simpl; [discriminate|].
  destruct (PyFloat.float_of_string s) as [x|] eqn:E.
  - destruct (astype_float l) as [r|e'] eqn:R; simpl; [discriminate|].
    intros H. injection H as <-.
    destruct (IH e' eq_refl) as (pre & s' & post & -> & -> & Hn & Hpre).
    exists (s :: pre), s', post. repeat split; auto.
    constructor; auto. congruence.
  - intros H. injection H as <-. exists [], s, l. repeat split; auto.
Qed.

Lemma astype_float_total l :
  (exists v, astype_float l = Ok v) \/
  (exists s, astype_float l = Raise (ValueError_float s)).
Proof.
  destruct (astype_float l) as [v|e] eqn:E; eauto.
  right. apply astype_float_raise in E.
  destruct E as (pre & s & post & _ & -> & _). eauto.
Qed.

Lemma astype_float_length l v : astype_float l = Ok v -> List.length v = List.length l.
Proof.
  intros H. apply astype_float_ok in H. symmetry. eapply Forall2_length; eauto.
Qed.

(** *** Normalisation, step by step *)

Lemma convert_ok d src strip dst d' :
  convert d src strip dst = Ok d' ->
  exists c v, lookup_col src (cols d) = Some c /\ to_numeric strip c = Ok v /\
    d' = setitem d dst (FloatCol v).
Proof.
  unfold convert, getitem.
  destruct (lookup_col src (cols d)) as [c|] eqn:L; simpl; [|discriminate].
  destruct (to_numeric strip c) as [v|e] eqn:N; simpl; [|discriminate].
  intros H. injection H as <-. exists c, v. auto.
Qed.

Lemma normalise_ok d d' :
  normalise d = Ok d' ->
  exists c1 v1 c2 v2 c3 v3,
    lookup_col pct_src (cols d) = Some c1 /\ to_numeric strip_pct c1 = Ok v1 /\
    lookup_col lat_src (cols d) = Some c2 /\ to_numeric strip_ms c2 = Ok v2 /\
    lookup_col vol_src (cols d) = Some c3 /\ to_numeric strip_vol c3 = Ok v3 /\
    d' = setitem (setitem (setitem d pct_col (FloatCol v1))
                    lat_col (FloatCol v2)) vol_col (FloatCol v3).
Proof.
  unfold normalise. intros H.
  destruct (convert d "% Filled Volume" strip_pct "Filled_Vol_Pct") as [d1|] eqn:E1;
    simpl in H; [|discriminate].
  destruct (convert d1 "Avg. Fill Latency" strip_ms "Avg_Latency_ms") as [d2|] eqn:E2;
    simpl in H; [|discriminate].
  apply convert_ok in E1. destruct E1 as (c1 & v1 & L1 & N1 & ->).
  apply convert_ok in E2. destruct E2 as (c2 & v2 & L2 & N2 & ->).
  apply convert_ok in H. destruct H as (c3 & v3 & L3 & N3 & ->).
  simpl in L2, L3.
  rewrite lookup_assign_other in L3 by discriminate.
  rewrite lookup_assign_other in L3 by discriminate.
  rewrite lookup_assign_other in L2 by discriminate.
  exists c1, v1, c2, v2, c3, v3. repeat split; auto.
Qed.

Lemma normalise_index d d' : normalise d = Ok d' -> index d' = index d.
Proof.
  intros H. apply normalise_ok in H.
  destruct H as (c1 & v1 & c2 & v2 & c3 & v3 & _ & _ & _ & _ & _ & _ & ->).
  reflexivity.
Qed.

Lemma normalise_other_columns d d' name :
  normalise d = Ok d' -> ~ In name derived_columns ->
  lookup_col name (cols d') = lookup_col name (cols d).
Proof.
  intros H Hn. apply normalise_ok in H.
  destruct H as (c1 & v1 & c2 & v2 & c3 & v3 & _ & _ & _ & _ & _ & _ & ->).
  simpl in *. unfold pct_col, lat_col, vol_col in *.
  rewrite !lookup_assign_other; auto; intros ->; apply Hn; auto.
Qed.

Lemma normalise_derived d d' :
  normalise d = Ok d' ->
  exists c1 v1 c2 v2 c3 v3,
    lookup_col pct_src (cols d) = Some c1 /\ to_numeric strip_pct c1 = Ok v1 /\
    lookup_col lat_src (cols d) = Some c2 /\ to_numeric strip_ms c2 = Ok v2 /\
    lookup_col vol_src (cols d) = Some c3 /\ to_numeric strip_vol c3 = Ok v3 /\
    lookup_col pct_col (cols d') = Some (FloatCol v1) /\
    lookup_col lat_col (cols d') = Some (FloatCol v2) /\
    lookup_col vol_col (cols d') = Some (FloatCol v3).
Proof.
  intros H. apply normalise_ok in H.
  destruct H as (c1 & v1 & c2 & v2 & c3 & v3 & L1 & N1 & L2 & N2 & L3 & N3 & ->).
  exists c1, v1, c2, v2, c3, v3. repeat split; auto; simpl.
  - rewrite !lookup_assign_other by discriminate. apply lookup_assign_same.
  - rewrite lookup_assign_other by discriminate. apply lookup_assign_same.
  - apply lookup_assign_same.
Qed.

(** *** Rows of a well-formed frame *)

Lemma distinct_position l p x :
  distinct l = true -> nth_error l p = Some x -> position l x = Some p.
Proof.
  revert p. induction l as [|y l IH]; intros [|p] Hd Hn; simpl in *; try discriminate.
  - injection Hn as ->. rewrite Nat.eqb_refl. reflexivity.
  - apply andb_prop in Hd. destruct Hd as [Hy Hd].
    destruct (Nat.eqb x y) eqn:E.
    + apply Nat.eqb_eq in E. subst y. apply negb_true_iff in Hy.
      assert (existsb (Nat.eqb x) l = true); [|congruence].
      apply existsb_exists. exists x. split.
      * eapply nth_error_In; eauto.
      * apply Nat.eqb_refl.
    + rewrite (IH p Hd Hn). reflexivity.
Qed.

Lemma distinct_NoDup l : distinct l = true <-> NoDup l.
Proof.
  induction l as [|x l IH]; simpl.
  - split; auto. constructor.
  - rewrite andb_true_iff, negb_true_iff, IH. split.
    + intros [Hx Hd]. constructor; auto. intros Hin.
      assert (existsb (Nat.eqb x) l = true); [|congruence].
      apply existsb_exists. exists x. split; auto. apply Nat.eqb_refl.
    + intros H. inversion H; subst. split; auto.
      destruct (existsb (Nat.eqb x) l) eqn:E; auto.
      apply existsb_exists in E. destruct E as [y [Hy E]].
      apply Nat.eqb_eq in E. subst. contradiction.
Qed.

Lemma col_nth_some c p : p < col_len c -> exists v, col_nth c p = Some v.
Proof.
  destruct c as [d|d]; simpl; intros H;
    destruct (nth_error d p) eqn:E; simpl; eauto;
    apply nth_error_None in E; lia.
Qed.

Lemma row_fields_some cs n p :
  forallb (fun nc => Nat.eqb (col_len (snd nc)) n) cs = true -> p < n ->
  exists f, row_fields cs p = Some f.
Proof.
  intros H Hp. induction cs as [|[name c] cs IH]; simpl in *; eauto.
  apply andb_prop in H. destruct H as [Hc H]. apply Nat.eqb_eq in Hc.
  destruct (col_nth_some c p) as [v ->]; [lia|].
  destruct (IH H) as [f ->]. eauto.
Qed.

Lemma field_row_fields cs p f name :
  row_fields cs p = Some f ->
  field name f =
  match lookup_col name cs with Some c => col_nth c p | None => None end.
Proof.
  revert f. induction cs as [|[n c] cs IH]; intros f H; simpl in *.
  - injection H as <-. reflexivity.
  - destruct (col_nth c p) as [v|] eqn:Ev; [|discriminate].
    destruct (row_fields cs p) as [r|] eqn:Er; [|discriminate].
    injection H as <-. simpl. destruct (String.eqb name n); auto.
Qed.

Lemma lookup_col_len d name c :
  well_formed d = true -> lookup_col name (cols d) = Some c ->
  col_len c = nrows d.
Proof.
  unfold well_formed. intros H L. apply andb_prop in H. destruct H as [_ H].
  rewrite forallb_forall in H.
  assert (In (name, c) (cols d) \/ False) as [Hin|[]].
  { clear H. left. induction (cols d) as [|[n c0] cs IH]; simpl in *; [discriminate|].
    destruct (String.eqb name n) eqn:E.
    - apply String.eqb_eq in E. subst. injection L as ->. auto.
    - auto. }
  apply H in Hin. simpl in Hin. apply Nat.eqb_eq in Hin. exact Hin.
Qed.

Lemma loc_row_at d p :
  well_formed d = true -> p < nrows d ->
  exists r, row_at d p = Some r /\
    label_at (index d) p = Ok (label r) /\ loc d (label r) = Ok r.
Proof.
  intros Hwf Hp. pose proof Hwf as Hwf'. unfold well_formed in Hwf'.
  apply andb_prop in Hwf'. destruct Hwf' as [Hd Hc].
  destruct (nth_error (index d) p) as [l|] eqn:El.
  2:{ apply nth_error_None in El. unfold nrows in Hp. lia. }
  destruct (row_fields_some _ _ p Hc Hp) as [f Hf].
  exists {| label := l; fields := f |}. unfold row_at, label_at, loc. simpl.
  rewrite El, Hf, (distinct_position _ _ _ Hd El), Hf. auto.
Qed.

Lemma row_at_metric d p r name k :
  row_at d p = Some r -> lookup_col name (cols d) = Some (FloatCol k) ->
  metric_value name r = nth_error k p.
Proof.
  unfold row_at, metric_value. intros Hr L.
  destruct (nth_error (index d) p); [|discriminate].
  destruct (row_fields (cols d) p) as [f|] eqn:Hf; [|discriminate].
  injection Hr as <-. simpl. rewrite (field_row_fields _ _ _ name Hf), L. simpl.
  destruct (nth_error k p); reflexivity.
Qed.

(** *** [nanargmax] and [nanargmin] *)

Lemma some_number_not_all_nan k :
  some_number k = true -> forallb F64.is_nan k = false.
Proof.
  unfold some_number. intros H. apply existsb_exists in H.
  destruct H as [x [Hx Hn]]. destruct (forallb F64.is_nan k) eqn:E; auto.
  rewrite forallb_forall in E. rewrite (E x Hx) in Hn. discriminate.
Qed.

Lemma fill_nan_number v x : F64.is_nan v = false -> F64.is_nan (fill_nan v x) = false.
Proof. unfold fill_nan. destruct (F64.is_nan x) eqn:E; auto. Qed.

Lemma filled_numbers v k :
  F64.is_nan v = false ->
  forall x, In x (map (fill_nan v) k) -> F64.is_nan x = false.
Proof.
  intros Hv x H. apply in_map_iff in H. destruct H as [y [<- _]].
  apply fill_nan_number. exact Hv.
Qed.

Lemma no_nan_fill v k : no_nan k = true -> map (fill_nan v) k = k.
Proof.
  unfold no_nan. intros H. rewrite forallb_forall in H.
  rewrite <- (map_id k) at 2. apply map_ext_in. intros x Hx.
  unfold fill_nan. apply H in Hx. apply negb_true_iff in Hx. rewrite Hx. reflexivity.
Qed.

Lemma nanargmax_best k :
  some_number k = true ->
  exists p, nanargmax k = Ok p /\
    best_at F64.leb (map (fill_nan F64.neg_inf) k) p.
Proof.
  intros H. unfold nanargmax. rewrite (some_number_not_all_nan k H).
  destruct k as [|x k]; [discriminate|].
  eexists. split; [reflexivity|]. simpl.
  apply arg_from_head_best.
  - apply F64Facts.leb_trans.
  - apply F64Facts.leb_refl.
  - intros y b Hy Hb. apply F64Facts.ltb_not_leb; auto.
  - apply F64Facts.leb_total.
  - apply (filled_numbers F64.neg_inf (x :: k)). reflexivity.
Qed.

Lemma nanargmin_best k :
  some_number k = true ->
  exists p, nanargmin k = Ok p /\
    best_at (fun x y => F64.leb y x) (map (fill_nan F64.pos_inf) k) p.
Proof.
  intros H. unfold nanargmin. rewrite (some_number_not_all_nan k H).
  destruct k as [|x k]; [discriminate|].
  eexists. split; [reflexivity|]. simpl.
  apply arg_from_head_best.
  - intros a b c H1 H2. eapply F64Facts.leb_trans; eauto.
  - apply F64Facts.leb_refl.
  - intros y b Hy Hb. apply F64Facts.ltb_not_leb; auto.
  - intros a b Ha Hb. destruct (F64Facts.leb_total a b Ha Hb); auto.
  - apply (filled_numbers F64.pos_inf (x :: k)). reflexivity.
Qed.

Lemma best_at_lt le l p : best_at le l p -> p < List.length l.
Proof.
  intros (v & Hv & _). apply nth_error_Some. congruence.
Qed.

Lemma max_props k p v :
  best_at F64.leb (map (fill_nan F64.neg_inf) k) p -> nth_error k p = Some v ->
  (forall x, In x k -> F64.ltb v x = false) /\
  (no_nan k = true -> forall x, In x k -> F64.leb x v = true) /\
  (no_nan k = true ->
   forall j x, j < p -> nth_error k j = Some x -> F64.ltb x v = true).
Proof.
  intros (fv & Hfv & Hall & Hfirst) Hv.
  rewrite nth_error_map, Hv in Hfv. simpl in Hfv. injection Hfv as <-.
  split; [|split].
  - intros x Hx. unfold fill_nan in Hall.
    destruct (F64.is_nan v) eqn:Ev.
    { destruct v; try discriminate. reflexivity. }
    destruct (F64.is_nan x) eqn:Ex.
    { destruct x; try discriminate. apply F64Facts.ltb_nan_r. }
    rewrite F64Facts.ltb_not_leb by assumption.
    apply negb_false_iff.
    specialize (Hall (if F64.is_nan x then F64.neg_inf else x)).
    rewrite Ex in Hall. apply Hall.
    apply in_map_iff. exists x. rewrite Ex. auto.
  - intros Hn x Hx. rewrite (no_nan_fill _ _ Hn) in Hall.
    unfold no_nan in Hn. rewrite forallb_forall in Hn.
    assert (Ev : F64.is_nan v = false).
    { apply negb_true_iff, Hn. eapply nth_error_In; eauto. }
    unfold fill_nan in Hall. rewrite Ev in Hall. auto.
  - intros Hn j x Hj Hx. rewrite (no_nan_fill _ _ Hn) in Hfirst.
    unfold no_nan in Hn. rewrite forallb_forall in Hn.
    assert (Ev : F64.is_nan v = false).
    { apply negb_true_iff, Hn. eapply nth_error_In; eauto. }
    assert (Ex : F64.is_nan x = false).
    { apply negb_true_iff, Hn. eapply nth_error_In; eauto. }
    unfold fill_nan in Hfirst. rewrite Ev in Hfirst.
    rewrite F64Facts.ltb_not_leb by assumption.
    rewrite (Hfirst j x Hj Hx). reflexivity.
Qed.

Lemma min_props k p v :
  best_at (fun x y => F64.leb y x) (map (fill_nan F64.pos_inf) k) p ->
  nth_error k p = Some v ->
  (forall x, In x k -> F64.ltb x v = false) /\
  (no_nan k = true -> forall x, In x k -> F64.leb v x = true) /\
  (no_nan k = true ->
   forall j x, j < p -> nth_error k j = Some x -> F64.ltb v x = true).
Proof.
  intros (fv & Hfv & Hall & Hfirst) Hv.
  rewrite nth_error_map, Hv in Hfv. simpl in Hfv. injection Hfv as <-.
  split; [|split].
  - intros x Hx. unfold fill_nan in Hall.
    destruct (F64.is_nan v) eqn:Ev.
    { destruct v; try discriminate. apply F64Facts.ltb_nan_r. }
    destruct (F64.is_nan x) eqn:Ex.
    { destruct x; try discriminate. reflexivity. }
    rewrite F64Facts.ltb_not_leb by assumption.
    apply negb_false_iff.
    specialize (Hall (if F64.is_nan x then F64.pos_inf else x)).
    rewrite Ex in Hall. apply Hall.
    apply in_map_iff. exists x. rewrite Ex. auto.
  - intros Hn x Hx. rewrite (no_nan_fill _ _ Hn) in Hall.
    unfold no_nan in Hn. rewrite forallb_forall in Hn.
    assert (Ev : F64.is_nan v = false).
    { apply negb_true_iff, Hn. eapply nth_error_In; eauto. }
    unfold fill_nan in Hall. rewrite Ev in Hall. auto.
  - intros Hn j x Hj Hx. rewrite (no_nan_fill _ _ Hn) in Hfirst.
    unfold no_nan in Hn. rewrite forallb_forall in Hn.
    assert (Ev : F64.is_nan v = false).
    { apply negb_true_iff, Hn. eapply nth_error_In; eauto. }
    assert (Ex : F64.is_nan x = false).
    { apply negb_true_iff, Hn. eapply nth_error_In; eauto. }
    unfold fill_nan in Hfirst. rewrite Ev in Hfirst.
    rewrite F64Facts.ltb_not_leb by assumption.
    rewrite (Hfirst j x Hj Hx). reflexivity.
Qed.

Lemma pick_row d name k p :
  well_formed d = true ->
  lookup_col name (cols d) = Some (FloatCol k) ->
  p < List.length k ->
  exists r v, row_at d p = Some r /\
    label_at (index d) p = Ok (label r) /\ loc d (label r) = Ok r /\
    nth_error k p = Some v /\ metric_value name r = Some v.
Proof.
  intros Hwf L Hp.
  pose proof (lookup_col_len d name _ Hwf L) as Hlen. simpl in Hlen.
  destruct (loc_row_at d p Hwf) as (r & Hr & Hl & Hloc); [lia|].
  destruct (nth_error k p) as [v|] eqn:Ev.
  2:{ apply nth_error_None in Ev. lia. }
  exists r, v. repeat split; auto.
  rewrite (row_at_metric d p r name k Hr L). exact Ev.
Qed.

Lemma max_then_min_ok d name k :
  well_formed d = true ->
  lookup_col name (cols d) = Some (FloatCol k) ->
  some_number k = true ->
  exists hi lo p q vhi vlo,
    max_then_min d name = Ok (hi, lo) /\
    min_then_max d name = Ok (lo, hi) /\
    row_at d p = Some hi /\ row_at d q = Some lo /\
    nth_error k p = Some vhi /\ nth_error k q = Some vlo /\
    metric_value name hi = Some vhi /\ metric_value name lo = Some vlo /\
    best_at F64.leb (map (fill_nan F64.neg_inf) k) p /\
    best_at (fun x y => F64.leb y x) (map (fill_nan F64.pos_inf) k) q.
Proof.
  intros Hwf L Hk.
  destruct (nanargmax_best k Hk) as (p & Hp & Bp).
  destruct (nanargmin_best k Hk) as (q & Hq & Bq).
  pose proof (best_at_lt _ _ _ Bp) as Lp. rewrite length_map in Lp.
  pose proof (best_at_lt _ _ _ Bq) as Lq. rewrite length_map in Lq.
  destruct (pick_row d name k p Hwf L Lp) as (hi & vhi & R1 & La1 & Lo1 & N1 & M1).
  destruct (pick_row d name k q Hwf L Lq) as (lo & vlo & R2 & La2 & Lo2 & N2 & M2).
  exists hi, lo, p, q, vhi, vlo.
  unfold max_then_min, min_then_max, float_series, getitem, idxmax, idxmin.
  rewrite L. simpl. rewrite Hp, Hq. simpl. rewrite La1, La2. simpl.
  rewrite Lo1, Lo2. simpl. repeat split; auto.
Qed.

(** ** Extremum selection on a frame *)

Lemma best_worst_on_frame (m : Metric) (sym : DataFrame) (k : list F64.float) :
  well_formed sym = true ->
  lookup_col (fst (resolve m)) (cols sym) = Some (FloatCol k) ->
  some_number k = true ->
  exists b w p q vb vw,
    best_worst sym (metric_label m)
      = Ok (b, w, fst (resolve m), snd (resolve m)) /\
    row_at sym p = Some b /\ row_at sym q = Some w /\
    nth_error k p = Some vb /\ nth_error k q = Some vw /\
    metric_value (fst (resolve m)) b = Some vb /\
    metric_value (fst (resolve m)) w = Some vw /\
    (forall x, In x k -> more_favourable (snd (resolve m)) x vb = false) /\
    (forall x, In x k -> more_favourable (snd (resolve m)) vw x = false) /\
    (no_nan k = true ->
     (forall x, In x k -> as_favourable (snd (resolve m)) vb x = true) /\
     (forall x, In x k -> as_favourable (snd (resolve m)) x vw = true) /\
     (forall j x, j < p -> nth_error k j = Some x ->
        more_favourable (snd (resolve m)) vb x = true) /\
     (forall j x, j < q -> nth_error k j = Some x ->
        more_favourable (snd (resolve m)) x vw = true)).
Proof.
  intros Hwf L Hk.
  destruct (max_then_min_ok sym _ k Hwf L Hk)
    as (hi & lo & p & q & vhi & vlo & E1 & E2 & R1 & R2 & N1 & N2 & M1 & M2 & B1 & B2).
  destruct (max_props k p vhi B1 N1) as (Hmax & Hmax' & Hmax'').
  destruct (min_props k q vlo B2 N2) as (Hmin & Hmin' & Hmin'').
  destruct m; simpl in *; unfold best_worst; simpl.
  - exists hi, lo, p, q, vhi, vlo. unfold pct_col in *. rewrite E1. simpl.
    repeat split; eauto.
  - exists lo, hi, q, p, vlo, vhi. unfold lat_col in *. rewrite E2. simpl.
    repeat split; eauto.
  - exists hi, lo, p, q, vhi, vlo. unfold vol_col in *. rewrite E1. simpl.
    repeat split; eauto.
Qed.

(** *** Columns that mix NaN and numbers *)

Lemma leb_neg_inf_only x : F64.leb x F64.neg_inf = true -> x = F64.neg_inf.
Proof.
  destruct x as [s|s| |s m e]; try destruct s; intros H;
    try discriminate H; reflexivity.
Qed.

Lemma leb_pos_inf_only x : F64.leb F64.pos_inf x = true -> x = F64.pos_inf.
Proof.
  destruct x as [s|s| |s m e]; try destruct s; intros H;
    try discriminate H; reflexivity.
Qed.

Lemma max_numbers k p v :
  best_at F64.leb (map (fill_nan F64.neg_inf) k) p -> nth_error k p = Some v ->
  (F64.is_nan v = false ->
   forall x, In x k -> F64.is_nan x = false -> F64.leb x v = true) /\
  (forall j x, j < p -> nth_error k j = Some x ->
     F64.is_nan x = true \/ F64.ltb x v = true) /\
  ((exists x, In x k /\ F64.is_nan x = false /\ x <> F64.neg_inf) ->
   F64.is_nan v = false).
Proof.
  intros (fv & Hfv & Hall & Hfirst) Hv.
  rewrite nth_error_map, Hv in Hfv. simpl in Hfv. injection Hfv as <-.
  assert (Hnum : forall x, In x k -> F64.is_nan x = false ->
                   F64.leb x (fill_nan F64.neg_inf v) = true).
  { intros x Hx Ex. apply Hall. apply in_map_iff. exists x.
    unfold fill_nan. rewrite Ex. auto. }
  split; [|split].
  - intros Ev x Hx Ex. specialize (Hnum x Hx Ex).
    unfold fill_nan in Hnum. rewrite Ev in Hnum. exact Hnum.
  - intros j x Hj Hx. destruct (F64.is_nan x) eqn:Ex; [left; reflexivity|].
    right. assert (Hf : F64.leb (fill_nan F64.neg_inf v) x = false).
    { apply (Hfirst j). exact Hj.
      rewrite nth_error_map, Hx. simpl. unfold fill_nan. rewrite Ex.
      reflexivity. }
    unfold fill_nan in Hf. destruct (F64.is_nan v) eqn:Ev.
    + rewrite F64Facts.leb_neg_inf in Hf by exact Ex. discriminate.
    + rewrite F64Facts.ltb_not_leb by assumption. rewrite Hf. reflexivity.
  - intros (x & Hx & Ex & Hne). destruct (F64.is_nan v) eqn:Ev; [|reflexivity].
    exfalso. apply Hne. apply leb_neg_inf_only.
    specialize (Hnum x Hx Ex). unfold fill_nan in Hnum. rewrite Ev in Hnum.
    exact Hnum.
Qed.

Lemma min_numbers k p v :
  best_at (fun x y => F64.leb y x) (map (fill_nan F64.pos_inf) k) p ->
  nth_error k p = Some v ->
  (F64.is_nan v = false ->
   forall x, In x k -> F64.is_nan x = false -> F64.leb v x = true) /\
  (forall j x, j < p -> nth_error k j = Some x ->
     F64.is_nan x = true \/ F64.ltb v x = true) /\
  ((exists x, In x k /\ F64.is_nan x = false /\ x <> F64.pos_inf) ->
   F64.is_nan v = false).
Proof.
  intros (fv & Hfv & Hall & Hfirst) Hv.
  rewrite nth_error_map, Hv in Hfv. simpl in Hfv. injection Hfv as <-.
  assert (Hnum : forall x, In x k -> F64.is_nan x = false ->
                   F64.leb (fill_nan F64.pos_inf v) x = true).
  { intros x Hx Ex. apply Hall. apply in_map_iff. exists x.
    unfold fill_nan. rewrite Ex. auto. }
  split; [|split].
  - intros Ev x Hx Ex. specialize (Hnum x Hx Ex).
    unfold fill_nan in Hnum. rewrite Ev in Hnum. exact Hnum.
  - intros j x Hj Hx. destruct (F64.is_nan x) eqn:Ex; [left; reflexivity|].
    right. assert (Hf : F64.leb x (fill_nan F64.pos_inf v) = false).
    { apply (Hfirst j). exact Hj.
      rewrite nth_error_map, Hx. simpl. unfold fill_nan. rewrite Ex.
      reflexivity. }
    unfold fill_nan in Hf. destruct (F64.is_nan v) eqn:Ev.
    + rewrite F64Facts.leb_pos_inf in Hf by exact Ex. discriminate.
    + rewrite F64Facts.ltb_not_leb by assumption. rewrite Hf. reflexivity.
  - intros (x & Hx & Ex & Hne). destruct (F64.is_nan v) eqn:Ev; [|reflexivity].
    exfalso. apply Hne. apply leb_pos_inf_only.
    specialize (Hnum x Hx Ex). unfold fill_nan in Hnum. rewrite Ev in Hnum.
    exact Hnum.
Qed.

(** Extremum selection on a column that holds a number, NaN or not
    elsewhere. *)
Lemma best_worst_among_numbers (m : Metric) (sym : DataFrame)
  (k : list F64.float) :
  well_formed sym = true ->
  lookup_col (fst (resolve m)) (cols sym) = Some (FloatCol k) ->
  some_number k = true ->
  exists b w p q vb vw,
    best_worst sym (metric_label m)
      = Ok (b, w, fst (resolve m), snd (resolve m)) /\
    row_at sym p = Some b /\ row_at sym q = Some w /\
    nth_error k p = Some vb /\ nth_error k q = Some vw /\
    metric_value (fst (resolve m)) b = Some vb /\
    metric_value (fst (resolve m)) w = Some vw /\
    (forall x, In x k -> more_favourable (snd (resolve m)) x vb = false) /\
    (forall x, In x k -> more_favourable (snd (resolve m)) vw x = false) /\
    (F64.is_nan vb = false ->
     forall x, In x k -> F64.is_nan x = false ->
       as_favourable (snd (resolve m)) vb x = true) /\
    (F64.is_nan vw = false ->
     forall x, In x k -> F64.is_nan x = false ->
       as_favourable (snd (resolve m)) x vw = true) /\
    (forall j x, j < p -> nth_error k j = Some x ->
       F64.is_nan x = true \/ more_favourable (snd (resolve m)) vb x = true) /\
    (forall j x, j < q -> nth_error k j = Some x ->
       F64.is_nan x = true \/ more_favourable (snd (resolve m)) x vw = true) /\
    ((exists x, In x k /\ F64.is_nan x = false /\
                x <> least_favourable (snd (resolve m))) ->
     F64.is_nan vb = false) /\
    ((exists x, In x k /\ F64.is_nan x = false /\
                x <> most_favourable (snd (resolve m))) ->
     F64.is_nan vw = false).
Proof.
  intros Hwf L Hk.
  destruct (max_then_min_ok sym _ k Hwf L Hk)
    as (hi & lo & p & q & vhi & vlo & E1 & E2 & R1 & R2 & N1 & N2 & M1 & M2 & B1 & B2).
  destruct (max_props k p vhi B1 N1) as (Hmax & _ & _).
  destruct (min_props k q vlo B2 N2) as (Hmin & _ & _).
  destruct (max_numbers k p vhi B1 N1) as (A1 & A2 & A3).
  destruct (min_numbers k q vlo B2 N2) as (C1 & C2 & C3).
  destruct m; simpl in *; unfold best_worst; simpl.
  - exists hi, lo, p, q, vhi, vlo. unfold pct_col in *. rewrite E1. simpl.
    repeat split; eauto.
  - exists lo, hi, q, p, vlo, vhi. unfold lat_col in *. rewrite E2. simpl.
    repeat split; eauto.
  - exists hi, lo, p, q, vhi, vlo. unfold vol_col in *. rewrite E1. simpl.
    repeat split; eauto.
Qed.

(** ** Well-formed frames along the script *)

Lemma distinct_seq a n : distinct (seq a n) = true.
Proof.
  apply distinct_NoDup, seq_NoDup.
Qed.

Lemma read_table_well_formed t :
  rectangular t = true -> well_formed (read_table t) = true.
Proof.
  unfold well_formed, read_table, nrows. simpl. intros H.
  rewrite distinct_seq, length_seq. simpl.
  destruct t as [|[n d] t]; auto.
  unfold rectangular in H. rewrite forallb_forall in *.
  intros [n' c] Hin. apply in_map_iff in Hin.
  destruct Hin as [[n'' d'] [E Hin]]. simpl in E. injection E as <- <-.
  apply H in Hin. simpl in *. exact Hin.
Qed.

Lemma assign_col_lengths n name c cs :
  forallb (fun nc => Nat.eqb (col_len (snd nc)) n) cs = true ->
  col_len c = n ->
  forallb (fun nc => Nat.eqb (col_len (snd nc)) n) (assign_col name c cs) = true.
Proof.
  intros H Hc. induction cs as [|[m c0] cs IH]; simpl in *.
  - rewrite Hc, Nat.eqb_refl. reflexivity.
  - apply andb_prop in H. destruct H as [H0 H].
    destruct (String.eqb name m); simpl.
    + rewrite Hc, Nat.eqb_refl, H. reflexivity.
    + rewrite H0, (IH H). reflexivity.
Qed.

Lemma setitem_well_formed d name c :
  well_formed d = true -> col_len c = nrows d ->
  well_formed (setitem d name c) = true.
Proof.
  unfold well_formed, nrows. simpl. intros H Hc.
  apply andb_prop in H. destruct H as [H1 H2].
  rewrite H1. simpl. apply assign_col_lengths; auto.
Qed.

Lemma to_numeric_length strip c v :
  to_numeric strip c = Ok v -> List.length v = col_len c.
Proof.
  destruct c as [d|d]; simpl; intros H.
  - apply astype_float_length in H. rewrite !length_map in H. exact H.
  - injection H as ->. reflexivity.
Qed.

Lemma normalise_well_formed d d' :
  well_formed d = true -> normalise d = Ok d' -> well_formed d' = true.
Proof.
  intros Hwf H. apply normalise_ok in H.
  destruct H as (c1 & v1 & c2 & v2 & c3 & v3 & L1 & N1 & L2 & N2 & L3 & N3 & ->).
  apply to_numeric_length in N1, N2, N3.
  rewrite (lookup_col_len d _ _ Hwf L1) in N1.
  rewrite (lookup_col_len d _ _ Hwf L2) in N2.
  rewrite (lookup_col_len d _ _ Hwf L3) in N3.
  repeat apply setitem_well_formed; auto.
Qed.

Lemma select_In {A} mask (l : list A) x : In x (select mask l) -> In x l.
Proof.
  revert l. induction mask as [|b mask IH]; intros [|y l]; simpl; try tauto.
  destruct b; simpl; intros H.
  - destruct H; auto.
  - auto.
Qed.

Lemma select_distinct mask l : distinct l = true -> distinct (select mask l) = true.
Proof.
  rewrite !distinct_NoDup. revert l.
  induction mask as [|b mask IH]; intros [|y l] H; simpl; try constructor.
  inversion H; subst. destruct b; auto.
  constructor; auto. intros Hin. apply select_In in Hin. contradiction.
Qed.

Lemma select_length {A B} mask (l : list A) (l' : list B) :
  List.length l = List.length mask -> List.length l' = List.length mask ->
  List.length (select mask l) = List.length (select mask l').
Proof.
  revert l l'. induction mask as [|b mask IH]; intros [|x l] [|y l'] H1 H2;
    simpl in *; try discriminate; auto.
  destruct b; simpl; auto.
Qed.

Lemma col_select_len mask c : col_len (col_select mask c) =
  match c with ObjCol d => List.length (select mask d)
             | FloatCol d => List.length (select mask d) end.
Proof. destruct c; reflexivity. Qed.

Lemma filter_rows_well_formed d mask :
  well_formed d = true -> List.length mask = nrows d ->
  well_formed (filter_rows d mask) = true.
Proof.
  unfold well_formed, nrows. simpl. intros H Hm.
  apply andb_prop in H. destruct H as [H1 H2].
  rewrite (select_distinct _ _ H1). simpl.
  rewrite forallb_forall in *. intros [n c] Hin.
  apply in_map_iff in Hin. destruct Hin as [[n' c'] [E Hin]].
  simpl in E. injection E as <- <-. simpl.
  apply H2 in Hin. simpl in Hin. apply Nat.eqb_eq in Hin. apply Nat.eqb_eq.
  destruct c'; simpl in *; apply select_length; lia.
Qed.

Lemma eq_mask_length c sel : List.length (eq_mask c sel) = col_len c.
Proof. destruct c; simpl; apply length_map. Qed.

Lemma lookup_filter_rows d mask name :
  lookup_col name (cols (filter_rows d mask)) =
  option_map (col_select mask) (lookup_col name (cols d)).
Proof.
  simpl. induction (cols d) as [|[n c] cs IH]; simpl; auto.
  destruct (String.eqb name n); auto.
Qed.

Lemma symbol_rows_ok d sel sym :
  symbol_rows d sel = Ok sym ->
  exists c, lookup_col "Core Symbol" (cols d) = Some c /\
    sym = filter_rows d (eq_mask c sel).
Proof.
  unfold symbol_rows, getitem.
  destruct (lookup_col "Core Symbol" (cols d)) as [c|] eqn:L; simpl; [|discriminate].
  intros H. injection H as <-. eauto.
Qed.

Lemma symbol_rows_well_formed d sel sym :
  well_formed d = true -> symbol_rows d sel = Ok sym ->
  well_formed sym = true.
Proof.
  intros Hwf H. apply symbol_rows_ok in H. destruct H as (c & L & ->).
  apply filter_rows_well_formed; auto.
  rewrite eq_mask_length. eapply lookup_col_len; eauto.
Qed.

(** The symbol subset of a normalised upload is well formed and its
    three derived columns are float64. *)
Lemma subset_shape t d sel sym :
  rectangular t = true ->
  normalise (read_table t) = Ok d -> symbol_rows d sel = Ok sym ->
  well_formed sym = true /\
  forall m, exists k, lookup_col (fst (resolve m)) (cols sym) = Some (FloatCol k).
Proof.
  intros Hr Hn Hs. split.
  - eapply symbol_rows_well_formed; eauto.
    eapply normalise_well_formed; eauto. apply read_table_well_formed; auto.
  - apply normalise_derived in Hn.
    destruct Hn as (c1 & v1 & c2 & v2 & c3 & v3 & _ & _ & _ & _ & _ & _ & D1 & D2 & D3).
    apply symbol_rows_ok in Hs. destruct Hs as (c & L & ->).
    intros m. rewrite lookup_filter_rows.
    destruct m; simpl; [rewrite D1 | rewrite D2 | rewrite D3]; simpl; eauto.
Qed.

(** ** Extremum selection (C1) *)

(** C1 (as amended).  On the symbol subset of a normalised upload
    whose metric column holds at least one number, the selector
    returns a best and a worst row of the subset together with the
    metric's canonical column and direction.  NaN values are passed
    over: no value of the column is strictly more favourable than the
    best row's, none strictly less favourable than the worst row's;
    when the best row's value is a number it is at least as
    favourable as every number of the column, and it is a number as
    soon as the column holds a number other than the least favourable
    infinity; the same holds of the worst row with the directions
    exchanged. *)
Theorem extremum_selector_spec
  (t : RawTable) (sel : cell) (m : Metric) (d sym : DataFrame)
  (k : list F64.float) :
  rectangular t = true ->
  normalise (read_table t) = Ok d ->
  symbol_rows d sel = Ok sym ->
  lookup_col (fst (resolve m)) (cols sym) = Some (FloatCol k) ->
  some_number k = true ->
  exists b w vb vw,
    best_worst sym (metric_label m)
      = Ok (b, w, fst (resolve m), snd (resolve m)) /\
    (exists p, row_at sym p = Some b /\ nth_error k p = Some vb) /\
    (exists q, row_at sym q = Some w /\ nth_error k q = Some vw) /\
    metric_value (fst (resolve m)) b = Some vb /\
    metric_value (fst (resolve m)) w = Some vw /\
    (forall x, In x k -> more_favourable (snd (resolve m)) x vb = false) /\
    (forall x, In x k -> more_favourable (snd (resolve m)) vw x = false) /\
    (F64.is_nan vb = false ->
     forall x, In x k -> F64.is_nan x = false ->
       as_favourable (snd (resolve m)) vb x = true) /\
    (F64.is_nan vw = false ->
     forall x, In x k -> F64.is_nan x = false ->
       as_favourable (snd (resolve m)) x vw = true) /\
    ((exists x, In x k /\ F64.is_nan x = false /\
                x <> least_favourable (snd (resolve m))) ->
     F64.is_nan vb = false) /\
    ((exists x, In x k /\ F64.is_nan x = false /\
                x <> most_favourable (snd (resolve m))) ->
     F64.is_nan vw = false).
Proof.
  intros Hr Hn Hs L Hk.
  destruct (subset_shape t d sel sym Hr Hn Hs) as [Hwf _].
  destruct (best_worst_among_numbers m sym k Hwf L Hk)
    as (b & w & p & q & vb & vw & E & R1 & R2 & N1 & N2 & M1 & M2
        & H1 & H2 & H3 & H4 & _ & _ & H5 & H6).
  exists b, w, vb, vw. repeat split; eauto.
Qed.

Lemma extremum_selector_spec_witness :
  exists b w vb vw,
    best_worst (subset_of gaps (Text "EURUSD")) (metric_label FilledPercent)
      = Ok (b, w, fst (resolve FilledPercent), snd (resolve FilledPercent)) /\
    (exists p, row_at (subset_of gaps (Text "EURUSD")) p = Some b /\
               nth_error gaps_percentages p = Some vb) /\
    (exists q, row_at (subset_of gaps (Text "EURUSD")) q = Some w /\
               nth_error gaps_percentages q = Some vw) /\
    metric_value (fst (resolve FilledPercent)) b = Some vb /\
    metric_value (fst (resolve FilledPercent)) w = Some vw /\
    (forall x, In x gaps_percentages ->
       more_favourable (snd (resolve FilledPercent)) x vb = false) /\
    (forall x, In x gaps_percentages ->
       more_favourable (snd (resolve FilledPercent)) vw x = false) /\
    (F64.is_nan vb = false ->
     forall x, In x gaps_percentages -> F64.is_nan x = false ->
       as_favourable (snd (resolve FilledPercent)) vb x = true) /\
    (F64.is_nan vw = false ->
     forall x, In x gaps_percentages -> F64.is_nan x = false ->
       as_favourable (snd (resolve FilledPercent)) x vw = true) /\
    ((exists x, In x gaps_percentages /\ F64.is_nan x = false /\
                x <> least_favourable (snd (resolve FilledPercent))) ->
     F64.is_nan vb = false) /\
    ((exists x, In x gaps_percentages /\ F64.is_nan x = false /\
                x <> most_favourable (snd (resolve FilledPercent))) ->
     F64.is_nan vw = false).
Proof.
  apply (extremum_selector_spec gaps (Text "EURUSD") FilledPercent
           (the_frame (normalise (read_table gaps)))
           (subset_of gaps (Text "EURUSD")) gaps_percentages);
    vm_compute; reflexivity.
Defined.

(** Among blank percentages the best row is the one with 70 and the
    worst the one with 50. *)
Example gaps_best_and_worst :
  exists b w,
    best_worst (subset_of gaps (Text "EURUSD")) "% Filled Volume"
      = Ok (b, w, "Filled_Vol_Pct", true) /\
    stream_name b = Some (SCell (Text "LP_D")) /\
    stream_name w = Some (SCell (Text "LP_B")) /\
    label b = 3 /\ label w = 1.
Proof. eexists. eexists. split; [vm_compute; reflexivity|]. repeat split. Qed.

(** When the only number of the column is the least favourable
    infinity and a blank comes first, the blank row is returned as
    best. *)
Example blank_before_minus_infinity :
  exists b w,
    best_worst (subset_of blank_then_minus_infinity (Text "EURUSD"))
      "% Filled Volume" = Ok (b, w, "Filled_Vol_Pct", true) /\
    stream_name b = Some (SCell (Text "LP_A")) /\
    metric_value "Filled_Vol_Pct" b = Some S754_nan /\
    stream_name w = Some (SCell (Text "LP_B")) /\
    metric_value "Filled_Vol_Pct" w = Some F64.neg_inf.
Proof. eexists. eexists. split; [vm_compute; reflexivity|]. repeat split. Qed.

(** C1 as stated fails: a subset of two rows whose fill percentages
    are blank has no best and no worst row; the selector raises. *)
Lemma extremum_selector_all_nan :
  exists d sym,
    normalise (read_table blank_percent) = Ok d /\
    symbol_rows d (Text "EURUSD") = Ok sym /\
    nrows sym = 2 /\
    lookup_col pct_col (cols sym) = Some (FloatCol [S754_nan; S754_nan]) /\
    best_worst sym (metric_label FilledPercent) = Raise AllNA /\
    forall x, best_worst sym (metric_label FilledPercent) <> Ok x.
Proof.
  eexists. eexists. split; [vm_compute; reflexivity|].
  split; [vm_compute; reflexivity|].
  split; [reflexivity|]. split; [reflexivity|].
  split; [vm_compute; reflexivity|].
  intros x. vm_compute. discriminate.
Qed.

(** ** Ties (C3) *)

Lemma no_nan_perm k k' : Permutation k k' -> no_nan k = true -> no_nan k' = true.
Proof.
  unfold no_nan. intros P H. rewrite forallb_forall in *.
  intros x Hx. apply H. eapply Permutation_in; [symmetry|]; eauto.
Qed.

Lemma no_nan_some_number k : k <> [] -> no_nan k = true -> some_number k = true.
Proof.
  destruct k as [|x k]; [congruence|]. unfold no_nan, some_number. simpl.
  intros _ H. apply andb_prop in H. destruct H as [-> _]. reflexivity.
Qed.

Lemma as_favourable_both h x y :
  as_favourable h x y = true -> as_favourable h y x = true -> F64.eqb x y = true.
Proof.
  unfold as_favourable. rewrite F64Facts.eqb_leb.
  destruct h; intros -> ->; reflexivity.
Qed.




(** Where the only number is the least favourable infinity the best
    values of two permuted inputs need not be equal: NaN when the
    blank comes first, minus infinity when it comes last. *)
Example blank_and_minus_infinity_permuted :
  exists b w b' w',
    best_worst (subset_of blank_then_minus_infinity (Text "EURUSD"))
      "% Filled Volume" = Ok (b, w, "Filled_Vol_Pct", true) /\
    best_worst (subset_of minus_infinity_then_blank (Text "EURUSD"))
      "% Filled Volume" = Ok (b', w', "Filled_Vol_Pct", true) /\
    metric_value "Filled_Vol_Pct" b = Some S754_nan /\
    metric_value "Filled_Vol_Pct" b' = Some F64.neg_inf /\
    F64.eqb S754_nan F64.neg_inf = false.
Proof.
  eexists. eexists. eexists. eexists.
  split; [vm_compute; reflexivity|]. split; [vm_compute; reflexivity|].
  repeat split.
Qed.


(** ** Schema validation (C7) *)

Lemma columns_read_table t : columns (read_table t) = map fst t.
Proof.
  unfold columns, read_table. simpl. rewrite map_map. reflexivity.
Qed.

Lemma run_stopped_only t sel metric o :
  missing_columns (read_table t) <> [] ->
  run t sel metric o -> o = Stopped (missing_columns (read_table t)).
Proof.
  intros Hm H. inversion H; subst; auto; contradiction.
Qed.

Lemma run_not_stopped t sel metric o :
  missing_columns (read_table t) = [] ->
  run t sel metric o -> forall l, o <> Stopped l.
Proof.
  intros Hm H l. inversion H; subst; try discriminate. congruence.
Qed.

(** C7.  The validator returns those of the five required names
    ([Core Symbol], [Maker Stream Name], [% Filled Volume],
    [Avg. Fill Latency], [Total Filled Volume]) that are not column
    names of the table, compared as exact texts and in this order.  With an empty result the script never stops on
    the schema; with a non-empty one its only outcome is the stop that
    lists the missing names, before any cell is converted.  A table
    that lacks only the latency column yields exactly that name. *)
Theorem schema_validator_spec (t : RawTable) (sel : cell) (metric : string) :
  missing_columns (read_table t)
    = filter (fun c => negb (existsb (String.eqb c) (map fst t)))
        [ "Core Symbol"; "Maker Stream Name"; "% Filled Volume";
          "Avg. Fill Latency"; "Total Filled Volume" ] /\
  (forall c, In c (missing_columns (read_table t)) <->
             In c [ "Core Symbol"; "Maker Stream Name"; "% Filled Volume";
          "Avg. Fill Latency"; "Total Filled Volume" ] /\
             ~ In c (map fst t)) /\
  (missing_columns (read_table t) = [] ->
   forall o, run t sel metric o -> forall l, o <> Stopped l) /\
  (missing_columns (read_table t) <> [] ->
   forall o, run t sel metric o <->
             o = Stopped (missing_columns (read_table t))) /\
  missing_columns (read_table no_latency) = ["Avg. Fill Latency"] /\
  run no_latency sel metric (Stopped ["Avg. Fill Latency"]) /\
  missing_columns (read_table other_spelling)
    = ["Core Symbol"; "Maker Stream Name"].
Proof.
  assert (E : missing_columns (read_table t)
    = filter (fun c => negb (existsb (String.eqb c) (map fst t)))
        [ "Core Symbol"; "Maker Stream Name"; "% Filled Volume";
          "Avg. Fill Latency"; "Total Filled Volume" ]).
  { unfold missing_columns, has_column. rewrite columns_read_table. reflexivity. }
  split; [exact E|]. split.
  { intros c. rewrite E, filter_In, negb_true_iff. split.
    - intros [Hc Hn]. split; auto. intros Hin.
      assert (existsb (String.eqb c) (map fst t) = true); [|congruence].
      apply existsb_exists. exists c. split; auto. apply String.eqb_refl.
    - intros [Hc Hn]. split; auto.
      destruct (existsb (String.eqb c) (map fst t)) eqn:Ex; auto.
      apply existsb_exists in Ex. destruct Ex as [x [Hx Ex]].
      apply String.eqb_eq in Ex. subst. contradiction. }
  split.
  { intros Hm o Ho. eapply run_not_stopped; eauto. }
  split.
  { intros Hm o. split.
    - apply run_stopped_only; auto.
    - intros ->. apply run_stopped. exact Hm. }
  split; [reflexivity|]. split; [|reflexivity].
  apply (run_stopped no_latency sel metric). vm_compute. discriminate.
Qed.

Lemma schema_validator_spec_witness :
  missing_columns (read_table no_latency) <> [] /\
  (forall o, run no_latency (Text "EURUSD") "% Filled Volume" o <->
             o = Stopped (missing_columns (read_table no_latency))) /\
  missing_columns (read_table scenario) = [] /\
  (forall o, run scenario (Text "EURUSD") "% Filled Volume" o ->
             forall l, o <> Stopped l).
Proof.
  split; [vm_compute; discriminate|]. split.
  - apply (schema_validator_spec no_latency (Text "EURUSD") "% Filled Volume").
    vm_compute. discriminate.
  - split; [reflexivity|].
    apply (schema_validator_spec scenario (Text "EURUSD") "% Filled Volume").
    reflexivity.
Defined.

(** ** Stripping (C5) *)

Lemma chars_of_list l : chars (string_of_list_ascii l) = l.
Proof. apply list_ascii_of_string_of_list_ascii. Qed.

Lemma replace_char_filter x l :
  replace_from [x] [] 0 l = filter (not_char x) l.
Proof.
  induction l as [|c l IH]; simpl; auto.
  unfold not_char at 1. rewrite (Ascii.eqb_sym c x), andb_true_r.
  destruct (Ascii.eqb x c); simpl; rewrite IH; reflexivity.
Qed.

Lemma strip_pct_chars s : chars (strip_pct s) = filter (not_char "%") (chars s).
Proof.
  unfold strip_pct, str_replace. rewrite chars_of_list. simpl.
  apply replace_char_filter.
Qed.

Lemma strip_vol_chars s :
  chars (strip_vol s) =
  filter (fun a => not_char "$" a && not_char "," a) (chars s).
Proof.
  unfold strip_vol, str_replace. rewrite !chars_of_list. simpl.
  rewrite !replace_char_filter.
  induction (chars s) as [|c l IH]; simpl; auto.
  destruct (not_char "$" c); simpl; [|exact IH].
  destruct (not_char "," c); simpl; rewrite IH; reflexivity.
Qed.

Lemma starts_with_prefix p s :
  starts_with p s = true <-> exists rest, s = p ++ rest.
Proof.
  revert s. induction p as [|a p IH]; intros s; simpl.
  - split; eauto.
  - destruct s as [|b s].
    + split; [discriminate|]. intros [rest H]. discriminate.
    + rewrite andb_true_iff, Ascii.eqb_eq, IH. split.
      * intros [<- [rest ->]]. eauto.
      * intros [rest H]. injection H as <- ->. eauto.
Qed.

Lemma replace_from_skip a old new c l :
  Ascii.eqb a c = false ->
  replace_from (a :: old) new 0 (c :: l) = c :: replace_from (a :: old) new 0 l.
Proof.
  intros H. cbn [replace_from starts_with]. rewrite H. reflexivity.
Qed.

Lemma starts_ms l :
  starts_with ["m"; "s"]%char l = true <-> exists v, l = "m"%char :: "s"%char :: v.
Proof. rewrite starts_with_prefix. reflexivity. Qed.

Lemma occurs_cons sub c l : occurs sub l -> occurs sub (c :: l).
Proof. intros (u & v & ->). exists (c :: u), v. reflexivity. Qed.

(** From the left, up to and including the first occurrence. *)
Lemma replace_ms_first x y :
  ~ occurs ["m"; "s"]%char (x ++ ["m"%char]) ->
  replace_from ["m"; "s"]%char [] 0 (x ++ "m" :: "s" :: y)%char
  = x ++ replace_from ["m"; "s"]%char [] 0 y.
Proof.
  induction x as [|c x IH]; intros H.
  - cbn [app replace_from starts_with]. rewrite !Ascii.eqb_refl.
    cbn [andb app List.length Nat.pred replace_from]. reflexivity.
  - cbn [app replace_from].
    destruct (starts_with ["m"; "s"]%char (c :: x ++ "m" :: "s" :: y)%char)
      eqn:E.
    + exfalso. apply starts_ms in E. destruct E as [v E].
      injection E as -> E. apply H.
      destruct x as [|d x]; cbn [app] in E; injection E as E _.
      * discriminate E.
      * subst d. exists [], (x ++ ["m"%char]). reflexivity.
    + f_equal. apply IH. intros Ho. apply H. apply occurs_cons. exact Ho.
Qed.

Lemma replace_ms_absent l :
  ~ occurs ["m"; "s"]%char l ->
  replace_from ["m"; "s"]%char [] 0 l = l.
Proof.
  induction l as [|c l IH]; intros H; [reflexivity|].
  cbn [replace_from].
  destruct (starts_with ["m"; "s"]%char (c :: l)) eqn:E.
  - exfalso. apply starts_ms in E. destruct E as [v E].
    apply H. exists [], v. exact E.
  - f_equal. apply IH. intros Ho. apply H. apply occurs_cons. exact Ho.
Qed.

Lemma strip_ms_first s x y :
  chars s = x ++ "m"%char :: "s"%char :: y ->
  ~ occurs ["m"; "s"]%char (x ++ ["m"%char]) ->
  chars (strip_ms s) = x ++ chars (strip_ms (string_of_list_ascii y)).
Proof.
  intros E H. unfold strip_ms, str_replace. rewrite !chars_of_list. simpl.
  rewrite E. apply replace_ms_first. exact H.
Qed.

Lemma strip_ms_absent s :
  ~ occurs ["m"; "s"]%char (chars s) -> strip_ms s = s.
Proof.
  intros H. unfold strip_ms, str_replace. simpl.
  rewrite replace_ms_absent by exact H.
  apply string_of_list_ascii_of_string.
Qed.

Lemma to_numeric_obj strip cells v :
  to_numeric strip (ObjCol cells) = Ok v <->
  Forall2 (fun c x => PyFloat.float_of_string (strip (astype_str c)) = Some x)
    cells v.
Proof.
  simpl. rewrite astype_float_ok. rewrite map_map.
  split; intros H.
  - remember (map (fun c => strip (astype_str c)) cells) as l eqn:El.
    revert cells El. induction H; intros [|c cells] El; simpl in *;
      try discriminate; constructor.
    + injection El as -> _. assumption.
    + injection El as _ ->. apply IHForall2. reflexivity.
  - induction H; simpl; constructor; auto.
Qed.

Lemma lookup_read_table t name c :
  lookup_col name (cols (read_table t)) = Some c ->
  exists cells, c = ObjCol cells /\ In (name, cells) t.
Proof.
  simpl. induction t as [|[n d] t IH]; simpl; [discriminate|].
  destruct (String.eqb name n) eqn:E.
  - apply String.eqb_eq in E. subst. intros H. injection H as <-. eauto.
  - intros H. destruct (IH H) as (cells & -> & Hin). eauto.
Qed.

Lemma reads_as_text strip c x :
  PyFloat.float_of_string (strip "nan") = Some S754_nan ->
  (PyFloat.float_of_string (strip (astype_str c)) = Some x <->
   reads_as strip c x).
Proof.
  intros Hnan. destruct c as [s|]; simpl; [reflexivity|].
  rewrite Hnan. split;
    [intros E; injection E as <-; reflexivity | intros ->; reflexivity].
Qed.

Lemma to_numeric_reads strip cells v :
  PyFloat.float_of_string (strip "nan") = Some S754_nan ->
  (to_numeric strip (ObjCol cells) = Ok v <-> Forall2 (reads_as strip) cells v).
Proof.
  intros Hnan. rewrite to_numeric_obj.
  split; intros H; induction H; constructor; auto;
    apply (reads_as_text strip _ _ Hnan); assumption.
Qed.

(** C5.  After a successful normalisation each derived column holds,
    row by row, [float] of the source cell's own text with its
    decoration removed, and NaN for a blank cell.  The decoration is
    every [%] for the percentage, every [$] and [,] for the volume, and
    for the latency the occurrences of [ms] found from the left: a
    text without [ms] is left as it is, and the text up to the first
    occurrence is kept and the rest treated in the same way.  A row
    holding ['87.3%'], ['142.5ms'] and ['$12,345.67'] gets the floats
    nearest to 87.3, 142.5 and 12345.67. *)
Theorem normaliser_cell_rules (t : RawTable) (d : DataFrame) :
  normalise (read_table t) = Ok d ->
  (exists c1 c2 c3 v1 v2 v3,
     lookup_col "% Filled Volume" (cols (read_table t)) = Some (ObjCol c1) /\
     lookup_col "Avg. Fill Latency" (cols (read_table t)) = Some (ObjCol c2) /\
     lookup_col "Total Filled Volume" (cols (read_table t)) = Some (ObjCol c3) /\
     lookup_col "Filled_Vol_Pct" (cols d) = Some (FloatCol v1) /\
     lookup_col "Avg_Latency_ms" (cols d) = Some (FloatCol v2) /\
     lookup_col "Total_Filled_Vol" (cols d) = Some (FloatCol v3) /\
     Forall2 (reads_as strip_pct) c1 v1 /\
     Forall2 (reads_as strip_ms) c2 v2 /\
     Forall2 (reads_as strip_vol) c3 v3) /\
  (forall s, chars (strip_pct s) = filter (not_char "%") (chars s)) /\
  (forall s, ~ occurs ["m"; "s"]%char (chars s) -> strip_ms s = s) /\
  (forall s x y,
     chars s = x ++ "m"%char :: "s"%char :: y ->
     ~ occurs ["m"; "s"]%char (x ++ ["m"%char]) ->
     chars (strip_ms s) = x ++ chars (strip_ms (string_of_list_ascii y))) /\
  (forall s, chars (strip_vol s)
     = filter (fun a => not_char "$" a && not_char "," a) (chars s)) /\
  (exists d0 x1 x2 x3,
     normalise (read_table display_formats) = Ok d0 /\
     lookup_col "Filled_Vol_Pct" (cols d0) = Some (FloatCol [x1]) /\
     lookup_col "Avg_Latency_ms" (cols d0) = Some (FloatCol [x2]) /\
     lookup_col "Total_Filled_Vol" (cols d0) = Some (FloatCol [x3]) /\
     x1 = S754_finite false 6143191366710067 (-46) /\
     x2 = S754_finite false 5013773022658560 (-45) /\
     x3 = S754_finite false 6787103858842665 (-39) /\
     nearest_to x1 873 10 = true /\
     nearest_to x2 1425 10 = true /\
     nearest_to x3 1234567 100 = true).
Proof.
  intros H. split.
  { apply normalise_derived in H.
    destruct H as (c1 & v1 & c2 & v2 & c3 & v3 & L1 & N1 & L2 & N2 & L3 & N3 & D1 & D2 & D3).
    destruct (lookup_read_table _ _ _ L1) as (x1 & -> & _).
    destruct (lookup_read_table _ _ _ L2) as (x2 & -> & _).
    destruct (lookup_read_table _ _ _ L3) as (x3 & -> & _).
    exists x1, x2, x3, v1, v2, v3.
    repeat split; auto; apply to_numeric_reads; auto; reflexivity. }
  split; [apply strip_pct_chars|].
  split; [apply strip_ms_absent|].
  split; [apply strip_ms_first|].
  split; [apply strip_vol_chars|].
  eexists. eexists. eexists. eexists.
  split; [vm_compute; reflexivity|]. repeat split.
Qed.

Lemma normaliser_cell_rules_witness :
  normalise (read_table mixed_cells) = Ok mixed_cells_df /\
  exists c1 c2 c3 v1 v2 v3,
    lookup_col "% Filled Volume" (cols (read_table mixed_cells))
      = Some (ObjCol c1) /\
    lookup_col "Avg. Fill Latency" (cols (read_table mixed_cells))
      = Some (ObjCol c2) /\
    lookup_col "Total Filled Volume" (cols (read_table mixed_cells))
      = Some (ObjCol c3) /\
    lookup_col "Filled_Vol_Pct" (cols mixed_cells_df)
      = Some (FloatCol v1) /\
    lookup_col "Avg_Latency_ms" (cols mixed_cells_df)
      = Some (FloatCol v2) /\
    lookup_col "Total_Filled_Vol" (cols mixed_cells_df)
      = Some (FloatCol v3) /\
    Forall2 (reads_as strip_pct) c1 v1 /\
    Forall2 (reads_as strip_ms) c2 v2 /\
    Forall2 (reads_as strip_vol) c3 v3.
Proof.
  split; [vm_compute; reflexivity|].
  apply (normaliser_cell_rules mixed_cells
           mixed_cells_df).
  vm_compute. reflexivity.
Defined.

(** ** Conversion failures (C2, C6) *)

Lemma missing_nil_lookup d c :
  missing_columns d = [] -> In c required_columns ->
  exists col, lookup_col c (cols d) = Some col.
Proof.
  unfold missing_columns. intros H Hc.
  apply lookup_col_In. apply has_column_In.
  destruct (has_column c d) eqn:E; auto.
  assert (Hin : In c (filter (fun c => negb (has_column c d)) required_columns)).
  { apply filter_In. rewrite E. auto. }
  rewrite H in Hin. destruct Hin.
Qed.

Lemma sources_present t :
  missing_columns (read_table t) = [] ->
  exists c1 c2 c3,
    lookup_col pct_src (cols (read_table t)) = Some (ObjCol c1) /\
    lookup_col lat_src (cols (read_table t)) = Some (ObjCol c2) /\
    lookup_col vol_src (cols (read_table t)) = Some (ObjCol c3).
Proof.
  intros H.
  destruct (missing_nil_lookup _ pct_src H) as [x1 L1]; [simpl; tauto|].
  destruct (missing_nil_lookup _ lat_src H) as [x2 L2]; [simpl; tauto|].
  destruct (missing_nil_lookup _ vol_src H) as [x3 L3]; [simpl; tauto|].
  destruct (lookup_read_table _ _ _ L1) as (c1 & -> & _).
  destruct (lookup_read_table _ _ _ L2) as (c2 & -> & _).
  destruct (lookup_read_table _ _ _ L3) as (c3 & -> & _).
  exists c1, c2, c3. auto.
Qed.

Lemma to_numeric_obj_raise strip cells e :
  to_numeric strip (ObjCol cells) = Raise e ->
  exists text, e = ValueError_float text /\ first_rejected strip cells text.
Proof.
  simpl. rewrite map_map. intros H. apply astype_float_raise in H.
  destruct H as (pre & s & post & E & -> & Hn & Hpre).
  exists s. split; auto.
  apply map_eq_app in E. destruct E as (pre' & rest & -> & <- & E).
  apply map_eq_cons in E. destruct E as (c & post' & -> & <- & _).
  exists pre', c, post'. repeat split; auto.
  rewrite Forall_map in Hpre. exact Hpre.
Qed.

Lemma to_numeric_obj_all strip cells v :
  to_numeric strip (ObjCol cells) = Ok v -> Forall (accepted strip) cells.
Proof.
  intros H. apply to_numeric_obj in H.
  induction H; constructor; auto. unfold accepted. congruence.
Qed.

Lemma first_rejected_not_all strip cells text :
  first_rejected strip cells text -> ~ Forall (accepted strip) cells.
Proof.
  intros (pre & c & post & -> & -> & Hn & _) H.
  rewrite Forall_forall in H. apply (H c); auto.
  apply in_or_app. right. left. reflexivity.
Qed.

Lemma first_rejected_unique strip cells a b :
  first_rejected strip cells a -> first_rejected strip cells b -> a = b.
Proof.
  intros (p1 & c1 & q1 & E1 & -> & N1 & F1) (p2 & c2 & q2 & E2 & -> & N2 & F2).
  subst cells. revert p2 E2 F2.
  induction p1 as [|x p1 IH]; intros [|y p2] E2 F2; simpl in *.
  - injection E2 as -> _. reflexivity.
  - injection E2 as -> _. inversion F2; subst. contradiction.
  - injection E2 as -> _. inversion F1; subst. contradiction.
  - injection E2 as -> E2. inversion F1; inversion F2; subst. eapply IH; eauto.
Qed.

Lemma convert_obj d src strip dst cells :
  lookup_col src (cols d) = Some (ObjCol cells) ->
  (exists v, convert d src strip dst = Ok (setitem d dst (FloatCol v)) /\
     Forall (accepted strip) cells) \/
  (exists text, convert d src strip dst = Raise (ValueError_float text) /\
     first_rejected strip cells text).
Proof.
  intros L. unfold convert, getitem. rewrite L. cbn [bind].
  destruct (to_numeric strip (ObjCol cells)) as [v|e] eqn:N; cbn [bind].
  - left. exists v. split; auto. eapply to_numeric_obj_all; eauto.
  - right. apply to_numeric_obj_raise in N. destruct N as (text & -> & F).
    exists text. auto.
Qed.

(** What [normalise] does on an upload that has the three source
    columns: the columns are converted in the order percentage,
    latency, volume, and the first cell that is not read stops it. *)
Lemma normalise_cases t c1 c2 c3 :
  lookup_col pct_src (cols (read_table t)) = Some (ObjCol c1) ->
  lookup_col lat_src (cols (read_table t)) = Some (ObjCol c2) ->
  lookup_col vol_src (cols (read_table t)) = Some (ObjCol c3) ->
  (exists d, normalise (read_table t) = Ok d /\
     Forall (accepted strip_pct) c1 /\ Forall (accepted strip_ms) c2 /\
     Forall (accepted strip_vol) c3) \/
  (exists text, normalise (read_table t) = Raise (ValueError_float text) /\
     (first_rejected strip_pct c1 text \/
      (Forall (accepted strip_pct) c1 /\ first_rejected strip_ms c2 text) \/
      (Forall (accepted strip_pct) c1 /\ Forall (accepted strip_ms) c2 /\
       first_rejected strip_vol c3 text))).
Proof.
  intros L1 L2 L3. unfold normalise.
  destruct (convert_obj (read_table t) pct_src strip_pct pct_col c1 L1)
    as [(v1 & E1 & A1)|(text & E1 & F1)];
    unfold pct_src, pct_col in E1; rewrite E1; cbn [bind].
  2:{ right. exists text. auto. }
  assert (L2' : lookup_col lat_src
            (cols (setitem (read_table t) "Filled_Vol_Pct" (FloatCol v1)))
          = Some (ObjCol c2)).
  { cbn [setitem cols]. rewrite lookup_assign_other by discriminate. exact L2. }
  destruct (convert_obj _ lat_src strip_ms lat_col c2 L2')
    as [(v2 & E2 & A2)|(text & E2 & F2)];
    unfold lat_src, lat_col in E2; rewrite E2; cbn [bind].
  2:{ right. exists text. auto. }
  assert (L3' : lookup_col vol_src
            (cols (setitem (setitem (read_table t) "Filled_Vol_Pct" (FloatCol v1))
                     "Avg_Latency_ms" (FloatCol v2)))
          = Some (ObjCol c3)).
  { cbn [setitem cols]. rewrite !lookup_assign_other by discriminate. exact L3. }
  destruct (convert_obj _ vol_src strip_vol vol_col c3 L3')
    as [(v3 & E3 & A3)|(text & E3 & F3)];
    unfold vol_src, vol_col in E3; rewrite E3.
  2:{ right. exists text. split; [reflexivity|]. right. right. auto. }
  left. eexists. split; [reflexivity|]. auto.
Qed.

(** *** The script around normalisation *)

Lemma prepare_ok d0 sel metric p :
  prepare d0 sel metric = Ok p ->
  normalise d0 = Ok (p_df p) /\
  symbol_rows (p_df p) sel = Ok (p_sym_df p) /\
  best_worst (p_sym_df p) metric
    = Ok (p_best_row p, p_worst_row p, p_metric_col p, p_higher_is_better p) /\
  rank_table (p_sym_df p) = Ok (p_rank_df p).
Proof.
  unfold prepare.
  destruct (normalise d0) as [d|] eqn:N; cbn [bind]; [|discriminate].
  destruct (symbol_box d) as [u|] eqn:U; cbn [bind]; [|discriminate].
  destruct (symbol_rows d sel) as [s|] eqn:S; cbn [bind]; [|discriminate].
  destruct (best_worst s metric) as [[[[b w] c] h]|] eqn:B; cbn [bind]; [|discriminate].
  destruct (rank_table s) as [r|] eqn:R; cbn [bind]; [|discriminate].
  intros H. injection H as <-. simpl. auto.
Qed.

Lemma prepare_normalise_raise d0 sel metric e :
  normalise d0 = Raise e -> prepare d0 sel metric = Raise e.
Proof. unfold prepare. intros ->. reflexivity. Qed.

Lemma run_raised_only t sel metric e :
  missing_columns (read_table t) = [] ->
  prepare (read_table t) sel metric = Raise e ->
  forall o, run t sel metric o <-> o = Raised e.
Proof.
  intros Hm Hp o. split.
  - intros H. inversion H; subst; try congruence.
  - intros ->. apply run_raised; auto.
Qed.

Lemma run_finished_inv t sel metric s :
  run t sel metric (Finished s) ->
  exists p sorted,
    missing_columns (read_table t) = [] /\
    prepare (read_table t) sel metric = Ok p /\
    sort_values (p_rank_df p) (sort_key (p_rank_df p) metric (p_metric_col p))
      (negb (p_higher_is_better p)) (Ok sorted) /\
    s = finish p sorted.
Proof.
  intros H. inversion H; subst. exists p, sorted. auto.
Qed.




Lemma accepted_all_read strip cells :
  PyFloat.float_of_string (strip "nan") = Some S754_nan ->
  Forall (accepted strip) cells -> all_read strip cells.
Proof.
  intros Hnan H. unfold all_read. eapply Forall_impl; [|exact H].
  intros c Hc. unfold accepted in Hc.
  destruct (PyFloat.float_of_string (strip (astype_str c))) as [x|] eqn:E;
    [|congruence].
  exists x. apply (reads_as_text strip c x Hnan). exact E.
Qed.

Lemma first_rejected_unread strip cells text :
  PyFloat.float_of_string (strip "nan") = Some S754_nan ->
  first_rejected strip cells text -> first_unread strip cells text.
Proof.
  intros Hnan (pre & c & post & -> & -> & Hn & Hpre).
  destruct c as [s|]; simpl in Hn; [|congruence].
  exists pre, s, post. repeat split; auto.
  apply accepted_all_read; assumption.
Qed.

(** C2 (as amended).  On an upload that passes the schema check,
    either normalisation raises the conversion error that carries the
    stripped text of the first cell [float] does not read (columns in
    the order percentage, latency, volume, cells from the top) and that
    error is the only outcome of the script; or every row gets its
    three canonical values, each the float read from the stripped text
    of the cell of the same row (finite, infinite or NaN, as the text
    says; NaN for a blank cell), and the derived columns are float64
    columns of the frame and of every symbol subset that reaches
    extremum selection and ranking, so no row is left partly
    normalised. *)
Theorem normalised_columns_are_floats (t : RawTable) :
  missing_columns (read_table t) = [] ->
  exists c1 c2 c3,
    lookup_col "% Filled Volume" (cols (read_table t)) = Some (ObjCol c1) /\
    lookup_col "Avg. Fill Latency" (cols (read_table t)) = Some (ObjCol c2) /\
    lookup_col "Total Filled Volume" (cols (read_table t)) = Some (ObjCol c3) /\
    ((exists text,
        normalise (read_table t) = Raise (ValueError_float text) /\
        (first_unread strip_pct c1 text \/
         (all_read strip_pct c1 /\ first_unread strip_ms c2 text) \/
         (all_read strip_pct c1 /\ all_read strip_ms c2 /\
          first_unread strip_vol c3 text)) /\
        forall sel metric o,
          run t sel metric o <-> o = Raised (ValueError_float text)) \/
     (exists d v1 v2 v3,
        normalise (read_table t) = Ok d /\
        lookup_col "Filled_Vol_Pct" (cols d) = Some (FloatCol v1) /\
        lookup_col "Avg_Latency_ms" (cols d) = Some (FloatCol v2) /\
        lookup_col "Total_Filled_Vol" (cols d) = Some (FloatCol v3) /\
        Forall2 (reads_as strip_pct) c1 v1 /\
        Forall2 (reads_as strip_ms) c2 v2 /\
        Forall2 (reads_as strip_vol) c3 v3 /\
        forall sel metric s, run t sel metric (Finished s) ->
          df s = d /\
          exists mask,
            lookup_col "Filled_Vol_Pct" (cols (sym_df s))
              = Some (FloatCol (select mask v1)) /\
            lookup_col "Avg_Latency_ms" (cols (sym_df s))
              = Some (FloatCol (select mask v2)) /\
            lookup_col "Total_Filled_Vol" (cols (sym_df s))
              = Some (FloatCol (select mask v3)))).
Proof.
  intros Hm. destruct (sources_present t Hm) as (c1 & c2 & c3 & L1 & L2 & L3).
  exists c1, c2, c3. repeat (split; [assumption|]).
  assert (N1 : PyFloat.float_of_string (strip_pct "nan") = Some S754_nan)
    by reflexivity.
  assert (N2 : PyFloat.float_of_string (strip_ms "nan") = Some S754_nan)
    by reflexivity.
  assert (N3 : PyFloat.float_of_string (strip_vol "nan") = Some S754_nan)
    by reflexivity.
  destruct (normalise_cases t c1 c2 c3 L1 L2 L3)
    as [(d & E & _)|(text & E & F)].
  - right. pose proof (normalise_derived _ _ E)
      as (x1 & v1 & x2 & v2 & x3 & v3 & L1' & T1 & L2' & T2 & L3' & T3 & D1 & D2 & D3).
    rewrite L1 in L1'. rewrite L2 in L2'. rewrite L3 in L3'.
    injection L1' as <-. injection L2' as <-. injection L3' as <-.
    exists d, v1, v2, v3.
    repeat (split; [first [assumption | apply to_numeric_reads; assumption]|]).
    intros sel metric s Hs. apply run_finished_inv in Hs.
    destruct Hs as (p & sorted & _ & Hp & _ & ->).
    apply prepare_ok in Hp. destruct Hp as (Hn & Hsym & _).
    rewrite E in Hn. injection Hn as Hd. simpl. split; auto.
    rewrite <- Hd in Hsym. apply symbol_rows_ok in Hsym.
    destruct Hsym as (c & _ & ->). exists (eq_mask c sel).
    unfold pct_col, lat_col, vol_col in *.
    rewrite !lookup_filter_rows, D1, D2, D3. simpl. auto.
  - left. exists text. split; [exact E|]. split.
    + destruct F as [F|[[A F]|[A [B F]]]].
      * left. apply first_rejected_unread; assumption.
      * right. left. split;
          [apply accepted_all_read | apply first_rejected_unread]; assumption.
      * right. right. split; [apply accepted_all_read; assumption|].
        split; [apply accepted_all_read | apply first_rejected_unread];
          assumption.
    + intros sel metric. apply run_raised_only; auto.
      apply prepare_normalise_raise. exact E.
Qed.

Lemma normalised_columns_are_floats_witness :
  missing_columns (read_table mixed_cells) = [] /\
  exists c1 c2 c3,
    lookup_col "% Filled Volume" (cols (read_table mixed_cells))
      = Some (ObjCol c1) /\
    lookup_col "Avg. Fill Latency" (cols (read_table mixed_cells))
      = Some (ObjCol c2) /\
    lookup_col "Total Filled Volume" (cols (read_table mixed_cells))
      = Some (ObjCol c3) /\
    ((exists text,
        normalise (read_table mixed_cells) = Raise (ValueError_float text) /\
        (first_unread strip_pct c1 text \/
         (all_read strip_pct c1 /\ first_unread strip_ms c2 text) \/
         (all_read strip_pct c1 /\ all_read strip_ms c2 /\
          first_unread strip_vol c3 text)) /\
        forall sel metric o,
          run mixed_cells sel metric o
          <-> o = Raised (ValueError_float text)) \/
     (exists d v1 v2 v3,
        normalise (read_table mixed_cells) = Ok d /\
        lookup_col "Filled_Vol_Pct" (cols d) = Some (FloatCol v1) /\
        lookup_col "Avg_Latency_ms" (cols d) = Some (FloatCol v2) /\
        lookup_col "Total_Filled_Vol" (cols d) = Some (FloatCol v3) /\
        Forall2 (reads_as strip_pct) c1 v1 /\
        Forall2 (reads_as strip_ms) c2 v2 /\
        Forall2 (reads_as strip_vol) c3 v3 /\
        forall sel metric s, run mixed_cells sel metric (Finished s) ->
          df s = d /\
          exists mask,
            lookup_col "Filled_Vol_Pct" (cols (sym_df s))
              = Some (FloatCol (select mask v1)) /\
            lookup_col "Avg_Latency_ms" (cols (sym_df s))
              = Some (FloatCol (select mask v2)) /\
            lookup_col "Total_Filled_Vol" (cols (sym_df s))
              = Some (FloatCol (select mask v3)))).
Proof.
  split; [reflexivity|].
  apply (normalised_columns_are_floats mixed_cells). reflexivity.
Defined.

(** The values of that upload: NaN for the blank percentage, 120 for
    a latency with two [ms], 8500.5 for a volume followed by a
    no-break space. *)
Example mixed_cells_values :
  lookup_col "Filled_Vol_Pct" (cols mixed_cells_df)
    = Some (FloatCol [S754_nan; S754_finite false 6480961338762854 (-46)]) /\
  lookup_col "Avg_Latency_ms" (cols mixed_cells_df)
    = Some (FloatCol [S754_finite false 8444249301319680 (-46);
                      S754_finite false 6685030696878080 (-46)]) /\
  lookup_col "Total_Filled_Vol" (cols mixed_cells_df)
    = Some (FloatCol [S754_finite false 5497558138880000 (-39);
                      S754_finite false 4673199295954944 (-39)]).
Proof. repeat split; vm_compute; reflexivity. Qed.

(** C2 as stated fails: the cell ['inf%'] is converted without error
    to an infinity, and the row that carries it is ranked; it is even
    the best row for the fill percentage. *)
Lemma infinite_value_reaches_ranking :
  exists d s x,
    normalise (read_table infinite_percent) = Ok d /\
    lookup_col pct_col (cols d) = Some (FloatCol [F64.pos_inf; x]) /\
    F64.is_finite F64.pos_inf = false /\
    run infinite_percent (Text "EURUSD") "% Filled Volume" (Finished s) /\
    metric_value pct_col (best_row s) = Some F64.pos_inf /\
    lookup_col "% Filled Volume" (cols (rank_df s))
      = Some (FloatCol [F64.pos_inf; x]).
Proof.
  eexists. eexists. eexists.
  split; [vm_compute; reflexivity|].
  split; [reflexivity|]. split; [reflexivity|].
  split.
  - eapply run_finished.
    + reflexivity.
    + vm_compute. reflexivity.
    + eapply (sort_done _ _ _ _ [0; 1]).
      * reflexivity.
      * exists [0; 1]. split; [reflexivity|]. split.
        -- apply Permutation_refl.
        -- repeat constructor.
  - split; reflexivity.
Qed.

(** ** What normalisation leaves alone (C10) *)

Lemma filter_assign (P : string -> bool) name c cs :
  P name = false ->
  filter (fun nc => P (fst nc)) (assign_col name c cs)
  = filter (fun nc => P (fst nc)) cs.
Proof.
  intros H. induction cs as [|[n c0] cs IH]; simpl.
  - rewrite H. reflexivity.
  - destruct (String.eqb name n) eqn:E; simpl.
    + apply String.eqb_eq in E. subst n. rewrite H. reflexivity.
    + rewrite IH. reflexivity.
Qed.

Lemma columns_normalise d d' name :
  normalise d = Ok d' ->
  (In name (columns d') <-> In name (columns d) \/ In name derived_columns).
Proof.
  intros H. apply normalise_ok in H.
  destruct H as (c1 & v1 & c2 & v2 & c3 & v3 & _ & _ & _ & _ & _ & _ & ->).
  unfold columns. simpl cols.
  assert (A : forall n c cs x,
    In x (map fst (assign_col n c cs)) <-> In x (map fst cs) \/ x = n).
  { intros n c cs x. rewrite columns_assign.
    destruct (existsb (String.eqb n) (map fst cs)) eqn:E.
    - apply existsb_exists in E. destruct E as [y [Hy E]].
      apply String.eqb_eq in E. subst y. split; auto.
      intros [Hx| ->]; auto.
    - rewrite in_app_iff. simpl. intuition. }
  rewrite !A. simpl. unfold pct_col, lat_col, vol_col. intuition.
Qed.

(** C10 (as amended).  Normalisation assigns the three canonical
    columns and touches nothing else: the row labels and their order
    are unchanged, the columns that do not bear one of the three
    derived names are unchanged (the five required ones among them)
    and stay in their order, the only names added are the derived
    ones; and the frame a finished run holds is this normalised frame:
    selecting the extrema and building the ranking do not modify it. *)
Theorem normalisation_frame (t : RawTable) (d : DataFrame) :
  normalise (read_table t) = Ok d ->
  index d = index (read_table t) /\
  filter (fun nc => negb (is_derived (fst nc))) (cols d)
    = filter (fun nc => negb (is_derived (fst nc))) (cols (read_table t)) /\
  (forall name, is_derived name = false ->
     lookup_col name (cols d) = lookup_col name (cols (read_table t))) /\
  (forall name, In name required_columns ->
     lookup_col name (cols d) = lookup_col name (cols (read_table t))) /\
  (forall name, In name (columns d) <->
     In name (columns (read_table t)) \/ In name derived_columns) /\
  (forall sel metric s, run t sel metric (Finished s) -> df s = d).
Proof.
  intros H. split; [eapply normalise_index; eauto|]. split.
  { pose proof (normalise_ok _ _ H)
      as (c1 & v1 & c2 & v2 & c3 & v3 & _ & _ & _ & _ & _ & _ & ->).
    cbn [setitem cols].
    rewrite !(filter_assign (fun n => negb (is_derived n))); reflexivity. }
  assert (A : forall name, is_derived name = false ->
     lookup_col name (cols d) = lookup_col name (cols (read_table t))).
  { intros name Hn. eapply normalise_other_columns; eauto.
    intros Hin. assert (is_derived name = true); [|congruence].
    apply existsb_exists. exists name. split; auto. apply String.eqb_refl. }
  split; [exact A|]. split.
  { intros name Hin. apply A. simpl in Hin.
    destruct Hin as [<-|[<-|[<-|[<-|[<-|[]]]]]]; reflexivity. }
  split; [intros name; apply columns_normalise; exact H|].
  intros sel metric s Hs. apply run_finished_inv in Hs.
  destruct Hs as (p & sorted & _ & Hp & _ & ->).
  apply prepare_ok in Hp. destruct Hp as (Hn & _). simpl. congruence.
Qed.

Lemma normalisation_frame_witness :
  normalise (read_table scenario) = Ok scenario_df /\
  index scenario_df = index (read_table scenario) /\
  filter (fun nc => negb (is_derived (fst nc))) (cols scenario_df)
    = filter (fun nc => negb (is_derived (fst nc))) (cols (read_table scenario)) /\
  (forall name, is_derived name = false ->
     lookup_col name (cols scenario_df)
     = lookup_col name (cols (read_table scenario))) /\
  (forall name, In name required_columns ->
     lookup_col name (cols scenario_df)
     = lookup_col name (cols (read_table scenario))) /\
  (forall name, In name (columns scenario_df) <->
     In name (columns (read_table scenario)) \/ In name derived_columns) /\
  (forall sel metric s, run scenario sel metric (Finished s) ->
     df s = scenario_df).
Proof.
  split; [vm_compute; reflexivity|].
  apply (normalisation_frame scenario scenario_df). vm_compute. reflexivity.
Defined.

(** C10 as stated fails: a table that passes the schema check and
    already has a column named [Filled_Vol_Pct] has that column's
    values replaced, and only two columns are added. *)
Lemma existing_column_is_overwritten :
  exists d x y,
    missing_columns (read_table name_clash) = [] /\
    normalise (read_table name_clash) = Ok d /\
    lookup_col "Filled_Vol_Pct" (cols (read_table name_clash))
      = Some (ObjCol [Text "n/a"; Text "n/a"]) /\
    lookup_col "Filled_Vol_Pct" (cols d) = Some (FloatCol [x; y]) /\
    columns d
      = columns (read_table name_clash) ++ ["Avg_Latency_ms"; "Total_Filled_Vol"].
Proof.
  eexists. eexists. eexists. split; [reflexivity|].
  split; [vm_compute; reflexivity|]. repeat split.
Qed.

(** ** The symbol subset is not empty (C8) *)

Lemma unique_from_In seen l c : In c (unique_from seen l) -> In c l.
Proof.
  revert seen. induction l as [|x l IH]; intros seen; simpl; auto.
  destruct (existsb (same_key x) seen).
  - intros H. right. eapply IH; eauto.
  - intros [H|H]; auto. right. eapply IH; eauto.
Qed.

Lemma texts_of_map u ts : texts_of u = Some ts -> u = map Text ts.
Proof.
  revert ts. induction u as [|[s|] u IH]; intros ts; simpl.
  - intros H. injection H as <-. reflexivity.
  - destruct (texts_of u) as [r|]; simpl; [|discriminate].
    intros H. injection H as <-. simpl. rewrite (IH r); auto.
  - discriminate.
Qed.

Lemma insert_text_In s x l : In x (insert_text s l) <-> x = s \/ In x l.
Proof.
  induction l as [|t l IH]; simpl.
  - intuition.
  - destruct (String.leb s t); simpl; rewrite ?IH; intuition.
Qed.

Lemma sort_texts_In x l : In x (sort_texts l) <-> In x l.
Proof.
  induction l as [|t l IH]; simpl; [tauto|].
  rewrite insert_text_In, IH. intuition.
Qed.

Lemma symbol_options_In symbols opts sel :
  symbol_options symbols = Ok opts -> In sel opts -> sel <> Missing ->
  exists s, sel = Text s /\ In (Text s) symbols.
Proof.
  unfold symbol_options. intros H Hin Hne.
  destruct (texts_of (unique symbols)) as [ts|] eqn:E.
  - injection H as <-. apply in_map_iff in Hin. destruct Hin as (s & <- & Hs).
    exists s. split; auto. apply (proj1 (sort_texts_In _ _)) in Hs.
    apply texts_of_map in E. apply (unique_from_In [] symbols).
    fold (unique symbols). rewrite E. apply in_map. exact Hs.
  - destruct (unique symbols) as [|[s|] [|y u]]; try discriminate.
    injection H as <-. destruct Hin as [<-|[]]. congruence.
Qed.

Lemma select_pos {A} mask (l : list A) :
  List.length mask = List.length l -> In true mask ->
  1 <= List.length (select mask l).
Proof.
  revert l. induction mask as [|b mask IH]; intros [|x l] Hl Hin;
    simpl in *; try discriminate; try tauto.
  destruct b; simpl; [lia|]. destruct Hin as [?|Hin]; [discriminate|].
  apply IH; auto.
Qed.

Lemma best_worst_empty sym m k :
  lookup_col (fst (resolve m)) (cols sym) = Some (FloatCol k) ->
  k = [] -> best_worst sym (metric_label m) = Raise ValueError_empty.
Proof.
  intros L ->.
  destruct m; simpl in L; unfold best_worst, max_then_min, min_then_max,
    float_series, getitem; simpl;
    unfold pct_col, lat_col, vol_col in L; rewrite L; reflexivity.
Qed.

(** C8 (as amended).  On a symbol subset with no row the selector
    raises the empty-sequence error of [idxmax]/[idxmin], for each
    metric.  When the selected symbol is one of the options of the
    select box and is a text (not the missing value), the subset has
    at least one row. *)
Theorem empty_subset_is_an_error_and_unreachable
  (t : RawTable) (sel : cell) (m : Metric) (d sym : DataFrame)
  (symbols : list cell) :
  rectangular t = true ->
  normalise (read_table t) = Ok d ->
  symbol_rows d sel = Ok sym ->
  lookup_col "Core Symbol" (cols (read_table t)) = Some (ObjCol symbols) ->
  (nrows sym = 0 -> best_worst sym (metric_label m) = Raise ValueError_empty) /\
  (forall opts, symbol_options symbols = Ok opts -> In sel opts ->
     sel <> Missing -> 1 <= nrows sym).
Proof.
  intros Hr Hn Hs Lsym.
  destruct (subset_shape t d sel sym Hr Hn Hs) as [Hwf Hk]. split.
  - intros H0. destruct (Hk m) as [k L].
    apply (best_worst_empty sym m k L).
    pose proof (lookup_col_len sym _ _ Hwf L) as Hlen. simpl in Hlen.
    rewrite H0 in Hlen. destruct k; auto. discriminate.
  - intros opts Ho Hin Hne.
    destruct (symbol_options_In symbols opts sel Ho Hin Hne) as (s & -> & Hs').
    pose proof (read_table_well_formed t Hr) as Hwf0.
    pose proof (lookup_col_len _ _ _ Hwf0 Lsym) as Hlen. simpl in Hlen.
    apply symbol_rows_ok in Hs. destruct Hs as (c & Lc & ->).
    rewrite (normalise_other_columns _ _ "Core Symbol" Hn) in Lc.
    2:{ simpl. intros [H|[H|[H|[]]]]; discriminate. }
    rewrite Lsym in Lc. injection Lc as <-.
    unfold nrows. simpl. apply select_pos.
    + rewrite length_map. rewrite (normalise_index _ _ Hn). exact Hlen.
    + apply in_map_iff. exists (Text s). split; auto.
      simpl. apply String.eqb_refl.
Qed.

Lemma empty_subset_is_an_error_and_unreachable_witness :
  (nrows scenario_sym = 0 ->
   best_worst scenario_sym (metric_label TotalVolume) = Raise ValueError_empty) /\
  (forall opts,
     symbol_options [Text "EURUSD"; Text "EURUSD"] = Ok opts ->
     In (Text "EURUSD") opts -> Text "EURUSD" <> Missing ->
     1 <= nrows scenario_sym).
Proof.
  apply (empty_subset_is_an_error_and_unreachable scenario (Text "EURUSD")
           TotalVolume scenario_df scenario_sym [Text "EURUSD"; Text "EURUSD"]);
    vm_compute; reflexivity.
Defined.

(** C8 as stated fails: when the symbol column is blank, the missing
    value is the one option of the select box, no row equals it, the
    subset is empty and the script ends in the empty-sequence error. *)
Lemma blank_symbol_gives_empty_subset :
  exists d sym,
    missing_columns (read_table blank_symbol) = [] /\
    symbol_options [Missing; Missing] = Ok [Missing] /\
    normalise (read_table blank_symbol) = Ok d /\
    symbol_rows d Missing = Ok sym /\
    nrows sym = 0 /\
    forall o, run blank_symbol Missing "% Filled Volume" o
              <-> o = Raised ValueError_empty.
Proof.
  eexists. eexists. split; [reflexivity|]. split; [reflexivity|].
  split; [vm_compute; reflexivity|]. split; [vm_compute; reflexivity|].
  split; [reflexivity|].
  apply run_raised_only; vm_compute; reflexivity.
Qed.

(** ** Sorting *)

Lemma filter_partition_perm {A} (f : A -> bool) (l : list A) :
  Permutation (filter (fun x => negb (f x)) l ++ filter f l) l.
Proof.
  induction l as [|x l IH]; simpl; auto.
  destruct (f x); simpl.
  - apply Permutation_sym, Permutation_cons_app, Permutation_sym. exact IH.
  - constructor. exact IH.
Qed.

Lemma positions_where_lt p k i :
  In i (positions_where p k) -> i < List.length k /\ p (key_at k i) = true.
Proof.
  unfold positions_where. rewrite filter_In, in_seq. intros [H1 H2].
  split; [lia|exact H2].
Qed.

Lemma is_argsort_perm asc k ix :
  is_argsort asc k ix -> Permutation ix (seq 0 (List.length k)).
Proof.
  intros (p & -> & P & _).
  eapply Permutation_trans; [apply Permutation_app_tail; exact P|].
  apply (filter_partition_perm (fun i => F64.is_nan (key_at k i))).
Qed.

Lemma take_app {A} ix ix' (l : list A) : take (ix ++ ix') l = take ix l ++ take ix' l.
Proof.
  induction ix as [|i ix IH]; simpl; auto.
  destruct (nth_error l i); simpl; rewrite IH; reflexivity.
Qed.

Lemma take_keys ix k :
  Forall (fun i => i < List.length k) ix -> take ix k = map (key_at k) ix.
Proof.
  induction 1 as [|i ix Hi _ IH]; simpl; auto.
  destruct (nth_error k i) as [x|] eqn:E.
  - rewrite IH. unfold key_at at 2. rewrite (nth_error_nth k i _ E). reflexivity.
  - apply nth_error_None in E. lia.
Qed.

Lemma take_length {A} ix (l : list A) :
  Forall (fun i => i < List.length l) ix -> List.length (take ix l) = List.length ix.
Proof.
  induction 1 as [|i ix Hi _ IH]; simpl; auto.
  destruct (nth_error l i) eqn:E; simpl; [lia|].
  apply nth_error_None in E. lia.
Qed.

Lemma StronglySorted_map {A B} (f : A -> B) (R : B -> B -> Prop) l :
  StronglySorted (fun x y => R (f x) (f y)) l -> StronglySorted R (map f l).
Proof.
  induction 1 as [|x l _ IH Hx]; simpl; constructor; auto.
  rewrite Forall_map. exact Hx.
Qed.

Lemma in_order_favourable asc k i j :
  in_order asc k i j <->
  as_favourable (negb asc) (key_at k i) (key_at k j) = true.
Proof.
  unfold in_order, in_order_b, as_favourable. destruct asc; simpl; tauto.
Qed.

Lemma is_argsort_ranked asc k ix :
  is_argsort asc k ix -> ranked (negb asc) (take ix k).
Proof.
  intros (p & -> & P & S).
  assert (Hp : forall i, In i p ->
            i < List.length k /\ F64.is_nan (key_at k i) = false).
  { intros i Hi. apply (Permutation_in _ P) in Hi.
    apply positions_where_lt in Hi. destruct Hi as [H1 H2].
    split; auto. apply negb_true_iff. exact H2. }
  exists (map (key_at k) p), (map (key_at k) (positions_where F64.is_nan k)).
  rewrite take_app. repeat split.
  - f_equal; apply take_keys; apply Forall_forall; intros i Hi.
    + apply Hp. exact Hi.
    + apply positions_where_lt in Hi. tauto.
  - apply StronglySorted_map.
    eapply StronglySorted_ind with (l := p); [constructor| |exact S].
    intros a l Hl IH Ha. constructor; auto.
    eapply Forall_impl; [|exact Ha]. intros b Hb.
    apply (proj1 (in_order_favourable asc k a b)). exact Hb.
  - rewrite Forall_map. apply Forall_forall. intros i Hi. apply Hp. exact Hi.
  - rewrite Forall_map. apply Forall_forall. intros i Hi.
    apply positions_where_lt in Hi. tauto.
Qed.

(** *** The stable indexer is admissible *)

Section Insertion.
Variable asc : bool.
Variable k : list F64.float.

Lemma in_order_total i j :
    is_number_at k i -> is_number_at k j -> in_order_b asc k i j = false -> in_order asc k j i.
  Proof.
    unfold is_number_at, in_order, in_order_b. intros Hi Hj.
    destruct asc; intros H.
    - destruct (F64Facts.leb_total _ _ Hi Hj); congruence.
    - destruct (F64Facts.leb_total _ _ Hj Hi); congruence.
  Qed.

Lemma in_order_trans i j l :
    in_order asc k i j -> in_order asc k j l -> in_order asc k i l.
  Proof.
    unfold in_order, in_order_b. destruct asc; intros H1 H2.
    - eapply F64Facts.leb_trans; eauto.
    - eapply F64Facts.leb_trans; eauto.
  Qed.

Lemma insert_pos_perm i l : Permutation (insert_pos asc k i l) (i :: l).
  Proof.
    induction l as [|j l IH]; simpl; auto.
    destruct (in_order_b asc k i j); auto.
    eapply Permutation_trans; [apply perm_skip; exact IH|apply perm_swap].
  Qed.

Lemma insert_pos_sorted i l :
    is_number_at k i -> Forall (is_number_at k) l ->
    StronglySorted (in_order asc k) l ->
    StronglySorted (in_order asc k) (insert_pos asc k i l).
  Proof.
    intros Hi Hl S. induction S as [|j l S IH Hj]; simpl.
    - constructor; constructor.
    - inversion Hl; subst.
      destruct (in_order_b asc k i j) eqn:E.
      + constructor; [constructor; auto|]. constructor; [exact E|].
        eapply Forall_impl; [|exact Hj]. intros a Ha.
        eapply in_order_trans; eauto.
      + constructor; [apply IH; auto|].
        eapply Permutation_Forall; [apply Permutation_sym, insert_pos_perm|].
        constructor; auto. apply in_order_total; auto.
  Qed.

Lemma insertion_sorted l :
    Forall (is_number_at k) l ->
    StronglySorted (in_order asc k) (fold_right (insert_pos asc k) [] l) /\
    Permutation (fold_right (insert_pos asc k) [] l) l.
  Proof.
    induction 1 as [|i l Hi Hl [IH1 IH2]]; simpl.
    - split; constructor.
    - split.
      + apply insert_pos_sorted; auto.
        eapply Permutation_Forall; [apply Permutation_sym; exact IH2|exact Hl].
      + eapply Permutation_trans; [apply insert_pos_perm|]. constructor. exact IH2.
  Qed.

End Insertion.

Lemma argsort_stable_admissible asc k : is_argsort asc k (argsort_stable asc k).
Proof.
  unfold argsort_stable.
  destruct (insertion_sorted asc k
              (positions_where (fun x => negb (F64.is_nan x)) k)) as [S P].
  { apply Forall_forall. intros i Hi. apply positions_where_lt in Hi.
    apply negb_true_iff. tauto. }
  eexists. split; [reflexivity|]. split; assumption.
Qed.

(** ** The ranking table (C4, C9) *)

Lemma sort_values_float d by_ asc k o :
  lookup_col by_ (cols d) = Some (FloatCol k) ->
  (sort_values d by_ asc o <->
   exists ix, is_argsort asc k ix /\ o = Ok (take_rows ix d)).
Proof.
  intros L. split.
  - intros H. inversion H; subst.
    + rewrite L in H0. injection H0 as <-. eauto.
    + congruence.
  - intros (ix & Hix & ->). eapply sort_done; eauto.
Qed.

Lemma subset_sources t d sel sym :
  rectangular t = true ->
  missing_columns (read_table t) = [] ->
  normalise (read_table t) = Ok d ->
  symbol_rows d sel = Ok sym ->
  exists names k1 k2 k3,
    lookup_col "Maker Stream Name" (cols sym) = Some names /\
    lookup_col pct_col (cols sym) = Some (FloatCol k1) /\
    lookup_col lat_col (cols sym) = Some (FloatCol k2) /\
    lookup_col vol_col (cols sym) = Some (FloatCol k3) /\
    List.length k1 = nrows sym /\ List.length k2 = nrows sym /\
    List.length k3 = nrows sym.
Proof.
  intros Hr Hm Hn Hs.
  destruct (subset_shape t d sel sym Hr Hn Hs) as [Hwf Hk].
  destruct (Hk FilledPercent) as [k1 L1].
  destruct (Hk AvgLatency) as [k2 L2].
  destruct (Hk TotalVolume) as [k3 L3]. simpl in L1, L2, L3.
  destruct (missing_nil_lookup _ "Maker Stream Name" Hm) as [c0 L0];
    [simpl; tauto|].
  rewrite <- (normalise_other_columns _ _ "Maker Stream Name" Hn) in L0.
  2:{ simpl. intros [H|[H|[H|[]]]]; discriminate. }
  pose proof Hs as Hs'. apply symbol_rows_ok in Hs'.
  destruct Hs' as (c & _ & E).
  exists (col_select (eq_mask c sel) c0), k1, k2, k3.
  repeat split; auto.
  - rewrite E, lookup_filter_rows, L0. reflexivity.
  - apply (lookup_col_len sym _ _ Hwf L1).
  - apply (lookup_col_len sym _ _ Hwf L2).
  - apply (lookup_col_len sym _ _ Hwf L3).
Qed.

Lemma rank_table_ok sym names k1 k2 k3 :
  lookup_col "Maker Stream Name" (cols sym) = Some names ->
  lookup_col pct_col (cols sym) = Some (FloatCol k1) ->
  lookup_col lat_col (cols sym) = Some (FloatCol k2) ->
  lookup_col vol_col (cols sym) = Some (FloatCol k3) ->
  getitem_list sym ranking_source
    = Ok {| index := index sym;
            cols := [ ("Maker Stream Name", names); (pct_col, FloatCol k1);
                      (lat_col, FloatCol k2); (vol_col, FloatCol k3) ] |} /\
  rank_table sym
    = Ok {| index := index sym;
            cols := [ ("LP Name", names); ("% Filled Volume", FloatCol k1);
                      ("Avg Fill Latency (ms)", FloatCol k2);
                      ("Total Filled Volume", FloatCol k3) ] |}.
Proof.
  intros L0 L1 L2 L3.
  unfold rank_table, getitem_list, ranking_source. cbn [project].
  unfold pct_col, lat_col, vol_col in *. rewrite L0, L1, L2, L3.
  split; reflexivity.
Qed.

Lemma is_argsort_bound asc k ix :
  is_argsort asc k ix -> Forall (fun i => i < List.length k) ix.
Proof.
  intros H. apply is_argsort_perm in H. apply Forall_forall. intros i Hi.
  apply (Permutation_in _ H) in Hi. apply in_seq in Hi. lia.
Qed.

Lemma subset_names t d sel sym :
  rectangular t = true ->
  missing_columns (read_table t) = [] ->
  normalise (read_table t) = Ok d ->
  symbol_rows d sel = Ok sym ->
  exists ns,
    lookup_col "Maker Stream Name" (cols sym) = Some (ObjCol ns) /\
    List.length ns = nrows sym.
Proof.
  intros Hr Hm Hn Hs.
  destruct (subset_shape t d sel sym Hr Hn Hs) as [Hwf _].
  destruct (missing_nil_lookup _ "Maker Stream Name" Hm) as [c0 L0];
    [simpl; tauto|].
  destruct (lookup_read_table _ _ _ L0) as (cells & -> & _).
  rewrite <- (normalise_other_columns _ _ "Maker Stream Name" Hn) in L0.
  2:{ simpl. intros [H|[H|[H|[]]]]; discriminate. }
  pose proof Hs as Hs'. apply symbol_rows_ok in Hs'.
  destruct Hs' as (c & _ & E).
  assert (L : lookup_col "Maker Stream Name" (cols sym)
              = Some (ObjCol (select (eq_mask c sel) cells))).
  { rewrite E, lookup_filter_rows, L0. reflexivity. }
  eexists. split; [exact L|].
  apply (lookup_col_len sym _ _ Hwf L).
Qed.

Lemma take_nth_error {A} ix (l : list A) j i :
  Forall (fun i => i < List.length l) ix ->
  nth_error ix j = Some i ->
  nth_error (take ix l) j = nth_error l i.
Proof.
  intros H. revert j. induction H as [|i0 ix Hi _ IH]; intros j Hj.
  - destruct j; discriminate.
  - cbn [take]. destruct (nth_error l i0) as [x|] eqn:E.
    2:{ apply nth_error_None in E. lia. }
    destruct j as [|j]; simpl in *.
    + injection Hj as <-. symmetry. exact E.
    + apply IH. exact Hj.
Qed.

(** The rows of a sorted ranking table, one by one. *)
Lemma take_rows_ranking sym ns k1 k2 k3 ix :
  List.length ns = nrows sym -> List.length k1 = nrows sym ->
  List.length k2 = nrows sym -> List.length k3 = nrows sym ->
  Forall (fun i => i < nrows sym) ix ->
  ranking_rows (index sym) ns k1 k2 k3 ix
    (take_rows ix (unsorted_ranking sym (ObjCol ns) k1 k2 k3)).
Proof.
  intros N0 N1 N2 N3 Hix.
  exists (take ix ns), (take ix k1), (take ix k2), (take ix k3).
  split; [reflexivity|]. cbn [take_rows unsorted_ranking index].
  assert (B : forall A (l : list A), List.length l = nrows sym ->
                Forall (fun i => i < List.length l) ix).
  { intros A l ->. exact Hix. }
  split; [apply take_length, (B _ (index sym)); reflexivity|].
  split; [apply take_length, B, N0|].
  split; [apply take_length, B, N1|].
  split; [apply take_length, B, N2|].
  split; [apply take_length, B, N3|].
  intros j i Hj.
  repeat split; apply take_nth_error; auto.
Qed.

(** C4.  For the symbol subset of a normalised upload and each
    metric, the ranking builder always produces a table.  Its columns
    are, in this order and under these labels, the stream name, the
    fill percentage, the average latency and the total volume; its
    rows are the rows of the subset, each once and whole (label, name
    and the three values of one row stay together), in one order; the
    CSV header is the four labels.  The column of the selected metric
    is ranked: descending when higher is better, ascending when lower
    is better, rows whose key is NaN last. *)
Theorem ranking_table_spec
  (t : RawTable) (sel : cell) (m : Metric) (d sym : DataFrame) :
  rectangular t = true ->
  missing_columns (read_table t) = [] ->
  normalise (read_table t) = Ok d ->
  symbol_rows d sel = Ok sym ->
  exists ns k1 k2 k3 km,
    lookup_col "Maker Stream Name" (cols sym) = Some (ObjCol ns) /\
    lookup_col "Filled_Vol_Pct" (cols sym) = Some (FloatCol k1) /\
    lookup_col "Avg_Latency_ms" (cols sym) = Some (FloatCol k2) /\
    lookup_col "Total_Filled_Vol" (cols sym) = Some (FloatCol k3) /\
    lookup_col (fst (resolve m)) (cols sym) = Some (FloatCol km) /\
    (exists out,
       ranking_by_label sym (metric_label m) (fst (resolve m))
         (snd (resolve m)) (Ok out)) /\
    forall o,
      ranking_by_label sym (metric_label m) (fst (resolve m))
        (snd (resolve m)) o ->
      exists out ix ks,
        o = Ok out /\
        Permutation ix (seq 0 (nrows sym)) /\
        ranking_rows (index sym) ns k1 k2 k3 ix out /\
        csv_header out = ranking_header /\
        lookup_col (metric_label m) (cols out) = Some (FloatCol ks) /\
        List.length ks = nrows sym /\
        (forall j i, nth_error ix j = Some i ->
           nth_error ks j = nth_error km i) /\
        ranked (snd (resolve m)) ks.
Proof.
  intros Hr Hm Hn Hs.
  destruct (subset_sources t d sel sym Hr Hm Hn Hs)
    as (names & k1 & k2 & k3 & L0 & L1 & L2 & L3 & N1 & N2 & N3).
  destruct (subset_names t d sel sym Hr Hm Hn Hs) as (ns & L0' & N0).
  rewrite L0 in L0'. injection L0' as ->.
  destruct (rank_table_ok sym (ObjCol ns) k1 k2 k3 L0 L1 L2 L3) as [_ R].
  fold (unsorted_ranking sym (ObjCol ns) k1 k2 k3) in R.
  set (r := unsorted_ranking sym (ObjCol ns) k1 k2 k3) in *.
  assert (Hkm : exists km,
    lookup_col (fst (resolve m)) (cols sym) = Some (FloatCol km) /\
    List.length km = nrows sym /\
    lookup_col (sort_key r (metric_label m) (fst (resolve m))) (cols r)
      = Some (FloatCol km) /\
    forall ix, lookup_col (metric_label m) (cols (take_rows ix r))
      = Some (FloatCol (take ix km))).
  { destruct m; simpl;
      [exists k1 | exists k2 | exists k3]; repeat split; auto. }
  destruct Hkm as (km & Lm & Nm & Lk & Lout).
  exists ns, k1, k2, k3, km. repeat (split; [assumption|]). split.
  - exists (take_rows (argsort_stable (negb (snd (resolve m))) km) r).
    exists r. split; [exact R|].
    apply (sort_values_float r _ _ km _ Lk).
    eexists. split; [apply argsort_stable_admissible|reflexivity].
  - intros o (r' & R' & Hsort). rewrite R in R'. injection R' as <-.
    apply (sort_values_float r _ _ km _ Lk) in Hsort.
    destruct Hsort as (ix & Hix & ->).
    pose proof (is_argsort_perm _ _ _ Hix) as P. rewrite Nm in P.
    assert (B : Forall (fun i => i < nrows sym) ix).
    { apply Forall_forall. intros i Hi.
      apply (Permutation_in _ P) in Hi. apply in_seq in Hi. lia. }
    exists (take_rows ix r), ix, (take ix km).
    split; [reflexivity|]. split; [exact P|].
    split; [apply take_rows_ranking; assumption|].
    split; [reflexivity|]. split; [apply Lout|].
    split.
    { rewrite take_length by (rewrite Nm; exact B).
      rewrite (Permutation_length P). apply length_seq. }
    split.
    { intros j i Hj. apply take_nth_error; auto. rewrite Nm. exact B. }
    pose proof (is_argsort_ranked _ _ _ Hix) as Hr'.
    rewrite negb_involutive in Hr'. exact Hr'.
Qed.

Lemma ranking_table_spec_witness :
  exists ns k1 k2 k3 km,
    lookup_col "Maker Stream Name" (cols scenario_sym) = Some (ObjCol ns) /\
    lookup_col "Filled_Vol_Pct" (cols scenario_sym) = Some (FloatCol k1) /\
    lookup_col "Avg_Latency_ms" (cols scenario_sym) = Some (FloatCol k2) /\
    lookup_col "Total_Filled_Vol" (cols scenario_sym) = Some (FloatCol k3) /\
    lookup_col (fst (resolve AvgLatency)) (cols scenario_sym)
      = Some (FloatCol km) /\
    (exists out,
       ranking_by_label scenario_sym (metric_label AvgLatency)
         (fst (resolve AvgLatency)) (snd (resolve AvgLatency)) (Ok out)) /\
    forall o,
      ranking_by_label scenario_sym (metric_label AvgLatency)
        (fst (resolve AvgLatency)) (snd (resolve AvgLatency)) o ->
      exists out ix ks,
        o = Ok out /\
        Permutation ix (seq 0 (nrows scenario_sym)) /\
        ranking_rows (index scenario_sym) ns k1 k2 k3 ix out /\
        csv_header out = ranking_header /\
        lookup_col (metric_label AvgLatency) (cols out)
          = Some (FloatCol ks) /\
        List.length ks = nrows scenario_sym /\
        (forall j i, nth_error ix j = Some i ->
           nth_error ks j = nth_error km i) /\
        ranked (snd (resolve AvgLatency)) ks.
Proof.
  apply (ranking_table_spec scenario (Text "EURUSD") AvgLatency
           scenario_df scenario_sym);
    vm_compute; reflexivity.
Defined.

(** The scenario of the specification, ranked by fill percentage:
    every ranking the script can produce lists LP_B before LP_A. *)
Example scenario_ranking_by_percent (o : result DataFrame) :
  ranking_by_label scenario_sym "% Filled Volume" "Filled_Vol_Pct" true o ->
  exists out, o = Ok out /\
    lookup_col "LP Name" (cols out) = Some (ObjCol [Text "LP_B"; Text "LP_A"]).
Proof.
  intros (r & R & Hsort). vm_compute in R. injection R as <-.
  eapply sort_values_float in Hsort; [|reflexivity].
  destruct Hsort as (ix & (p & -> & P & S) & ->).
  eexists. split; [reflexivity|].
  apply Permutation_sym in P. vm_compute in P.
  apply Permutation_length_2_inv in P. destruct P as [->| ->].
  - exfalso. inversion S as [|a l _ H]; subst.
    inversion H as [|b l' Hb _]; subst. vm_compute in Hb. discriminate.
  - reflexivity.
Qed.

(** C9.  For each of the three metric labels the label is a column
    name of the ranking table, so the fallback of the key lookup is
    never taken; the key found is the label itself, and the column it
    names holds the data of the resolver's canonical column.  The
    rankings the script can produce are exactly those obtained by
    sorting on the resolver's column and direction. *)
Theorem label_key_agrees_with_resolver
  (t : RawTable) (sel : cell) (m : Metric) (d sym : DataFrame) :
  rectangular t = true ->
  missing_columns (read_table t) = [] ->
  normalise (read_table t) = Ok d ->
  symbol_rows d sel = Ok sym ->
  exists r,
    rank_table sym = Ok r /\
    has_column (metric_label m) r = true /\
    (forall fallback, sort_key r (metric_label m) fallback = metric_label m) /\
    lookup_col (metric_label m) (cols r)
      = lookup_col (fst (resolve m)) (cols sym) /\
    (forall o,
       ranking_by_label sym (metric_label m) (fst (resolve m))
         (snd (resolve m)) o
       <-> ranking_by_resolver sym m o).
Proof.
  intros Hr Hm Hn Hs.
  destruct (subset_sources t d sel sym Hr Hm Hn Hs)
    as (names & k1 & k2 & k3 & L0 & L1 & L2 & L3 & _).
  destruct (rank_table_ok sym names k1 k2 k3 L0 L1 L2 L3) as [G R].
  set (p := {| index := index sym;
               cols := [ ("Maker Stream Name", names); (pct_col, FloatCol k1);
                         (lat_col, FloatCol k2); (vol_col, FloatCol k3) ] |}) in *.
  set (r := {| index := index sym;
               cols := [ ("LP Name", names); ("% Filled Volume", FloatCol k1);
                         ("Avg Fill Latency (ms)", FloatCol k2);
                         ("Total Filled Volume", FloatCol k3) ] |}) in *.
  assert (Hkm : exists km,
    lookup_col (fst (resolve m)) (cols sym) = Some (FloatCol km) /\
    lookup_col (metric_label m) (cols r) = Some (FloatCol km) /\
    lookup_col (fst (resolve m)) (cols p) = Some (FloatCol km)).
  { destruct m; simpl;
      [exists k1 | exists k2 | exists k3]; repeat split; auto. }
  destruct Hkm as (km & Lm & Lr & Lp).
  assert (Hkey : forall fallback,
            sort_key r (metric_label m) fallback = metric_label m).
  { intros fallback. destruct m; reflexivity. }
  exists r. split; [exact R|]. split; [destruct m; reflexivity|].
  split; [exact Hkey|]. split; [congruence|].
  intros o. split.
  - intros (r' & R' & Hsort). rewrite R in R'. injection R' as <-.
    rewrite Hkey in Hsort.
    apply (sort_values_float r _ _ km _ Lr) in Hsort.
    destruct Hsort as (ix & Hix & ->).
    exists p, (Ok (take_rows ix p)). split; [exact G|]. split.
    + apply (sort_values_float p _ _ km _ Lp). eauto.
    + reflexivity.
  - intros (p' & o' & G' & Hsort & ->). rewrite G in G'. injection G' as <-.
    apply (sort_values_float p _ _ km _ Lp) in Hsort.
    destruct Hsort as (ix & Hix & ->).
    exists r. split; [exact R|]. rewrite Hkey.
    apply (sort_values_float r _ _ km _ Lr).
    exists ix. split; [exact Hix|reflexivity].
Qed.

Lemma label_key_agrees_with_resolver_witness :
  exists r,
    rank_table scenario_sym = Ok r /\
    has_column (metric_label TotalVolume) r = true /\
    (forall fallback,
       sort_key r (metric_label TotalVolume) fallback
       = metric_label TotalVolume) /\
    lookup_col (metric_label TotalVolume) (cols r)
      = lookup_col (fst (resolve TotalVolume)) (cols scenario_sym) /\
    (forall o,
       ranking_by_label scenario_sym (metric_label TotalVolume)
         (fst (resolve TotalVolume)) (snd (resolve TotalVolume)) o
       <-> ranking_by_resolver scenario_sym TotalVolume o).
Proof.
  apply (label_key_agrees_with_resolver scenario (Text "EURUSD") TotalVolume
           scenario_df scenario_sym);
    vm_compute; reflexivity.
Defined.

(** ** The script as a whole *)

Lemma ranking_exists sym m names k1 k2 k3 fallback :
  lookup_col "Maker Stream Name" (cols sym) = Some names ->
  lookup_col pct_col (cols sym) = Some (FloatCol k1) ->
  lookup_col lat_col (cols sym) = Some (FloatCol k2) ->
  lookup_col vol_col (cols sym) = Some (FloatCol k3) ->
  exists out r,
    rank_table sym = Ok r /\
    sort_values r (sort_key r (metric_label m) fallback)
      (negb (snd (resolve m))) (Ok out).
Proof.
  intros L0 L1 L2 L3.
  destruct (rank_table_ok sym names k1 k2 k3 L0 L1 L2 L3) as [_ R].
  destruct m; (eexists; eexists; split; [exact R|]); simpl;
    (eapply sort_done; [reflexivity | apply argsort_stable_admissible]).
Qed.

Lemma best_worst_resolved sym m b w c h :
  best_worst sym (metric_label m) = Ok (b, w, c, h) ->
  c = fst (resolve m) /\ h = snd (resolve m).
Proof.
  destruct m; unfold best_worst; simpl;
    match goal with
    | |- context [bind ?x _] => destruct x as [[? ?]|]; simpl
    end; intros H; try discriminate; injection H as _ _ <- <-; auto.
Qed.

(** A finished run is made of the components above. *)
Lemma run_finished_components t sel m s :
  run t sel (metric_label m) (Finished s) ->
  normalise (read_table t) = Ok (df s) /\
  symbol_rows (df s) sel = Ok (sym_df s) /\
  best_worst (sym_df s) (metric_label m)
    = Ok (best_row s, worst_row s, fst (resolve m), snd (resolve m)) /\
  metric_col s = fst (resolve m) /\
  higher_is_better s = snd (resolve m) /\
  ranking_by_label (sym_df s) (metric_label m) (fst (resolve m))
    (snd (resolve m)) (Ok (rank_df s)).
Proof.
  intros H. apply run_finished_inv in H.
  destruct H as (p & sorted & _ & Hp & Hsort & ->).
  apply prepare_ok in Hp. destruct Hp as (Hn & Hs & Hb & Hr).
  destruct (best_worst_resolved _ _ _ _ _ _ Hb) as [Ec Eh].
  simpl. rewrite Ec, Eh in *. repeat split; auto.
  exists (p_rank_df p). split; auto.
Qed.

(** The script always has an outcome. *)
Lemma run_total t sel m :
  rectangular t = true -> exists o, run t sel (metric_label m) o.
Proof.
  intros Hr.
  destruct (missing_columns (read_table t)) as [|c l] eqn:Hm.
  2:{ eexists. apply run_stopped. rewrite Hm. discriminate. }
  destruct (prepare (read_table t) sel (metric_label m)) as [p|e] eqn:Hp.
  2:{ exists (Raised e). apply run_raised; auto. }
  pose proof (prepare_ok _ _ _ _ Hp) as (Hn & Hs & Hb & Hrank).
  destruct (best_worst_resolved _ _ _ _ _ _ Hb) as [Ec Eh].
  destruct (subset_sources t _ sel _ Hr Hm Hn Hs)
    as (names & k1 & k2 & k3 & L0 & L1 & L2 & L3 & _).
  destruct (ranking_exists _ m names k1 k2 k3 (fst (resolve m)) L0 L1 L2 L3)
    as (out & r & R & Hsort).
  rewrite Hrank in R. injection R as <-.
  exists (Finished (finish p out)). eapply run_finished; eauto.
  rewrite Ec, Eh. exact Hsort.
Qed.

(** ** The scenarios of the specification *)

Example scenario_by_percent :
  exists p x y,
    prepare (read_table scenario) (Text "EURUSD") "% Filled Volume" = Ok p /\
    stream_name (p_best_row p) = Some (SCell (Text "LP_B")) /\
    stream_name (p_worst_row p) = Some (SCell (Text "LP_A")) /\
    metric_value (p_metric_col p) (p_best_row p) = Some x /\
    metric_value (p_metric_col p) (p_worst_row p) = Some y /\
    nearest_to x 921 10 = true /\ nearest_to y 873 10 = true /\
    p_higher_is_better p = true.
Proof.
  eexists. eexists. eexists. split; [vm_compute; reflexivity|].
  repeat split.
Qed.

Example scenario_by_latency :
  exists p x y,
    prepare (read_table scenario) (Text "EURUSD") "Avg Fill Latency (ms)" = Ok p /\
    stream_name (p_best_row p) = Some (SCell (Text "LP_B")) /\
    stream_name (p_worst_row p) = Some (SCell (Text "LP_A")) /\
    metric_value (p_metric_col p) (p_best_row p) = Some x /\
    metric_value (p_metric_col p) (p_worst_row p) = Some y /\
    nearest_to x 95 1 = true /\ nearest_to y 120 1 = true /\
    p_higher_is_better p = false.
Proof.
  eexists. eexists. eexists. split; [vm_compute; reflexivity|].
  repeat split.
Qed.

Example scenario_ranking_by_latency (o : result DataFrame) :
  ranking_by_label scenario_sym "Avg Fill Latency (ms)" "Avg_Latency_ms" false o ->
  exists out, o = Ok out /\
    lookup_col "LP Name" (cols out) = Some (ObjCol [Text "LP_B"; Text "LP_A"]).
Proof.
  intros (r & R & Hsort). vm_compute in R. injection R as <-.
  eapply sort_values_float in Hsort; [|reflexivity].
  destruct Hsort as (ix & (p & -> & P & S) & ->).
  eexists. split; [reflexivity|].
  apply Permutation_sym in P. vm_compute in P.
  apply Permutation_length_2_inv in P. destruct P as [->| ->].
  - exfalso. inversion S as [|a l _ H]; subst.
    inversion H as [|b l' Hb _]; subst. vm_compute in Hb. discriminate.
  - reflexivity.
Qed.

(** * Further properties of the script *)

(** ** The symbol subset, row by row *)

Lemma cell_eqb_eq a b : cell_eqb a b = true -> a = b.
Proof.
  destruct a, b; simpl; try discriminate.
  intros H. apply String.eqb_eq in H. congruence.
Qed.

Lemma cell_eqb_missing a : cell_eqb a Missing = false.
Proof. destruct a; reflexivity. Qed.

Lemma filter_map_comm {A B} (f : A -> B) (p : B -> bool) (l : list A) :
  filter p (map f l) = map f (filter (fun x => p (f x)) l).
Proof.
  induction l as [|x l IH]; simpl; auto.
  destruct (p (f x)); simpl; rewrite IH; reflexivity.
Qed.

Lemma take_map_S {A} ix (x : A) l : take (map S ix) (x :: l) = take ix l.
Proof.
  induction ix as [|i ix IH]; simpl; auto. rewrite IH. reflexivity.
Qed.

Lemma select_as_take {A} mask (l : list A) :
  List.length l = List.length mask ->
  select mask l
  = take (filter (fun i => nth i mask false) (seq 0 (List.length mask))) l.
Proof.
  revert l. induction mask as [|b mask IH]; intros [|x l] H; simpl in *;
    try discriminate; auto.
  injection H as H.
  rewrite <- seq_shift, filter_map_comm. simpl.
  destruct b; simpl; rewrite take_map_S, <- IH; auto.
Qed.

Lemma take_seq ix n :
  Forall (fun i => i < n) ix -> take ix (seq 0 n) = ix.
Proof.
  induction 1 as [|i ix Hi _ IH]; simpl; auto.
  rewrite nth_error_seq. apply Nat.ltb_lt in Hi. rewrite Hi, IH. reflexivity.
Qed.

Lemma matching_positions_bound symbols sel :
  Forall (fun i => i < List.length symbols) (matching_positions symbols sel).
Proof.
  apply Forall_forall. intros i Hi. unfold matching_positions in Hi.
  apply filter_In in Hi. destruct Hi as [Hi _]. apply in_seq in Hi. lia.
Qed.

Lemma eq_mask_positions symbols sel :
  filter (fun i => nth i (map (fun x => cell_eqb x sel) symbols) false)
    (seq 0 (List.length (map (fun x => cell_eqb x sel) symbols)))
  = matching_positions symbols sel.
Proof.
  unfold matching_positions. rewrite length_map.
  apply filter_ext_in. intros i Hi. apply in_seq in Hi.
  change false with ((fun x => cell_eqb x sel) Missing) at 1.
  rewrite map_nth. reflexivity.
Qed.

Lemma select_matching symbols sel :
  select (map (fun x => cell_eqb x sel) symbols) symbols
  = repeat sel
      (List.length (select (map (fun x => cell_eqb x sel) symbols) symbols)).
Proof.
  induction symbols as [|c l IH]; simpl; auto.
  destruct (cell_eqb c sel) eqn:E; simpl; auto.
  apply cell_eqb_eq in E. subst c. f_equal. exact IH.
Qed.

Lemma col_select_as_take mask c :
  col_len c = List.length mask ->
  col_select mask c
  = col_take (filter (fun i => nth i mask false) (seq 0 (List.length mask))) c.
Proof.
  destruct c as [l|l]; simpl; intros H; f_equal; apply select_as_take; exact H.
Qed.

(** What [symbol_rows] yields on a normalised upload, in terms of the
    upload's symbol column. *)
Lemma subset_rows t sel d sym symbols :
  rectangular t = true ->
  normalise (read_table t) = Ok d ->
  symbol_rows d sel = Ok sym ->
  lookup_col "Core Symbol" (cols (read_table t)) = Some (ObjCol symbols) ->
  List.length symbols = nrows d /\
  index d = seq 0 (List.length symbols) /\
  sym = filter_rows d (map (fun x => cell_eqb x sel) symbols) /\
  index sym = matching_positions symbols sel /\
  (forall name c, lookup_col name (cols d) = Some c ->
     lookup_col name (cols sym)
     = Some (col_take (matching_positions symbols sel) c)).
Proof.
  intros Hr Hn Hs L.
  pose proof (read_table_well_formed t Hr) as Hwf0.
  pose proof (normalise_well_formed _ _ Hwf0 Hn) as Hwf.
  pose proof (lookup_col_len _ _ _ Hwf0 L) as Hlen. simpl in Hlen.
  pose proof (normalise_index _ _ Hn) as Hi.
  assert (Hnr : List.length symbols = nrows d).
  { unfold nrows in *. rewrite Hi. exact Hlen. }
  assert (Hidx : index d = seq 0 (List.length symbols)).
  { rewrite Hi. simpl. unfold nrows in Hlen. simpl in Hlen.
    rewrite length_seq in Hlen. rewrite Hlen. reflexivity. }
  apply symbol_rows_ok in Hs. destruct Hs as (c & Lc & ->).
  rewrite (normalise_other_columns _ _ "Core Symbol" Hn) in Lc.
  2:{ simpl. intros [H|[H|[H|[]]]]; discriminate. }
  rewrite L in Lc. injection Lc as <-.
  split; [exact Hnr|]. split; [exact Hidx|]. split; [reflexivity|]. split.
  - cbn [index filter_rows eq_mask]. rewrite select_as_take.
    + rewrite eq_mask_positions, Hidx. apply take_seq.
      apply matching_positions_bound.
    + rewrite length_map, Hidx, length_seq. reflexivity.
  - intros name c Lc. rewrite lookup_filter_rows, Lc. simpl. f_equal.
    rewrite col_select_as_take.
    + cbn [eq_mask]. rewrite eq_mask_positions. reflexivity.
    + cbn [eq_mask]. rewrite length_map.
      rewrite (lookup_col_len _ _ _ Hwf Lc). symmetry. exact Hnr.
Qed.

(** X1.  The symbol subset of a normalised upload consists of the
    rows whose symbol cell equals the selected symbol, in the order of
    the upload and labelled by their positions in it; every column of
    the subset is the column of the frame taken at those positions,
    and its symbol column holds the selected symbol only.  A row whose
    symbol is blank is in no subset. *)
Theorem subset_is_the_matching_rows
  (t : RawTable) (sel : cell) (d sym : DataFrame) (symbols : list cell) :
  rectangular t = true ->
  normalise (read_table t) = Ok d ->
  symbol_rows d sel = Ok sym ->
  lookup_col "Core Symbol" (cols (read_table t)) = Some (ObjCol symbols) ->
  index sym = matching_positions symbols sel /\
  (forall name c, lookup_col name (cols d) = Some c ->
     lookup_col name (cols sym)
     = Some (col_take (matching_positions symbols sel) c)) /\
  (forall i, In i (index sym) <->
     nth_error symbols i = Some sel /\ sel <> Missing) /\
  lookup_col "Core Symbol" (cols sym) = Some (ObjCol (repeat sel (nrows sym))).
Proof.
  intros Hr Hn Hs L.
  destruct (subset_rows t sel d sym symbols Hr Hn Hs L)
    as (Hnr & Hidx & E & Hi & Hc).
  split; [exact Hi|]. split; [exact Hc|]. split.
  - intros i. rewrite Hi. unfold matching_positions.
    rewrite filter_In, in_seq. split.
    + intros [Hlt Heq]. pose proof (cell_eqb_eq _ _ Heq) as Heq'. split.
      * rewrite <- Heq'. apply nth_error_nth'. lia.
      * intros ->. rewrite cell_eqb_missing in Heq. discriminate.
    + intros [Hnth Hne]. split.
      * split; [lia|]. simpl. apply nth_error_Some. congruence.
      * rewrite (nth_error_nth _ _ _ Hnth).
        destruct sel; [apply String.eqb_refl|congruence].
  - subst sym. rewrite lookup_filter_rows.
    rewrite (normalise_other_columns _ _ "Core Symbol" Hn).
    2:{ simpl. intros [H|[H|[H|[]]]]; discriminate. }
    rewrite L. simpl. f_equal. f_equal. unfold nrows. simpl.
    rewrite select_matching at 1. f_equal.
    apply select_length; rewrite length_map; auto.
Qed.

Lemma subset_is_the_matching_rows_witness :
  index scenario_sym = matching_positions [Text "EURUSD"; Text "EURUSD"]
                         (Text "EURUSD") /\
  (forall name c, lookup_col name (cols scenario_df) = Some c ->
     lookup_col name (cols scenario_sym)
     = Some (col_take (matching_positions [Text "EURUSD"; Text "EURUSD"]
                         (Text "EURUSD")) c)) /\
  (forall i, In i (index scenario_sym) <->
     nth_error [Text "EURUSD"; Text "EURUSD"] i = Some (Text "EURUSD") /\
     Text "EURUSD" <> Missing) /\
  lookup_col "Core Symbol" (cols scenario_sym)
    = Some (ObjCol (repeat (Text "EURUSD") (nrows scenario_sym))).
Proof.
  apply (subset_is_the_matching_rows scenario (Text "EURUSD")
           scenario_df scenario_sym [Text "EURUSD"; Text "EURUSD"]);
    vm_compute; reflexivity.
Defined.

(** ** The rows shown as best and worst *)

Lemma subset_members t sel d sym symbols i :
  rectangular t = true ->
  normalise (read_table t) = Ok d ->
  symbol_rows d sel = Ok sym ->
  lookup_col "Core Symbol" (cols (read_table t)) = Some (ObjCol symbols) ->
  In i (index sym) -> nth_error symbols i = Some sel /\ sel <> Missing.
Proof.
  intros Hr Hn Hs L Hin.
  destruct (subset_rows t sel d sym symbols Hr Hn Hs L) as (_ & _ & _ & Hi & _).
  rewrite Hi in Hin. unfold matching_positions in Hin.
  apply filter_In in Hin. destruct Hin as [Hlt Heq]. apply in_seq in Hlt.
  pose proof (cell_eqb_eq _ _ Heq) as Heq'. split.
  - rewrite <- Heq'. apply nth_error_nth'. lia.
  - intros ->. rewrite cell_eqb_missing in Heq. discriminate.
Qed.

Lemma subset_symbol_column t sel d sym symbols :
  rectangular t = true ->
  normalise (read_table t) = Ok d ->
  symbol_rows d sel = Ok sym ->
  lookup_col "Core Symbol" (cols (read_table t)) = Some (ObjCol symbols) ->
  exists n, lookup_col "Core Symbol" (cols sym) = Some (ObjCol (repeat sel n)).
Proof.
  intros Hr Hn Hs L.
  destruct (subset_rows t sel d sym symbols Hr Hn Hs L) as (_ & _ & -> & _ & _).
  rewrite lookup_filter_rows.
  rewrite (normalise_other_columns _ _ "Core Symbol" Hn).
  2:{ simpl. intros [H|[H|[H|[]]]]; discriminate. }
  rewrite L. simpl. rewrite select_matching. eauto.
Qed.

Lemma position_nth_error l x i : position l x = Some i -> nth_error l i = Some x.
Proof.
  revert i. induction l as [|y l IH]; intros i; simpl; [discriminate|].
  destruct (Nat.eqb x y) eqn:E.
  - intros H. injection H as <-. apply Nat.eqb_eq in E. subst. reflexivity.
  - destruct (position l x) as [j|]; simpl; [|discriminate].
    intros H. injection H as <-. simpl. apply IH. reflexivity.
Qed.

Lemma row_fields_lookup cs i f name c :
  row_fields cs i = Some f -> lookup_col name cs = Some c ->
  exists v, col_nth c i = Some v /\ field name f = Some v.
Proof.
  intros Hf L. rewrite (field_row_fields _ _ _ name Hf), L.
  revert f Hf. induction cs as [|[n c0] cs IH]; intros f Hf; simpl in *;
    [discriminate|].
  destruct (col_nth c0 i) as [v|] eqn:Ev; [|discriminate].
  destruct (row_fields cs i) as [r|] eqn:Er; [|discriminate].
  destruct (String.eqb name n).
  - injection L as <-. eauto.
  - eapply IH; eauto.
Qed.

Lemma loc_inv d l r :
  loc d l = Ok r ->
  exists i, position (index d) l = Some i /\
    row_fields (cols d) i = Some (fields r) /\ label r = l.
Proof.
  unfold loc. destruct (position (index d) l) as [i|]; [|discriminate].
  destruct (row_fields (cols d) i) as [f|] eqn:Hf; [|discriminate].
  intros H. injection H as <-. exists i. auto.
Qed.

Lemma extremes_are_located d name b w :
  (max_then_min d name = Ok (b, w) \/ min_then_max d name = Ok (b, w)) ->
  (exists l, loc d l = Ok b) /\ (exists l, loc d l = Ok w).
Proof.
  unfold max_then_min, min_then_max.
  destruct (float_series d name) as [v|]; cbn [bind].
  2:{ intros [H|H]; discriminate. }
  intros [H|H].
  - destruct (idxmax (index d) v) as [i|]; cbn [bind] in H; [|discriminate].
    destruct (loc d i) as [rb|] eqn:Eb; cbn [bind] in H; [|discriminate].
    destruct (idxmin (index d) v) as [j|]; cbn [bind] in H; [|discriminate].
    destruct (loc d j) as [rw|] eqn:Ew; cbn [bind] in H; [|discriminate].
    injection H as <- <-. eauto.
  - destruct (idxmin (index d) v) as [i|]; cbn [bind] in H; [|discriminate].
    destruct (loc d i) as [rb|] eqn:Eb; cbn [bind] in H; [|discriminate].
    destruct (idxmax (index d) v) as [j|]; cbn [bind] in H; [|discriminate].
    destruct (loc d j) as [rw|] eqn:Ew; cbn [bind] in H; [|discriminate].
    injection H as <- <-. eauto.
Qed.

Lemma best_worst_located sym metric b w c h :
  best_worst sym metric = Ok (b, w, c, h) ->
  (exists l, loc sym l = Ok b) /\ (exists l, loc sym l = Ok w).
Proof.
  unfold best_worst.
  destruct (String.eqb metric "% Filled Volume");
    [|destruct (String.eqb metric "Avg Fill Latency (ms)")];
    match goal with
    | |- context [bind ?x _] => destruct x as [[rb rw]|] eqn:E
    end; cbn [bind fst snd]; intros H; try discriminate;
    injection H as <- <- _ _;
    eapply extremes_are_located; eauto.
Qed.

(** X2.  Whatever the metric, the rows the script shows as best and
    worst are rows of the selected symbol: their symbol cell is the
    selected symbol, and their labels are positions of the upload at
    which the symbol column holds it. *)
Theorem kpi_rows_belong_to_the_selection
  (t : RawTable) (sel : cell) (metric : string) (p : Prepared)
  (symbols : list cell) :
  rectangular t = true ->
  lookup_col "Core Symbol" (cols (read_table t)) = Some (ObjCol symbols) ->
  prepare (read_table t) sel metric = Ok p ->
  field "Core Symbol" (fields (p_best_row p)) = Some (SCell sel) /\
  field "Core Symbol" (fields (p_worst_row p)) = Some (SCell sel) /\
  nth_error symbols (label (p_best_row p)) = Some sel /\
  nth_error symbols (label (p_worst_row p)) = Some sel.
Proof.
  intros Hr L Hp. apply prepare_ok in Hp. destruct Hp as (Hn & Hs & Hb & _).
  destruct (subset_symbol_column _ _ _ _ _ Hr Hn Hs L) as [n Lc].
  destruct (best_worst_located _ _ _ _ _ _ Hb) as [[lb Hlb] [lw Hlw]].
  assert (A : forall l r, loc (p_sym_df p) l = Ok r ->
            field "Core Symbol" (fields r) = Some (SCell sel) /\
            nth_error symbols (label r) = Some sel).
  { intros l r Hl. apply loc_inv in Hl. destruct Hl as (i & Hpos & Hf & Hlab).
    split.
    - destruct (row_fields_lookup _ _ _ _ _ Hf Lc) as (v & Hv & ->).
      simpl in Hv. destruct (nth_error (repeat sel n) i) as [x|] eqn:Ex;
        [|discriminate].
      apply nth_error_In, repeat_spec in Ex. subst x.
      injection Hv as <-. reflexivity.
    - apply position_nth_error, nth_error_In in Hpos. rewrite Hlab.
      eapply subset_members; eauto. }
  destruct (A _ _ Hlb) as [A1 A2]. destruct (A _ _ Hlw) as [A3 A4]. auto.
Qed.

Lemma kpi_rows_belong_to_the_selection_witness :
  exists p,
    prepare (read_table scenario) (Text "EURUSD") "Total Filled Volume" = Ok p /\
    field "Core Symbol" (fields (p_best_row p)) = Some (SCell (Text "EURUSD")) /\
    field "Core Symbol" (fields (p_worst_row p)) = Some (SCell (Text "EURUSD")) /\
    nth_error [Text "EURUSD"; Text "EURUSD"] (label (p_best_row p))
      = Some (Text "EURUSD") /\
    nth_error [Text "EURUSD"; Text "EURUSD"] (label (p_worst_row p))
      = Some (Text "EURUSD").
Proof.
  eexists. split; [vm_compute; reflexivity|].
  apply (kpi_rows_belong_to_the_selection scenario (Text "EURUSD")
           "Total Filled Volume" _ [Text "EURUSD"; Text "EURUSD"]);
    vm_compute; reflexivity.
Defined.

(** ** Selections that match no row *)

Lemma select_none {A} mask (l : list A) :
  Forall (fun b => b = false) mask -> select mask l = [].
Proof.
  intros H. revert l. induction H as [|b mask Hb _ IH]; intros [|x l];
    simpl; auto. subst b. apply IH.
Qed.

Lemma best_worst_no_rows sym metric k1 k2 k3 :
  well_formed sym = true -> nrows sym = 0 ->
  lookup_col pct_col (cols sym) = Some (FloatCol k1) ->
  lookup_col lat_col (cols sym) = Some (FloatCol k2) ->
  lookup_col vol_col (cols sym) = Some (FloatCol k3) ->
  best_worst sym metric = Raise ValueError_empty.
Proof.
  intros Hwf H0 L1 L2 L3.
  pose proof (lookup_col_len _ _ _ Hwf L1) as N1.
  pose proof (lookup_col_len _ _ _ Hwf L2) as N2.
  pose proof (lookup_col_len _ _ _ Hwf L3) as N3.
  simpl in N1, N2, N3. rewrite H0 in N1, N2, N3.
  destruct k1; [|discriminate]. destruct k2; [|discriminate].
  destruct k3; [|discriminate].
  unfold pct_col, lat_col, vol_col in *.
  unfold best_worst, max_then_min, min_then_max, float_series, getitem.
  rewrite L1, L2, L3.
  destruct (String.eqb metric "% Filled Volume");
    [|destruct (String.eqb metric "Avg Fill Latency (ms)")]; reflexivity.
Qed.

(** The script on a selection that no symbol cell equals. *)
Lemma unmatched_selection t sel metric d symbols opts :
  rectangular t = true ->
  missing_columns (read_table t) = [] ->
  normalise (read_table t) = Ok d ->
  lookup_col "Core Symbol" (cols (read_table t)) = Some (ObjCol symbols) ->
  symbol_options symbols = Ok opts ->
  (forall c, In c symbols -> cell_eqb c sel = false) ->
  prepare (read_table t) sel metric = Raise ValueError_empty.
Proof.
  intros Hr Hm Hn L Ho Hnone.
  pose proof (read_table_well_formed t Hr) as Hwf0.
  pose proof (normalise_well_formed _ _ Hwf0 Hn) as Hwf.
  assert (Ld : lookup_col "Core Symbol" (cols d) = Some (ObjCol symbols)).
  { rewrite (normalise_other_columns _ _ "Core Symbol" Hn); auto.
    simpl. intros [H|[H|[H|[]]]]; discriminate. }
  unfold prepare. rewrite Hn. cbn [bind].
  unfold symbol_box, symbol_rows, getitem. rewrite Ld. cbn [bind].
  rewrite Ho. cbn [bind].
  set (sym := filter_rows d (eq_mask (ObjCol symbols) sel)).
  assert (Hs : symbol_rows d sel = Ok sym).
  { unfold symbol_rows, getitem. rewrite Ld. reflexivity. }
  destruct (subset_shape t d sel sym Hr Hn Hs) as [Hwfs Hk].
  destruct (Hk FilledPercent) as [k1 L1].
  destruct (Hk AvgLatency) as [k2 L2].
  destruct (Hk TotalVolume) as [k3 L3].
  rewrite (best_worst_no_rows sym metric k1 k2 k3 Hwfs); auto.
  unfold nrows, sym. simpl. rewrite select_none; auto.
  rewrite Forall_map. apply Forall_forall. exact Hnone.
Qed.

(** X3.  When no symbol cell of the upload equals the selected symbol
    (the missing value never equals a cell), the subset is empty and
    the only outcome of the script, for every metric, is the
    empty-sequence error raised by the extremum selection. *)
Theorem unmatched_selection_raises
  (t : RawTable) (sel : cell) (metric : string) (d : DataFrame)
  (symbols opts : list cell) :
  rectangular t = true ->
  missing_columns (read_table t) = [] ->
  normalise (read_table t) = Ok d ->
  lookup_col "Core Symbol" (cols (read_table t)) = Some (ObjCol symbols) ->
  symbol_options symbols = Ok opts ->
  (forall c, In c symbols -> cell_eqb c sel = false) ->
  forall o, run t sel metric o <-> o = Raised ValueError_empty.
Proof.
  intros Hr Hm Hn L Ho Hnone. apply run_raised_only; auto.
  eapply unmatched_selection; eauto.
Qed.

Lemma unmatched_selection_raises_witness :
  (forall c, In c [Text "EURUSD"; Text "EURUSD"] ->
     cell_eqb c (Text "GBPUSD") = false) /\
  forall o, run scenario (Text "GBPUSD") "% Filled Volume" o
            <-> o = Raised ValueError_empty.
Proof.
  assert (H : forall c, In c [Text "EURUSD"; Text "EURUSD"] ->
                cell_eqb c (Text "GBPUSD") = false).
  { intros c [<-|[<-|[]]]; reflexivity. }
  split; [exact H|].
  apply (unmatched_selection_raises scenario (Text "GBPUSD") "% Filled Volume"
           scenario_df [Text "EURUSD"; Text "EURUSD"] [Text "EURUSD"]);
    try (vm_compute; reflexivity). exact H.
Defined.

(** X4.  An upload that has the required columns and no data row is
    not reported as empty: whatever is selected, the script ends in
    the empty-sequence error of the extremum selection. *)
Theorem upload_without_rows_raises
  (t : RawTable) (sel : cell) (metric : string) :
  missing_columns (read_table t) = [] ->
  Forall (fun nc => snd nc = []) t ->
  forall o, run t sel metric o <-> o = Raised ValueError_empty.
Proof.
  intros Hm Hempty.
  assert (Hr : rectangular t = true).
  { destruct t as [|[n c] t]; auto. unfold rectangular.
    apply forallb_forall. intros [n' c'] Hin.
    rewrite Forall_forall in Hempty.
    pose proof (Hempty _ Hin) as E1.
    pose proof (Hempty (n, c) (or_introl eq_refl)) as E2.
    simpl in *. subst. reflexivity. }
  destruct (sources_present t Hm) as (c1 & c2 & c3 & L1 & L2 & L3).
  assert (Hnil : forall name cells,
            lookup_col name (cols (read_table t)) = Some (ObjCol cells) ->
            cells = []).
  { intros name cells L. apply lookup_read_table in L.
    destruct L as (cells' & E & Hin). injection E as <-.
    rewrite Forall_forall in Hempty. apply (Hempty _ Hin). }
  pose proof (Hnil _ _ L1). pose proof (Hnil _ _ L2). pose proof (Hnil _ _ L3).
  subst c1 c2 c3.
  destruct (normalise_cases t [] [] [] L1 L2 L3)
    as [(d & Hn & _)|(text & _ & [F|[[_ F]|[_ [_ F]]]])];
    try (destruct F as (pre & c & post & E & _); destruct pre; discriminate).
  destruct (missing_nil_lookup _ "Core Symbol" Hm) as [c0 L0]; [simpl; tauto|].
  destruct (lookup_read_table _ _ _ L0) as (symbols & -> & _).
  pose proof (Hnil _ _ L0). subst symbols.
  apply run_raised_only; auto.
  eapply (unmatched_selection t sel metric d [] []); eauto.
  intros c [].
Qed.

Lemma upload_without_rows_raises_witness :
  missing_columns (read_table headers_only) = [] /\
  Forall (fun nc => snd nc = []) headers_only /\
  forall o, run headers_only Missing "% Filled Volume" o
            <-> o = Raised ValueError_empty.
Proof.
  assert (H : Forall (fun nc : string * list cell => snd nc = []) headers_only).
  { repeat constructor. }
  split; [reflexivity|]. split; [exact H|].
  apply (upload_without_rows_raises headers_only Missing "% Filled Volume");
    [reflexivity|exact H].
Defined.

(** ** The options of the symbol select box *)

Lemma same_key_eq a b : same_key a b = true <-> a = b.
Proof.
  destruct a, b; simpl; split; intros H; try discriminate; auto.
  - apply String.eqb_eq in H. congruence.
  - injection H as ->. apply String.eqb_refl.
Qed.

Lemma unique_from_complete seen l c :
  In c l -> In c (unique_from seen l) \/ In c seen.
Proof.
  revert seen. induction l as [|x l IH]; intros seen Hin; simpl in *; [tauto|].
  destruct (existsb (same_key x) seen) eqn:E.
  - destruct Hin as [<-|Hin].
    + right. apply existsb_exists in E. destruct E as [y [Hy E]].
      apply same_key_eq in E. subst. exact Hy.
    + apply IH. exact Hin.
  - destruct Hin as [<-|Hin]; [left; left; reflexivity|].
    destruct (IH (x :: seen) Hin) as [H|[H|H]]; auto.
    + left. right. exact H.
    + left. left. exact H.
Qed.

Lemma unique_In l c : In c (unique l) <-> In c l.
Proof.
  split.
  - apply unique_from_In.
  - intros H. destruct (unique_from_complete [] l c H) as [H'|[]]. exact H'.
Qed.

Lemma texts_of_none l : In Missing l -> texts_of l = None.
Proof.
  induction l as [|[s|] l IH]; simpl; intros H; auto.
  - destruct H.
  - destruct H as [H|H]; [discriminate|]. rewrite (IH H). reflexivity.
Qed.

Lemma mixed_symbols_unsortable symbols s :
  In Missing symbols -> In (Text s) symbols ->
  symbol_options symbols = Raise TypeError.
Proof.
  intros Hm Ht. unfold symbol_options.
  apply (proj2 (unique_In _ _)) in Hm. apply (proj2 (unique_In _ _)) in Ht.
  rewrite (texts_of_none _ Hm).
  destruct (unique symbols) as [|[x|] [|y u]]; try reflexivity.
  destruct Ht as [H|[]]. discriminate.
Qed.

(** X5.  When the symbol column, a column of texts and blanks,
    holds both a blank cell and a text, the options of the select box
    cannot be sorted ([<] is not defined between a float and a [str]): on an upload that
    passes the schema check and normalises, the only outcome of the
    script, whatever is selected, is a [TypeError]. *)
Theorem blank_symbol_among_texts_raises
  (t : RawTable) (sel : cell) (metric : string) (d : DataFrame)
  (symbols : list cell) (s : string) :
  missing_columns (read_table t) = [] ->
  normalise (read_table t) = Ok d ->
  lookup_col "Core Symbol" (cols (read_table t)) = Some (ObjCol symbols) ->
  In Missing symbols -> In (Text s) symbols ->
  forall o, run t sel metric o <-> o = Raised TypeError.
Proof.
  intros Hm Hn L H1 H2. apply run_raised_only; auto.
  unfold prepare. rewrite Hn. cbn [bind].
  unfold symbol_box, getitem.
  rewrite (normalise_other_columns _ _ "Core Symbol" Hn).
  2:{ simpl. intros [H|[H|[H|[]]]]; discriminate. }
  rewrite L. cbn [bind].
  rewrite (mixed_symbols_unsortable symbols s H1 H2). reflexivity.
Qed.

Lemma blank_symbol_among_texts_raises_witness :
  In Missing [Text "EURUSD"; Missing] /\
  In (Text "EURUSD") [Text "EURUSD"; Missing] /\
  forall o, run one_blank_symbol (Text "EURUSD") "% Filled Volume" o
            <-> o = Raised TypeError.
Proof.
  split; [simpl; auto|]. split; [simpl; auto|].
  apply (blank_symbol_among_texts_raises one_blank_symbol (Text "EURUSD")
           "% Filled Volume"
           (the_frame (normalise (read_table one_blank_symbol)))
           [Text "EURUSD"; Missing] "EURUSD");
    try (vm_compute; reflexivity); simpl; auto.
Defined.

Lemma ascii_compare_refl x : Ascii.compare x x = Eq.
Proof. unfold Ascii.compare. apply N.compare_refl. Qed.

Lemma string_leb_trans a b c :
  String.leb a b = true -> String.leb b c = true -> String.leb a c = true.
Proof.
  unfold String.leb. revert b c.
  induction a as [|x a IH]; intros [|y b] [|z c]; simpl; try congruence.
  destruct (Ascii.compare x y) eqn:E1; try congruence;
    destruct (Ascii.compare y z) eqn:E2; try congruence.
  - apply Ascii.compare_eq_iff in E1, E2. subst.
    rewrite ascii_compare_refl. apply IH.
  - apply Ascii.compare_eq_iff in E1. subst. rewrite E2. auto.
  - apply Ascii.compare_eq_iff in E2. subst. rewrite E1. auto.
  - unfold Ascii.compare in *.
    rewrite N.compare_lt_iff in E1, E2.
    assert (E : (N_of_ascii x ?= N_of_ascii z)%N = Lt)
      by (apply N.compare_lt_iff; lia).
    rewrite E. auto.
Qed.

Lemma insert_text_sorted s l :
  StronglySorted (fun a b => String.leb a b = true) l ->
  StronglySorted (fun a b => String.leb a b = true) (insert_text s l).
Proof.
  induction 1 as [|t l S IH Ht]; simpl.
  - constructor; constructor.
  - destruct (String.leb s t) eqn:E.
    + constructor; [constructor; auto|]. constructor; auto.
      eapply Forall_impl; [|exact Ht]. intros a Ha.
      eapply string_leb_trans; eauto.
    + constructor; auto. apply Forall_forall. intros a Ha.
      apply insert_text_In in Ha. destruct Ha as [->|Ha].
      * destruct (String.leb_total s t); congruence.
      * rewrite Forall_forall in Ht. auto.
Qed.

Lemma sort_texts_sorted l :
  StronglySorted (fun a b => String.leb a b = true) (sort_texts l).
Proof.
  induction l as [|s l IH]; simpl; [constructor|].
  apply insert_text_sorted. exact IH.
Qed.

Lemma insert_text_perm s l : Permutation (insert_text s l) (s :: l).
Proof.
  induction l as [|t l IH]; simpl; auto.
  destruct (String.leb s t); auto.
  eapply Permutation_trans; [apply perm_skip; exact IH|apply perm_swap].
Qed.

Lemma sort_texts_perm l : Permutation (sort_texts l) l.
Proof.
  induction l as [|s l IH]; simpl; auto.
  eapply Permutation_trans; [apply insert_text_perm|]. constructor. exact IH.
Qed.

Lemma unique_from_NoDup seen l :
  NoDup (unique_from seen l) /\
  forall c, In c (unique_from seen l) -> ~ In c seen.
Proof.
  revert seen. induction l as [|x l IH]; intros seen; simpl.
  - split; [constructor|tauto].
  - destruct (existsb (same_key x) seen) eqn:E.
    + apply IH.
    + destruct (IH (x :: seen)) as [N D]. split.
      * constructor; auto. intros Hin. apply (D x Hin). left. reflexivity.
      * intros c [<-|Hc].
        -- intros Hin. assert (existsb (same_key x) seen = true); [|congruence].
           apply existsb_exists. exists x. split; auto.
           apply same_key_eq. reflexivity.
        -- intros Hin. apply (D c Hc). right. exact Hin.
Qed.

Lemma NoDup_map_Text ts : NoDup ts -> NoDup (map Text ts).
Proof.
  induction 1 as [|s ts Hs _ IH]; simpl; constructor; auto.
  intros Hin. apply in_map_iff in Hin. destruct Hin as (s' & E & Hin).
  injection E as ->. contradiction.
Qed.

(** X6.  The options of the symbol select box are the distinct values
    of the symbol column, a column of texts and blanks: each value of
    the column is offered, once, and nothing else is; texts come in
    ascending order of their code points, and a column of blanks
    offers the missing value alone. *)
Theorem symbol_options_spec (symbols opts : list cell) :
  symbol_options symbols = Ok opts ->
  (forall c, In c opts <-> In c symbols) /\
  NoDup opts /\
  ((exists ts, opts = map Text ts /\
      StronglySorted (fun a b => String.leb a b = true) ts) \/
   opts = [Missing]).
Proof.
  unfold symbol_options. intros H.
  destruct (texts_of (unique symbols)) as [ts|] eqn:E.
  - injection H as <-. pose proof (texts_of_map _ _ E) as Eu.
    split; [|split].
    + intros c. rewrite <- (unique_In symbols c), Eu, !in_map_iff. split.
      * intros (s & <- & Hs). exists s. split; auto.
        apply (Permutation_in _ (sort_texts_perm ts)). exact Hs.
      * intros (s & <- & Hs). exists s. split; auto.
        apply (Permutation_in _ (Permutation_sym (sort_texts_perm ts))).
        exact Hs.
    + apply NoDup_map_Text.
      eapply Permutation_NoDup; [apply Permutation_sym, sort_texts_perm|].
      destruct (unique_from_NoDup [] symbols) as [N _].
      fold (unique symbols) in N. rewrite Eu in N.
      eapply NoDup_map_inv; eauto.
    + left. exists (sort_texts ts). split; auto. apply sort_texts_sorted.
  - destruct (unique symbols) as [|[x|] [|y u]] eqn:Eu; try discriminate.
    injection H as <-. split; [|split].
    + intros c. rewrite <- (unique_In symbols c), Eu. tauto.
    + repeat constructor. simpl. tauto.
    + right. reflexivity.
Qed.

Lemma symbol_options_spec_witness :
  symbol_options [Text "GBPUSD"; Text "EURUSD"; Text "GBPUSD"]
    = Ok [Text "EURUSD"; Text "GBPUSD"] /\
  (forall c, In c [Text "EURUSD"; Text "GBPUSD"] <->
             In c [Text "GBPUSD"; Text "EURUSD"; Text "GBPUSD"]) /\
  NoDup [Text "EURUSD"; Text "GBPUSD"] /\
  ((exists ts, [Text "EURUSD"; Text "GBPUSD"] = map Text ts /\
      StronglySorted (fun a b => String.leb a b = true) ts) \/
   [Text "EURUSD"; Text "GBPUSD"] = [Missing]).
Proof.
  split; [reflexivity|].
  apply (symbol_options_spec [Text "GBPUSD"; Text "EURUSD"; Text "GBPUSD"]).
  reflexivity.
Defined.

(** ** Ties and the ends of the ranking *)

Lemma ltb_not_eqb x y : F64.ltb x y = true -> F64.eqb x y = false /\ F64.eqb y x = false.
Proof. intros H. split; F64Facts.float_cases. Qed.

Lemma more_favourable_not_eqb h x y :
  more_favourable h x y = true -> F64.eqb x y = false.
Proof.
  unfold more_favourable. destruct h; intros H; apply ltb_not_eqb in H; tauto.
Qed.

(** X7.  When all rows of a subset have the same metric value (a
    subset of one row, for instance), the best row and the worst row
    are one and the same: the first row of the subset. *)
Theorem tied_subset_best_is_worst
  (t : RawTable) (sel : cell) (m : Metric) (d sym : DataFrame)
  (k : list F64.float) :
  rectangular t = true ->
  normalise (read_table t) = Ok d ->
  symbol_rows d sel = Ok sym ->
  lookup_col (fst (resolve m)) (cols sym) = Some (FloatCol k) ->
  k <> [] -> no_nan k = true ->
  (forall x y, In x k -> In y k -> F64.eqb x y = true) ->
  exists r,
    row_at sym 0 = Some r /\
    best_worst sym (metric_label m)
      = Ok (r, r, fst (resolve m), snd (resolve m)).
Proof.
  intros Hr Hn Hs L Hne Hnan Htie.
  destruct (subset_shape t d sel sym Hr Hn Hs) as [Hwf _].
  destruct (best_worst_on_frame m sym k Hwf L (no_nan_some_number k Hne Hnan))
    as (b & w & p & q & vb & vw & E & R1 & R2 & N1 & N2 & _ & _ & _ & _ & H).
  destruct (H Hnan) as (_ & _ & F1 & F2).
  destruct k as [|x0 k]; [congruence|].
  assert (Hp : p = 0).
  { destruct p; auto. exfalso.
    specialize (F1 0 x0 (Nat.lt_0_succ _) eq_refl).
    apply more_favourable_not_eqb in F1.
    rewrite Htie in F1; [discriminate| |left; auto].
    eapply nth_error_In; eauto. }
  assert (Hq : q = 0).
  { destruct q; auto. exfalso.
    specialize (F2 0 x0 (Nat.lt_0_succ _) eq_refl).
    apply more_favourable_not_eqb in F2.
    rewrite Htie in F2; [discriminate|left; auto|].
    eapply nth_error_In; eauto. }
  subst p q. rewrite R1 in R2. injection R2 as <-.
  exists b. auto.
Qed.

Lemma tied_subset_best_is_worst_witness :
  exists r,
    row_at (subset_of tie_ab (Text "EURUSD")) 0 = Some r /\
    best_worst (subset_of tie_ab (Text "EURUSD")) (metric_label FilledPercent)
      = Ok (r, r, fst (resolve FilledPercent), snd (resolve FilledPercent)).
Proof.
  apply (tied_subset_best_is_worst tie_ab (Text "EURUSD") FilledPercent
           (the_frame (normalise (read_table tie_ab)))
           (subset_of tie_ab (Text "EURUSD")) [ninety; ninety]);
    try (vm_compute; reflexivity); try discriminate.
  intros x y [<-|[<-|[]]] [<-|[<-|[]]]; reflexivity.
Defined.

Lemma nth_seq_map {A} (l : list A) d :
  map (fun i => nth i l d) (seq 0 (List.length l)) = l.
Proof.
  induction l as [|x l IH]; simpl; auto.
  rewrite <- seq_shift, map_map. simpl. rewrite IH. reflexivity.
Qed.

Lemma take_nth {A} ix (l : list A) d :
  Forall (fun i => i < List.length l) ix ->
  take ix l = map (fun i => nth i l d) ix.
Proof.
  induction 1 as [|i ix Hi _ IH]; simpl; auto.
  destruct (nth_error l i) as [x|] eqn:E.
  - rewrite IH, (nth_error_nth l i d E). reflexivity.
  - apply nth_error_None in E. lia.
Qed.

Lemma take_perm {A} ix (l : list A) :
  Permutation ix (seq 0 (List.length l)) -> Permutation (take ix l) l.
Proof.
  intros P. destruct l as [|x l].
  - simpl in P. apply Permutation_sym, Permutation_nil in P. subst. constructor.
  - rewrite (take_nth ix (x :: l) x).
    + eapply Permutation_trans; [apply Permutation_map; exact P|].
      rewrite (nth_seq_map (x :: l) x). apply Permutation_refl.
    + apply Forall_forall. intros i Hi. apply (Permutation_in _ P) in Hi.
      apply in_seq in Hi. lia.
Qed.

Lemma sorted_last {A} (R : A -> A -> Prop) l z :
  StronglySorted R l -> (forall x, In x l -> R x x) ->
  nth_error l (List.length l - 1) = Some z ->
  forall x, In x l -> R x z.
Proof.
  induction 1 as [|a l S IH Ha]; intros Hrefl Hz x Hx; [destruct Hx|].
  destruct l as [|b l].
  - simpl in Hz. injection Hz as <-. destruct Hx as [<-|[]].
    apply Hrefl. left; auto.
  - assert (Hz' : nth_error (b :: l) (List.length (b :: l) - 1) = Some z).
    { simpl in *. rewrite Nat.sub_0_r in *. exact Hz. }
    destruct Hx as [<-|Hx].
    + rewrite Forall_forall in Ha. apply Ha. eapply nth_error_In; eauto.
    + apply IH; auto. intros y Hy. apply Hrefl. right; auto.
Qed.

Lemma as_favourable_refl h x : F64.is_nan x = false -> as_favourable h x x = true.
Proof. unfold as_favourable. destruct h; apply F64Facts.leb_refl. Qed.

Lemma ranked_no_nan h ks :
  ranked h ks -> no_nan ks = true ->
  StronglySorted (fun x y => as_favourable h x y = true) ks.
Proof.
  intros (nums & nans & -> & S & _ & Hn) H.
  destruct nans as [|x nans]; [rewrite app_nil_r; exact S|].
  exfalso. unfold no_nan in H. rewrite forallb_forall in H.
  inversion Hn; subst.
  assert (Hx : negb (F64.is_nan x) = true).
  { apply H. apply in_or_app. right. left. reflexivity. }
  rewrite H2 in Hx. discriminate.
Qed.

Lemma ranking_iff sym m names k1 k2 k3 km fallback o :
  lookup_col "Maker Stream Name" (cols sym) = Some names ->
  lookup_col pct_col (cols sym) = Some (FloatCol k1) ->
  lookup_col lat_col (cols sym) = Some (FloatCol k2) ->
  lookup_col vol_col (cols sym) = Some (FloatCol k3) ->
  lookup_col (fst (resolve m)) (cols sym) = Some (FloatCol km) ->
  (ranking_by_label sym (metric_label m) fallback (snd (resolve m)) o <->
   exists ix, is_argsort (negb (snd (resolve m))) km ix /\
     o = Ok (take_rows ix (unsorted_ranking sym names k1 k2 k3))).
Proof.
  intros L0 L1 L2 L3 Lm.
  destruct (rank_table_ok sym names k1 k2 k3 L0 L1 L2 L3) as [_ R].
  fold (unsorted_ranking sym names k1 k2 k3) in R.
  assert (Lk : lookup_col
                 (sort_key (unsorted_ranking sym names k1 k2 k3)
                    (metric_label m) fallback)
                 (cols (unsorted_ranking sym names k1 k2 k3))
               = Some (FloatCol km)).
  { destruct m; simpl in *; unfold pct_col, lat_col, vol_col in *; congruence. }
  split.
  - intros (r & R' & Hsort). rewrite R in R'. injection R' as <-.
    apply (sort_values_float _ _ _ km _ Lk) in Hsort. exact Hsort.
  - intros H. exists (unsorted_ranking sym names k1 k2 k3). split; [exact R|].
    apply (sort_values_float _ _ _ km _ Lk). exact H.
Qed.

(** X8.  The ends of the ranking agree with the KPI: on a subset
    whose metric column holds no NaN, the key of the first ranked row
    is the best row's value and the key of the last ranked row is the
    worst row's value (as floats). *)
Theorem ranking_ends_match_best_and_worst
  (t : RawTable) (sel : cell) (m : Metric) (d sym out : DataFrame)
  (k ks : list F64.float) :
  rectangular t = true ->
  missing_columns (read_table t) = [] ->
  normalise (read_table t) = Ok d ->
  symbol_rows d sel = Ok sym ->
  lookup_col (fst (resolve m)) (cols sym) = Some (FloatCol k) ->
  k <> [] -> no_nan k = true ->
  ranking_by_label sym (metric_label m) (fst (resolve m)) (snd (resolve m))
    (Ok out) ->
  lookup_col (metric_label m) (cols out) = Some (FloatCol ks) ->
  exists b w vb vw top bottom,
    best_worst sym (metric_label m)
      = Ok (b, w, fst (resolve m), snd (resolve m)) /\
    metric_value (fst (resolve m)) b = Some vb /\
    metric_value (fst (resolve m)) w = Some vw /\
    nth_error ks 0 = Some top /\
    nth_error ks (List.length ks - 1) = Some bottom /\
    F64.eqb top vb = true /\ F64.eqb bottom vw = true.
Proof.
  intros Hr Hm Hn Hs L Hne Hnan Hrank Lks.
  destruct (subset_shape t d sel sym Hr Hn Hs) as [Hwf _].
  destruct (subset_sources t d sel sym Hr Hm Hn Hs)
    as (names & k1 & k2 & k3 & L0 & L1 & L2 & L3 & _).
  apply (ranking_iff sym m names k1 k2 k3 k _ _ L0 L1 L2 L3 L) in Hrank.
  destruct Hrank as (ix & Hix & E). injection E as ->.
  assert (Eks : ks = take ix k).
  { destruct m; simpl in Lks, L; unfold pct_col, lat_col, vol_col in *;
      congruence. }
  pose proof (is_argsort_ranked _ _ _ Hix) as Hrk.
  rewrite negb_involutive, <- Eks in Hrk.
  assert (P : Permutation ks k).
  { rewrite Eks. apply take_perm. eapply is_argsort_perm; eauto. }
  assert (Hnan' : no_nan ks = true).
  { eapply no_nan_perm; [apply Permutation_sym; exact P|exact Hnan]. }
  pose proof (ranked_no_nan _ _ Hrk Hnan') as S.
  destruct (best_worst_on_frame m sym k Hwf L (no_nan_some_number k Hne Hnan))
    as (b & w & p & q & vb & vw & E & _ & _ & N1 & N2 & M1 & M2 & _ & _ & H).
  destruct (H Hnan) as (A1 & A2 & _ & _).
  assert (Hnum : forall x, In x ks -> F64.is_nan x = false).
  { intros x Hx. unfold no_nan in Hnan'. rewrite forallb_forall in Hnan'.
    apply negb_true_iff. auto. }
  destruct ks as [|top ks'].
  { apply Permutation_nil in P. congruence. }
  destruct (nth_error (top :: ks') (List.length (top :: ks') - 1))
    as [bottom|] eqn:Eb.
  2:{ apply nth_error_None in Eb. simpl in Eb. lia. }
  exists b, w, vb, vw, top, bottom.
  repeat (split; [solve [auto]|]). split.
  - apply as_favourable_both with (snd (resolve m)).
    + assert (Hin : In vb (top :: ks')).
      { apply (Permutation_in _ (Permutation_sym P)).
        eapply nth_error_In; eauto. }
      destruct Hin as [<-|Hin].
      * apply as_favourable_refl. apply Hnum. left; auto.
      * inversion S as [|a l _ Hall]; subst.
        rewrite Forall_forall in Hall. auto.
    + apply A1. apply (Permutation_in _ P). left; auto.
  - apply as_favourable_both with (snd (resolve m)).
    + apply A2. apply (Permutation_in _ P). eapply nth_error_In; eauto.
    + apply (sorted_last (fun x y => as_favourable (snd (resolve m)) x y = true)
               (top :: ks') bottom S).
      * intros x Hx. apply as_favourable_refl. auto.
      * exact Eb.
      * apply (Permutation_in _ (Permutation_sym P)).
        eapply nth_error_In; eauto.
Qed.

Lemma scenario_by_latency_ranking_admissible :
  ranking_by_label scenario_sym (metric_label AvgLatency)
    (fst (resolve AvgLatency)) (snd (resolve AvgLatency))
    (Ok scenario_by_latency_ranking).
Proof.
  exists (the_frame (rank_table scenario_sym)). split; [vm_compute; reflexivity|].
  unfold scenario_by_latency_ranking.
  apply (sort_done _ _ _ scenario_latencies
           (argsort_stable true scenario_latencies)).
  - vm_compute. reflexivity.
  - apply argsort_stable_admissible.
Qed.

Lemma ranking_ends_match_best_and_worst_witness :
  exists b w vb vw top bottom,
    best_worst scenario_sym (metric_label AvgLatency)
      = Ok (b, w, fst (resolve AvgLatency), snd (resolve AvgLatency)) /\
    metric_value (fst (resolve AvgLatency)) b = Some vb /\
    metric_value (fst (resolve AvgLatency)) w = Some vw /\
    nth_error (take (argsort_stable true scenario_latencies) scenario_latencies) 0
      = Some top /\
    nth_error (take (argsort_stable true scenario_latencies) scenario_latencies)
      (List.length
         (take (argsort_stable true scenario_latencies) scenario_latencies) - 1)
      = Some bottom /\
    F64.eqb top vb = true /\ F64.eqb bottom vw = true.
Proof.
  apply (ranking_ends_match_best_and_worst scenario (Text "EURUSD") AvgLatency
           scenario_df scenario_sym scenario_by_latency_ranking
           scenario_latencies);
    try (vm_compute; reflexivity); try discriminate.
  apply scenario_by_latency_ranking_admissible.
Defined.

(** ** A ranking without ties *)

Lemma sorted_perm_eq {A} (R : A -> A -> Prop) l1 l2 :
  StronglySorted R l1 -> StronglySorted R l2 -> Permutation l1 l2 ->
  (forall a b, In a l1 -> In b l1 -> R a b -> R b a -> a = b) ->
  l1 = l2.
Proof.
  intros S1. revert l2. induction S1 as [|a l1 S1 IH Ha]; intros l2 S2 P Anti.
  - apply Permutation_nil in P. congruence.
  - destruct l2 as [|b l2].
    { apply Permutation_sym, Permutation_nil in P. discriminate. }
    inversion S2 as [|b' l2' S2' Hb]; subst.
    assert (E : a = b).
    { assert (Hb1 : In b (a :: l1))
        by (apply (Permutation_in _ (Permutation_sym P)); left; auto).
      assert (Ha2 : In a (b :: l2)) by (apply (Permutation_in _ P); left; auto).
      destruct Hb1 as [E|Hb1]; auto. destruct Ha2 as [E|Ha2]; auto.
      rewrite Forall_forall in Ha, Hb.
      apply Anti; [left; auto|right; auto|auto|auto]. }
    subst b. f_equal. apply IH; auto.
    + eapply Permutation_cons_inv; eauto.
    + intros x y Hx Hy. apply Anti; right; auto.
Qed.

Lemma is_argsort_unique asc k ix ix' :
  (forall i j, i < List.length k -> j < List.length k ->
     F64.eqb (key_at k i) (key_at k j) = true -> i = j) ->
  is_argsort asc k ix -> is_argsort asc k ix' -> ix = ix'.
Proof.
  intros Hd (p & -> & P & S) (p' & -> & P' & S'). f_equal.
  apply (sorted_perm_eq (in_order asc k)); auto.
  - eapply Permutation_trans; [exact P|apply Permutation_sym; exact P'].
  - intros a b Ha Hb H1 H2.
    apply (Permutation_in _ P), positions_where_lt in Ha.
    apply (Permutation_in _ P), positions_where_lt in Hb.
    apply Hd; try tauto. rewrite F64Facts.eqb_leb.
    unfold in_order, in_order_b in H1, H2.
    destruct asc; rewrite H1, H2; reflexivity.
Qed.

Lemma filter_seq_sorted (f : nat -> bool) a n :
  StronglySorted lt (filter f (seq a n)).
Proof.
  revert a. induction n as [|n IH]; intros a; simpl; [constructor|].
  destruct (f a); [|apply IH]. constructor; [apply IH|].
  apply Forall_forall. intros i Hi. apply filter_In in Hi.
  destruct Hi as [Hi _]. apply in_seq in Hi. lia.
Qed.

Lemma StronglySorted_strengthen {A} (R R' : A -> A -> Prop) l :
  NoDup l ->
  (forall a b, In a l -> In b l -> a <> b -> R a b -> R' a b) ->
  StronglySorted R l -> StronglySorted R' l.
Proof.
  intros Hd Himp H. induction H as [|x l Hs IH Hx]; constructor.
  - inversion Hd; subst. apply IH; auto.
    intros a b Ha Hb. apply Himp; right; assumption.
  - inversion Hd as [|? ? Hnin _]; subst.
    rewrite Forall_forall in *. intros b Hb. apply Himp; auto.
    + left; reflexivity.
    + right; exact Hb.
    + intros ->. contradiction.
Qed.

Lemma leb_not_eqb_ltb x y :
  F64.leb x y = true -> F64.eqb x y = false -> F64.ltb x y = true.
Proof. intros H1 H2. F64Facts.float_cases. Qed.

(** Without ties an admissible order of the numbers is a strict one. *)
Lemma argsort_strict asc k p :
  (forall i j, i < List.length k -> j < List.length k ->
     F64.eqb (key_at k i) (key_at k j) = true -> i = j) ->
  Permutation p (positions_where (fun x => negb (F64.is_nan x)) k) ->
  StronglySorted (in_order asc k) p ->
  StronglySorted
    (fun i j => more_favourable (negb asc) (key_at k i) (key_at k j) = true) p.
Proof.
  intros Hd P H.
  assert (Hin : forall i, In i p -> i < List.length k).
  { intros i Hi. apply (Permutation_in _ P) in Hi.
    apply positions_where_lt in Hi. tauto. }
  apply (StronglySorted_strengthen (in_order asc k)); auto.
  - apply (Permutation_NoDup (Permutation_sym P)).
    apply NoDup_filter, seq_NoDup.
  - intros i j Hi Hj Hne Ho. unfold in_order, in_order_b in Ho.
    unfold more_favourable.
    destruct asc; simpl; apply leb_not_eqb_ltb; auto.
    + destruct (F64.eqb (key_at k i) (key_at k j)) eqn:E; auto.
      exfalso. apply Hne. apply Hd; auto.
    + destruct (F64.eqb (key_at k j) (key_at k i)) eqn:E; auto.
      exfalso. apply Hne. symmetry. apply Hd; auto.
Qed.

(** X9.  Without ties the ranking is determined: when no two rows of
    the subset have equal metric values, the script can produce one
    ranking only.  Its rows are the rows of the subset, each once and
    whole: first the rows whose value is a number, each strictly more
    favourable than all that follow, then the rows whose value is NaN,
    in their original order. *)
Theorem ranking_without_ties_is_unique
  (t : RawTable) (sel : cell) (m : Metric) (d sym : DataFrame)
  (k : list F64.float) :
  rectangular t = true ->
  missing_columns (read_table t) = [] ->
  normalise (read_table t) = Ok d ->
  symbol_rows d sel = Ok sym ->
  lookup_col (fst (resolve m)) (cols sym) = Some (FloatCol k) ->
  (forall i j, i < List.length k -> j < List.length k ->
     F64.eqb (nth i k S754_nan) (nth j k S754_nan) = true -> i = j) ->
  exists ns k1 k2 k3 out nums nans,
    lookup_col "Maker Stream Name" (cols sym) = Some (ObjCol ns) /\
    lookup_col "Filled_Vol_Pct" (cols sym) = Some (FloatCol k1) /\
    lookup_col "Avg_Latency_ms" (cols sym) = Some (FloatCol k2) /\
    lookup_col "Total_Filled_Vol" (cols sym) = Some (FloatCol k3) /\
    (forall o,
       ranking_by_label sym (metric_label m) (fst (resolve m))
         (snd (resolve m)) o
       <-> o = Ok out) /\
    Permutation (nums ++ nans) (seq 0 (nrows sym)) /\
    ranking_rows (index sym) ns k1 k2 k3 (nums ++ nans) out /\
    Forall (fun i => F64.is_nan (nth i k S754_nan) = false) nums /\
    Forall (fun i => F64.is_nan (nth i k S754_nan) = true) nans /\
    StronglySorted
      (fun i j => more_favourable (snd (resolve m))
                    (nth i k S754_nan) (nth j k S754_nan) = true) nums /\
    StronglySorted lt nans.
Proof.
  intros Hr Hm Hn Hs L Hd.
  destruct (subset_shape t d sel sym Hr Hn Hs) as [Hwf _].
  destruct (subset_sources t d sel sym Hr Hm Hn Hs)
    as (names & k1 & k2 & k3 & L0 & L1 & L2 & L3 & N1 & N2 & N3).
  destruct (subset_names t d sel sym Hr Hm Hn Hs) as (ns & L0' & N0).
  rewrite L0 in L0'. injection L0' as ->.
  pose proof (lookup_col_len sym _ _ Hwf L) as Nk. simpl in Nk.
  pose proof (argsort_stable_admissible (negb (snd (resolve m))) k) as Hst.
  pose proof Hst as (p & E & P & S).
  pose proof (is_argsort_perm _ _ _ Hst) as Pix. rewrite E, Nk in Pix.
  exists ns, k1, k2, k3,
    (take_rows (argsort_stable (negb (snd (resolve m))) k)
       (unsorted_ranking sym (ObjCol ns) k1 k2 k3)),
    p, (positions_where F64.is_nan k).
  repeat (split; [assumption|]). split.
  { intros o.
    rewrite (ranking_iff sym m (ObjCol ns) k1 k2 k3 k _ o L0 L1 L2 L3 L).
    split.
    - intros (ix & Hix & ->). f_equal. f_equal.
      eapply is_argsort_unique; eauto.
    - intros ->. eexists. split; [exact Hst|reflexivity]. }
  split; [exact Pix|]. split.
  { rewrite E. apply take_rows_ranking; auto.
    apply Forall_forall. intros i Hi.
    apply (Permutation_in _ Pix) in Hi. apply in_seq in Hi. lia. }
  split.
  { apply Forall_forall. intros i Hi. apply (Permutation_in _ P) in Hi.
    apply positions_where_lt in Hi. destruct Hi as [_ Hi].
    apply negb_true_iff in Hi. exact Hi. }
  split.
  { apply Forall_forall. intros i Hi.
    apply positions_where_lt in Hi. tauto. }
  split.
  { pose proof (argsort_strict _ k p Hd P S) as H.
    rewrite negb_involutive in H. exact H. }
  apply filter_seq_sorted.
Qed.

Lemma ranking_without_ties_is_unique_witness :
  exists ns k1 k2 k3 out nums nans,
    lookup_col "Maker Stream Name" (cols scenario_sym) = Some (ObjCol ns) /\
    lookup_col "Filled_Vol_Pct" (cols scenario_sym) = Some (FloatCol k1) /\
    lookup_col "Avg_Latency_ms" (cols scenario_sym) = Some (FloatCol k2) /\
    lookup_col "Total_Filled_Vol" (cols scenario_sym) = Some (FloatCol k3) /\
    (forall o,
       ranking_by_label scenario_sym (metric_label AvgLatency)
         (fst (resolve AvgLatency)) (snd (resolve AvgLatency)) o
       <-> o = Ok out) /\
    Permutation (nums ++ nans) (seq 0 (nrows scenario_sym)) /\
    ranking_rows (index scenario_sym) ns k1 k2 k3 (nums ++ nans) out /\
    Forall (fun i => F64.is_nan (nth i scenario_latencies S754_nan) = false)
      nums /\
    Forall (fun i => F64.is_nan (nth i scenario_latencies S754_nan) = true)
      nans /\
    StronglySorted
      (fun i j => more_favourable (snd (resolve AvgLatency))
                    (nth i scenario_latencies S754_nan)
                    (nth j scenario_latencies S754_nan) = true) nums /\
    StronglySorted lt nans.
Proof.
  apply (ranking_without_ties_is_unique scenario (Text "EURUSD") AvgLatency
           scenario_df scenario_sym scenario_latencies);
    try (vm_compute; reflexivity).
  intros i j Hi Hj. simpl in Hi, Hj.
  destruct i as [|[|i]], j as [|[|j]]; try lia; auto;
    vm_compute; discriminate.
Defined.

(** ** A metric label outside the ranking table *)

Lemma best_worst_else sym metric b w c h :
  metric <> "% Filled Volume" -> metric <> "Avg Fill Latency (ms)" ->
  best_worst sym metric = Ok (b, w, c, h) ->
  c = "Total_Filled_Vol" /\ h = true.
Proof.
  intros H1 H2. unfold best_worst.
  apply String.eqb_neq in H1. apply String.eqb_neq in H2. rewrite H1, H2.
  destruct (max_then_min sym "Total_Filled_Vol") as [[rb rw]|]; cbn [bind];
    intros H; [|discriminate]. injection H as _ _ <- <-. auto.
Qed.

(** X10.  The fallback key of the sort is no column of the ranking
    table.  When the selected metric is none of the table's four
    labels, best and worst are computed for the total volume, and the
    script then ends in a [KeyError] for [Total_Filled_Vol]: no
    ranking is produced. *)
Theorem unknown_metric_label_raises
  (t : RawTable) (sel : cell) (metric : string) (p : Prepared) :
  rectangular t = true ->
  missing_columns (read_table t) = [] ->
  prepare (read_table t) sel metric = Ok p ->
  ~ In metric [ "LP Name"; "% Filled Volume"; "Avg Fill Latency (ms)";
                "Total Filled Volume" ] ->
  p_metric_col p = "Total_Filled_Vol" /\
  p_higher_is_better p = true /\
  forall o, run t sel metric o <-> o = Raised (KeyError "Total_Filled_Vol").
Proof.
  intros Hr Hm Hp Hnot.
  pose proof (prepare_ok _ _ _ _ Hp) as (Hn & Hs & Hb & Hrank).
  assert (N1 : metric <> "% Filled Volume") by (intros ->; apply Hnot; simpl; auto).
  assert (N2 : metric <> "Avg Fill Latency (ms)")
    by (intros ->; apply Hnot; simpl; auto).
  destruct (best_worst_else _ _ _ _ _ _ N1 N2 Hb) as [Ec Eh].
  split; [exact Ec|]. split; [exact Eh|].
  destruct (subset_sources t _ sel _ Hr Hm Hn Hs)
    as (names & k1 & k2 & k3 & L0 & L1 & L2 & L3 & _).
  destruct (rank_table_ok _ names k1 k2 k3 L0 L1 L2 L3) as [_ R].
  rewrite Hrank in R. injection R as R.
  assert (Hkey : sort_key (p_rank_df p) metric (p_metric_col p)
                 = "Total_Filled_Vol").
  { unfold sort_key. rewrite Ec.
    destruct (has_column metric (p_rank_df p)) eqn:E; auto.
    exfalso. apply has_column_In in E. rewrite R in E. exact (Hnot E). }
  assert (Hnone : lookup_col "Total_Filled_Vol" (cols (p_rank_df p)) = None).
  { rewrite R. reflexivity. }
  intros o. split.
  - intros H. inversion H; subst; try congruence.
    + rewrite Hp in H1. injection H1 as <-. rewrite Hkey in H2.
      inversion H2; subst. reflexivity.
    + rewrite Hp in H1. injection H1 as <-. rewrite Hkey in H2.
      inversion H2; subst. congruence.
  - intros ->. eapply run_sort_raised; eauto.
    rewrite Hkey. apply sort_no_column. exact Hnone.
Qed.

Lemma unknown_metric_label_raises_witness :
  exists p,
    prepare (read_table scenario) (Text "EURUSD") "Fill Rate" = Ok p /\
    p_metric_col p = "Total_Filled_Vol" /\
    p_higher_is_better p = true /\
    forall o, run scenario (Text "EURUSD") "Fill Rate" o
              <-> o = Raised (KeyError "Total_Filled_Vol").
Proof.
  eexists. split; [vm_compute; reflexivity|].
  apply (unknown_metric_label_raises scenario (Text "EURUSD") "Fill Rate");
    try (vm_compute; reflexivity).
  simpl. intros [H|[H|[H|[H|[]]]]]; discriminate.
Defined.

(** ** What the ranking depends on *)

Lemma rank_table_closed t sel d sym symbols names c1 c2 c3 :
  rectangular t = true ->
  normalise (read_table t) = Ok d ->
  symbol_rows d sel = Ok sym ->
  lookup_col "Core Symbol" (cols (read_table t)) = Some (ObjCol symbols) ->
  lookup_col "Maker Stream Name" (cols (read_table t)) = Some (ObjCol names) ->
  lookup_col pct_src (cols (read_table t)) = Some (ObjCol c1) ->
  lookup_col lat_src (cols (read_table t)) = Some (ObjCol c2) ->
  lookup_col vol_src (cols (read_table t)) = Some (ObjCol c3) ->
  exists v1 v2 v3,
    to_numeric strip_pct (ObjCol c1) = Ok v1 /\
    to_numeric strip_ms (ObjCol c2) = Ok v2 /\
    to_numeric strip_vol (ObjCol c3) = Ok v3 /\
    rank_table sym
    = Ok {| index := matching_positions symbols sel;
            cols :=
              [ ("LP Name", ObjCol (take (matching_positions symbols sel) names));
                ("% Filled Volume",
                 FloatCol (take (matching_positions symbols sel) v1));
                ("Avg Fill Latency (ms)",
                 FloatCol (take (matching_positions symbols sel) v2));
                ("Total Filled Volume",
                 FloatCol (take (matching_positions symbols sel) v3)) ] |}.
Proof.
  intros Hr Hn Hs Ls L0 L1 L2 L3.
  destruct (subset_rows t sel d sym symbols Hr Hn Hs Ls)
    as (_ & _ & _ & Hi & Hc).
  destruct (normalise_derived _ _ Hn)
    as (x1 & v1 & x2 & v2 & x3 & v3 & S1 & N1 & S2 & N2 & S3 & N3 & D1 & D2 & D3).
  rewrite L1 in S1. rewrite L2 in S2. rewrite L3 in S3.
  injection S1 as <-. injection S2 as <-. injection S3 as <-.
  exists v1, v2, v3. repeat (split; [assumption|]).
  assert (L0' : lookup_col "Maker Stream Name" (cols d) = Some (ObjCol names)).
  { rewrite (normalise_other_columns _ _ "Maker Stream Name" Hn); auto.
    simpl. intros [H|[H|[H|[]]]]; discriminate. }
  destruct (rank_table_ok sym _ _ _ _ (Hc _ _ L0') (Hc _ _ D1) (Hc _ _ D2)
              (Hc _ _ D3)) as [_ R].
  rewrite R, Hi. reflexivity.
Qed.

(** X11.  The ranking table depends on the five required columns and
    on the selected symbol only.  Two uploads that agree on these
    columns give the same table before sorting, whatever other
    columns they hold (columns bearing a derived name included), and
    if one normalises so does the other. *)
Theorem ranking_ignores_other_columns
  (t t' : RawTable) (sel : cell) (d sym : DataFrame) :
  rectangular t = true -> rectangular t' = true ->
  missing_columns (read_table t) = [] ->
  (forall name, In name required_columns ->
     lookup_col name (cols (read_table t'))
     = lookup_col name (cols (read_table t))) ->
  normalise (read_table t) = Ok d ->
  symbol_rows d sel = Ok sym ->
  exists d' sym',
    normalise (read_table t') = Ok d' /\
    symbol_rows d' sel = Ok sym' /\
    rank_table sym' = rank_table sym.
Proof.
  intros Hr Hr' Hm Hsame Hn Hs.
  destruct (sources_present t Hm) as (c1 & c2 & c3 & L1 & L2 & L3).
  destruct (missing_nil_lookup _ "Core Symbol" Hm) as [x0 Ls]; [simpl; tauto|].
  destruct (lookup_read_table _ _ _ Ls) as (symbols & -> & _).
  destruct (missing_nil_lookup _ "Maker Stream Name" Hm) as [y0 L0];
    [simpl; tauto|].
  destruct (lookup_read_table _ _ _ L0) as (names & -> & _).
  assert (Ls' := Hsame "Core Symbol"). assert (L0' := Hsame "Maker Stream Name").
  assert (L1' := Hsame pct_src). assert (L2' := Hsame lat_src).
  assert (L3' := Hsame vol_src).
  rewrite Ls in Ls'. rewrite L0 in L0'. rewrite L1 in L1'. rewrite L2 in L2'.
  rewrite L3 in L3'.
  specialize (Ls' ltac:(simpl; tauto)). specialize (L0' ltac:(simpl; tauto)).
  specialize (L1' ltac:(simpl; tauto)). specialize (L2' ltac:(simpl; tauto)).
  specialize (L3' ltac:(simpl; tauto)).
  destruct (normalise_cases t c1 c2 c3 L1 L2 L3)
    as [(dd & E & A1 & A2 & A3)|(text & E & _)]; [|congruence].
  destruct (normalise_cases t' c1 c2 c3 L1' L2' L3')
    as [(d' & E' & _)|(text & E' & F)].
  2:{ exfalso. destruct F as [F|[[_ F]|[_ [_ F]]]];
        eapply first_rejected_not_all; eauto. }
  assert (Ld' : lookup_col "Core Symbol" (cols d') = Some (ObjCol symbols)).
  { rewrite (normalise_other_columns _ _ "Core Symbol" E'); auto.
    simpl. intros [H|[H|[H|[]]]]; discriminate. }
  exists d', (filter_rows d' (eq_mask (ObjCol symbols) sel)).
  assert (Hs' : symbol_rows d' sel
                = Ok (filter_rows d' (eq_mask (ObjCol symbols) sel))).
  { unfold symbol_rows, getitem. rewrite Ld'. reflexivity. }
  split; [exact E'|]. split; [exact Hs'|].
  destruct (rank_table_closed t sel d sym symbols names c1 c2 c3
              Hr Hn Hs Ls L0 L1 L2 L3) as (v1 & v2 & v3 & N1 & N2 & N3 & R).
  destruct (rank_table_closed t' sel d' _ symbols names c1 c2 c3
              Hr' E' Hs' Ls' L0' L1' L2' L3')
    as (v1' & v2' & v3' & N1' & N2' & N3' & R').
  rewrite R, R'. congruence.
Qed.

Lemma ranking_ignores_other_columns_witness :
  exists d' sym',
    normalise (read_table name_clash) = Ok d' /\
    symbol_rows d' (Text "EURUSD") = Ok sym' /\
    rank_table sym' = rank_table scenario_sym.
Proof.
  apply (ranking_ignores_other_columns scenario name_clash (Text "EURUSD")
           scenario_df scenario_sym);
    try (vm_compute; reflexivity).
  intros name [<-|[<-|[<-|[<-|[<-|[]]]]]]; reflexivity.
Defined.

(** ** The shape of the normalised frame *)

Lemma assign_col_NoDup name c cs :
  NoDup (map fst cs) -> NoDup (map fst (assign_col name c cs)).
Proof.
  intros H. rewrite columns_assign.
  destruct (existsb (String.eqb name) (map fst cs)) eqn:E; auto.
  apply NoDup_app; auto.
  - repeat constructor. simpl. tauto.
  - intros x Hx [Ex|[]]. subst x.
    assert (existsb (String.eqb name) (map fst cs) = true); [|congruence].
    apply existsb_exists. exists name. split; auto. apply String.eqb_refl.
Qed.

Lemma assign_col_columns name c cs :
  map fst (assign_col name c cs)
  = map fst cs ++ filter (fun n => negb (existsb (String.eqb n) (map fst cs))) [name].
Proof.
  rewrite columns_assign. simpl.
  destruct (existsb (String.eqb name) (map fst cs)); simpl; auto.
  rewrite app_nil_r. reflexivity.
Qed.

(** X12.  Normalisation keeps the frame well formed: on a rectangular
    upload the normalised frame has the same row labels, every column
    (the derived ones included) has one value per row, the column
    names are those of the upload followed by the derived names it did
    not have, in the order percentage, latency, volume, and names that
    were distinct stay distinct. *)
Theorem normalise_keeps_the_frame_shape (t : RawTable) (d : DataFrame) :
  rectangular t = true ->
  normalise (read_table t) = Ok d ->
  index d = index (read_table t) /\
  well_formed d = true /\
  nrows d = nrows (read_table t) /\
  (forall name c, lookup_col name (cols d) = Some c -> col_len c = nrows d) /\
  columns d
    = columns (read_table t)
      ++ filter (fun n => negb (has_column n (read_table t)))
           [ "Filled_Vol_Pct"; "Avg_Latency_ms"; "Total_Filled_Vol" ] /\
  (NoDup (columns (read_table t)) -> NoDup (columns d)).
Proof.
  intros Hr Hn.
  pose proof (read_table_well_formed t Hr) as Hwf0.
  pose proof (normalise_well_formed _ _ Hwf0 Hn) as Hwf.
  split; [exact (normalise_index _ _ Hn)|].
  split; [exact Hwf|]. split.
  { unfold nrows. rewrite (normalise_index _ _ Hn). reflexivity. }
  split.
  { intros name c L. eapply lookup_col_len; eauto. }
  pose proof (normalise_ok _ _ Hn)
    as (c1 & v1 & c2 & v2 & c3 & v3 & _ & _ & _ & _ & _ & _ & ->).
  unfold columns, has_column, columns. cbn [setitem cols]. split.
  - generalize (cols (read_table t)). intros cs.
    rewrite !assign_col_columns. cbn [filter].
    unfold pct_col, lat_col, vol_col.
    rewrite !existsb_app.
    destruct (existsb (String.eqb "Filled_Vol_Pct") (map fst cs)) eqn:E1;
    destruct (existsb (String.eqb "Avg_Latency_ms") (map fst cs)) eqn:E2;
    destruct (existsb (String.eqb "Total_Filled_Vol") (map fst cs)) eqn:E3;
    cbn; rewrite ?E1, ?E2, ?E3; cbn; rewrite <- ?app_assoc; cbn;
    rewrite ?app_nil_r; reflexivity.
  - intros H. repeat apply assign_col_NoDup. exact H.
Qed.

Lemma normalise_keeps_the_frame_shape_witness :
  index scenario_df = index (read_table scenario) /\
  well_formed scenario_df = true /\
  nrows scenario_df = nrows (read_table scenario) /\
  (forall name c, lookup_col name (cols scenario_df) = Some c ->
     col_len c = nrows scenario_df) /\
  columns scenario_df
    = columns (read_table scenario)
      ++ filter (fun n => negb (has_column n (read_table scenario)))
           [ "Filled_Vol_Pct"; "Avg_Latency_ms"; "Total_Filled_Vol" ] /\
  (NoDup (columns (read_table scenario)) -> NoDup (columns scenario_df)).
Proof.
  apply (normalise_keeps_the_frame_shape scenario scenario_df);
    vm_compute; reflexivity.
Defined.

(** ** What stripping leaves *)

Lemma chars_inj s1 s2 : chars s1 = chars s2 -> s1 = s2.
Proof.
  intros H. apply (f_equal string_of_list_ascii) in H.
  unfold chars in H. rewrite !string_of_list_ascii_of_string in H. exact H.
Qed.

Lemma filter_idem {A} (f : A -> bool) l : filter f (filter f l) = filter f l.
Proof.
  induction l as [|x l IH]; simpl; auto.
  destruct (f x) eqn:E; simpl; rewrite ?E, IH; reflexivity.
Qed.

(** X13.  After stripping, a percentage text holds no [%] and a
    volume text neither [$] nor [,], wherever they stood, and
    stripping such a text again changes nothing.  The latency rule
    makes one pass only: what it returns can still hold [ms], as for
    [1mmss], and a second pass would change it. *)
Theorem stripped_text_has_no_decoration (s : string) :
  ~ In "%"%char (chars (strip_pct s)) /\
  ~ In "$"%char (chars (strip_vol s)) /\
  ~ In ","%char (chars (strip_vol s)) /\
  strip_pct (strip_pct s) = strip_pct s /\
  strip_vol (strip_vol s) = strip_vol s /\
  exists u, strip_ms (strip_ms u) <> strip_ms u.
Proof.
  split; [|split; [|split; [|split; [|split]]]].
  - rewrite strip_pct_chars, filter_In. intros [_ H]. discriminate.
  - rewrite strip_vol_chars, filter_In. intros [_ H]. discriminate.
  - rewrite strip_vol_chars, filter_In. intros [_ H]. discriminate.
  - apply chars_inj. rewrite !strip_pct_chars. apply filter_idem.
  - apply chars_inj. rewrite !strip_vol_chars. apply filter_idem.
  - exists "1mmss". vm_compute. discriminate.
Qed.

(** ** The file reader *)

Lemma chars_append a b : chars (a ++ b)%string = chars a ++ chars b.
Proof. induction a as [|c a IH]; simpl; [|rewrite IH]; reflexivity. Qed.

Lemma ends_with_suffix suffix s :
  ends_with suffix s = true <-> exists base, s = (base ++ suffix)%string.
Proof.
  unfold ends_with. rewrite starts_with_prefix. split.
  - intros [rest H]. exists (string_of_list_ascii (rev rest)).
    apply chars_inj. rewrite chars_append, chars_of_list.
    apply (f_equal (@rev ascii)) in H.
    rewrite rev_involutive, rev_app_distr, rev_involutive in H. exact H.
  - intros [base ->]. exists (rev (chars base)).
    rewrite chars_append, rev_app_distr. reflexivity.
Qed.

(** X14.  The uploaded file is read as CSV exactly when its name ends
    with the four characters [.csv]; every other name goes to the
    Excel reader, a name ending in [.CSV] or [.xlsx] included. *)
Theorem reader_follows_the_suffix (name : string) :
  (reader_for name = read_csv <-> exists base, name = (base ++ ".csv")%string) /\
  reader_for (name ++ ".CSV") = read_excel /\
  reader_for (name ++ ".xlsx") = read_excel.
Proof.
  unfold reader_for. split; [|split].
  - rewrite <- ends_with_suffix.
    destruct (ends_with ".csv" name); split; congruence.
  - unfold ends_with. rewrite chars_append, rev_app_distr. reflexivity.
  - unfold ends_with. rewrite chars_append, rev_app_distr. reflexivity.
Qed.

(** ** The text of a KPI card *)

Lemma digit_cases (d : N) :
  (d < 10)%N -> In d (map N.of_nat (seq 0 10)).
Proof.
  intros H. rewrite <- (N2Nat.id d). apply in_map, in_seq. lia.
Qed.

Lemma digit_char_value d :
  (d < 10)%N -> PyFloat.digit_value (digit_char d) = d.
Proof.
  intros H. apply digit_cases in H. simpl in H.
  repeat (destruct H as [<-|H]; [reflexivity|]). destruct H.
Qed.

Lemma digit_char_is_digit d :
  (d < 10)%N -> PyFloat.is_digit (digit_char d) = true.
Proof.
  intros H. apply digit_cases in H. simpl in H.
  repeat (destruct H as [<-|H]; [reflexivity|]). destruct H.
Qed.

(** The characters the conversion has a use for beside digits. *)
Lemma digit_is_plain c :
  PyFloat.is_digit c = true ->
  PyFloat.is_space c = false /\ Ascii.eqb c "_" = false /\
  Ascii.eqb c "-" = false /\ Ascii.eqb c "+" = false /\
  Ascii.eqb c "." = false /\
  not_char "$" c && not_char "," c = true.
Proof.
  destruct c as [[] [] [] [] [] [] [] []]; vm_compute; intros H;
    try discriminate H; repeat split.
Qed.

Lemma digits_from_digits f n acc :
  Forall (fun c => PyFloat.is_digit c = true) acc ->
  Forall (fun c => PyFloat.is_digit c = true) (digits_from f n acc).
Proof.
  revert n acc. induction f as [|f IH]; intros n acc H; simpl; auto.
  destruct (n <? 10)%N eqn:E.
  - constructor; auto. apply digit_char_is_digit, N.ltb_lt, E.
  - apply IH. constructor; auto.
    apply digit_char_is_digit, N.mod_lt. discriminate.
Qed.

Lemma digits_from_value f n acc :
  (n < 10 ^ N.of_nat f)%N ->
  fold_left (fun a c => (10 * a + PyFloat.digit_value c)%N)
    (digits_from f n acc) 0%N =
  fold_left (fun a c => (10 * a + PyFloat.digit_value c)%N) acc n.
Proof.
  revert n acc. induction f as [|f IH]; intros n acc H.
  - simpl in *. assert (n = 0%N) by lia. subst. reflexivity.
  - cbn [digits_from]. destruct (n <? 10)%N eqn:E.
    + apply N.ltb_lt in E. cbn [fold_left].
      rewrite digit_char_value by exact E. reflexivity.
    + rewrite IH.
      * cbn [fold_left]. rewrite digit_char_value
          by (apply N.mod_lt; discriminate).
        f_equal. symmetry. apply N.div_mod. discriminate.
      * rewrite Nat2N.inj_succ, N.pow_succ_r' in H.
        apply N.Div0.div_lt_upper_bound. exact H.
Qed.

Lemma digits_of_digits n :
  Forall (fun c => PyFloat.is_digit c = true) (digits_of n).
Proof. apply digits_from_digits. constructor. Qed.

Lemma digits_of_value n : PyFloat.digits_value (digits_of n) = n.
Proof.
  unfold PyFloat.digits_value, digits_of. rewrite digits_from_value.
  - reflexivity.
  - rewrite Nat2N.inj_succ, N2Nat.id.
    destruct n as [|p]; [reflexivity|].
    apply N.lt_le_trans with (2 ^ N.succ (N.log2 (N.pos p)))%N.
    + apply N.log2_spec. reflexivity.
    + apply N.pow_le_mono_l. lia.
Qed.

Lemma commas_from_filter room r :
  filter (fun a => not_char "$" a && not_char "," a) (commas_from room r) =
  filter (fun a => not_char "$" a && not_char "," a) r.
Proof.
  revert room. induction r as [|c r IH]; intros room; simpl; auto.
  destruct room as [|k]; simpl; rewrite IH; reflexivity.
Qed.

Lemma filter_all {A} (f : A -> bool) l :
  Forall (fun a => f a = true) l -> filter f l = l.
Proof. induction 1 as [|a l Ha _ IH]; simpl; [|rewrite Ha, IH]; reflexivity. Qed.

Lemma filter_reverse {A} (f : A -> bool) l :
  filter f (rev l) = rev (filter f l).
Proof.
  induction l as [|a l IH]; simpl; auto.
  rewrite filter_app, IH. simpl. destruct (f a); simpl;
    [reflexivity|apply app_nil_r].
Qed.

Lemma grouped_stripped ds :
  Forall (fun c => PyFloat.is_digit c = true) ds ->
  filter (fun a => not_char "$" a && not_char "," a) (grouped ds) = ds.
Proof.
  intros H. unfold grouped.
  rewrite filter_reverse, commas_from_filter, filter_reverse, rev_involutive.
  apply filter_all. eapply Forall_impl; [|exact H].
  intros c Hc. apply digit_is_plain, Hc.
Qed.

Lemma lstrip_plain l :
  Forall (fun c => PyFloat.is_space c = false) l -> PyFloat.lstrip l = l.
Proof. destruct 1 as [|c l Hc _]; simpl; [|rewrite Hc]; reflexivity. Qed.

Lemma strip_plain l :
  Forall (fun c => PyFloat.is_space c = false) l -> PyFloat.strip l = l.
Proof.
  intros H. unfold PyFloat.strip.
  rewrite (lstrip_plain l H), lstrip_plain, rev_involutive; auto.
  apply Forall_rev, H.
Qed.

Lemma drop_underscores_plain l prev :
  match prev with Some p => Ascii.eqb p "_" = false | None => True end ->
  Forall (fun c => Ascii.eqb c "_" = false) l ->
  PyFloat.drop_underscores prev l = Some l.
Proof.
  intros Hp H. revert prev Hp.
  induction H as [|c l Hc _ IH]; intros prev Hp.
  - simpl. destruct prev as [p|]; [rewrite Hp|]; reflexivity.
  - cbn [PyFloat.drop_underscores]. rewrite Hc.
    replace (match prev with Some p => Ascii.eqb p "_" | None => false end)
      with false by (destruct prev; auto).
    cbn [andb]. rewrite IH by exact Hc. reflexivity.
Qed.

Lemma span_digits_stop ds c r :
  Forall (fun c => PyFloat.is_digit c = true) ds ->
  PyFloat.is_digit c = false ->
  PyFloat.span_digits (ds ++ c :: r) = (ds, c :: r).
Proof.
  intros H Hc. induction H as [|d ds Hd _ IH]; simpl.
  - rewrite Hc. reflexivity.
  - rewrite Hd, IH. reflexivity.
Qed.

(** The unsigned part of the text, once the commas are gone, read as a
    decimal. *)
Lemma read_fixed s n :
  PyFloat.read_decimal s
    (digits_of (n / 100)%N ++ "."%char ::
     digit_char ((n / 10) mod 10)%N :: digit_char (n mod 10)%N :: []) =
  Some (F64.of_decimal s n (-2)).
Proof.
  assert (H1 : PyFloat.is_digit (digit_char ((n / 10) mod 10)%N) = true)
    by (apply digit_char_is_digit, N.mod_lt; discriminate).
  assert (H2 : PyFloat.is_digit (digit_char (n mod 10)%N) = true)
    by (apply digit_char_is_digit, N.mod_lt; discriminate).
  unfold PyFloat.read_decimal.
  rewrite span_digits_stop by (auto using digits_of_digits).
  replace (Ascii.eqb "." ".") with true by reflexivity.
  cbn [PyFloat.span_digits]. rewrite H1, H2.
  assert (V : PyFloat.digits_value
                (digits_of (n / 100)%N ++
                 [digit_char ((n / 10) mod 10)%N; digit_char (n mod 10)%N]) = n).
  { unfold PyFloat.digits_value. rewrite fold_left_app.
    fold (PyFloat.digits_value (digits_of (n / 100)%N)).
    rewrite digits_of_value. cbn [fold_left].
    rewrite !digit_char_value by (apply N.mod_lt; discriminate).
    replace (n / 100)%N with (n / 10 / 10)%N
      by (rewrite N.Div0.div_div; reflexivity).
    rewrite <- (N.div_mod (n / 10) 10) by discriminate.
    symmetry. apply N.div_mod. discriminate. }
  destruct (digits_of (n / 100)%N ++
            [digit_char ((n / 10) mod 10)%N; digit_char (n mod 10)%N])
    as [|d ds] eqn:E.
  - apply (f_equal (@List.length ascii)) in E.
    rewrite length_app in E. simpl in E. lia.
  - cbn [PyFloat.read_exponent]. rewrite V. reflexivity.
Qed.

Lemma digit_is_ascii c :
  PyFloat.is_digit c = true -> (N_of_ascii c <? 127)%N = true.
Proof.
  destruct c as [[] [] [] [] [] [] [] []]; vm_compute; intros H;
    try discriminate H; reflexivity.
Qed.

(** On a text of characters below 127 [float] parses the text itself. *)
Lemma float_of_string_ascii s :
  Forall (fun c => (N_of_ascii c <? 127)%N = true) (chars s) ->
  PyFloat.float_of_string s = PyFloat.float_of_ascii (chars s).
Proof.
  intros H. unfold PyFloat.float_of_string.
  assert (D : PyFloat.utf8_decode (chars s) = Some (map N_of_ascii (chars s))).
  { induction H as [|c l Hc _ IH]; [reflexivity|].
    cbn [PyFloat.utf8_decode map].
    replace (N_of_ascii c <? 128)%N with true
      by (symmetry; apply N.ltb_lt; apply N.ltb_lt in Hc; lia).
    rewrite IH. reflexivity. }
  rewrite D. f_equal. clear D.
  induction H as [|c l Hc _ IH]; [reflexivity|].
  cbn [PyFloat.to_ascii map]. rewrite Hc, ascii_N_embedding, IH. reflexivity.
Qed.

Lemma fixed2_reads_back s n :
  PyFloat.float_of_string (strip_vol (string_of_list_ascii (fixed2 s n))) =
  Some (F64.of_decimal s n (-2)).
Proof.
  set (body := digits_of (n / 100)%N ++ "."%char ::
     digit_char ((n / 10) mod 10)%N :: digit_char (n mod 10)%N :: []).
  assert (Hd1 : PyFloat.is_digit (digit_char ((n / 10) mod 10)%N) = true)
    by (apply digit_char_is_digit, N.mod_lt; discriminate).
  assert (Hd2 : PyFloat.is_digit (digit_char (n mod 10)%N) = true)
    by (apply digit_char_is_digit, N.mod_lt; discriminate).
  assert (Hbody : Forall (fun c => PyFloat.is_space c = false /\
                                   Ascii.eqb c "_" = false /\
                                   (N_of_ascii c <? 127)%N = true) body).
  { unfold body. apply Forall_app. split.
    - eapply Forall_impl; [|apply digits_of_digits].
      intros c Hc. split; [|split];
        [apply (digit_is_plain c Hc)|apply (digit_is_plain c Hc)|
         apply digit_is_ascii, Hc].
    - repeat constructor;
        try apply (digit_is_plain _ Hd1); try apply (digit_is_plain _ Hd2);
        try apply digit_is_ascii; assumption. }
  assert (E : chars (strip_vol (string_of_list_ascii (fixed2 s n))) =
              (if s then ["-"%char] else []) ++ body).
  { rewrite strip_vol_chars, chars_of_list. unfold fixed2.
    rewrite !filter_app, grouped_stripped by apply digits_of_digits.
    unfold body. f_equal.
    - destruct s; reflexivity.
    - f_equal. cbn [filter].
      replace (not_char "$" "." && not_char "," ".") with true by reflexivity.
      rewrite (proj2 (proj2 (proj2 (proj2 (proj2 (digit_is_plain _ Hd1)))))).
      rewrite (proj2 (proj2 (proj2 (proj2 (proj2 (digit_is_plain _ Hd2)))))).
      reflexivity. }
  assert (Hall : Forall (fun c => PyFloat.is_space c = false /\
                                  Ascii.eqb c "_" = false /\
                                  (N_of_ascii c <? 127)%N = true)
                   ((if s then ["-"%char] else []) ++ body)).
  { apply Forall_app. split; [|exact Hbody].
    destruct s; repeat constructor. }
  rewrite float_of_string_ascii
    by (rewrite E; eapply Forall_impl; [|exact Hall]; intros c Hc; apply Hc).
  unfold PyFloat.float_of_ascii. rewrite E.
  rewrite strip_plain
    by (eapply Forall_impl; [|exact Hall]; intros c Hc; apply Hc).
  rewrite drop_underscores_plain;
    [|exact I|eapply Forall_impl; [|exact Hall]; intros c Hc; apply Hc].
  assert (S : PyFloat.read_sign ((if s then ["-"%char] else []) ++ body)
              = (s, body)).
  { destruct s; [reflexivity|]. cbn [app]. unfold body.
    destruct (digits_of (n / 100)%N) as [|d ds] eqn:Ed; [reflexivity|].
    pose proof (digits_of_digits (n / 100)%N) as Hds. rewrite Ed in Hds.
    inversion Hds as [|? ? Hd _]; subst.
    destruct (digit_is_plain d Hd) as (_ & _ & Hm & Hp & _).
    cbn [app PyFloat.read_sign]. rewrite Hm, Hp. reflexivity. }
  rewrite S. unfold body. rewrite read_fixed. reflexivity.
Qed.

(** X15.  The text of a KPI card reads back as a number the way the
    script reads its volume column (commas dropped, then [float]):
    for every float the text is accepted, and what it stands for is
    the float nearest to the displayed hundredths, with the sign of the
    float; infinities, NaN and the two zeros read back as themselves. *)
Theorem kpi_text_reads_back (x : F64.float) :
  PyFloat.float_of_string (strip_vol (format_2f x)) = Some (shown_value x).
Proof.
  destruct x as [s|s| |s m e].
  - destruct s; reflexivity.
  - destruct s; reflexivity.
  - reflexivity.
  - apply fixed2_reads_back.
Qed.

Lemma round_half_even_nearest num den :
  (0 <= num)%Z -> (0 < den)%Z ->
  (0 <= round_half_even num den)%Z /\
  (2 * Z.abs (round_half_even num den * den - num) <= den)%Z.
Proof.
  intros Hn Hd. unfold round_half_even.
  pose proof (Z.div_mod num den ltac:(lia)) as E.
  pose proof (Z.mod_pos_bound num den Hd) as B.
  pose proof (Z.div_pos num den Hn Hd) as Q.
  set (q := (num / den)%Z) in *. set (r := (num mod den)%Z) in *.
  destruct (Z.compare_spec (2 * r) den) as [C|C|C];
    [destruct (Z.even q)| |]; split; nia.
Qed.

(** X16.  The two decimals of a KPI card are the nearest ones: the
    displayed number of hundredths differs from a hundred times the
    magnitude of the float by half a unit at most.  The text is the
    sign, if the float is negative, and then, commas apart, that number
    of hundredths in decimal with a point before its last two digits. *)
Theorem kpi_text_is_nearest (s : bool) (m : positive) (e : Z) :
  (2 * Z.abs (Z.of_N (hundredths m e) * 2 ^ Z.max 0 (- e)
              - Zpos m * 100 * 2 ^ Z.max 0 e)
   <= 2 ^ Z.max 0 (- e))%Z /\
  exists body,
    chars (format_2f (S754_finite s m e)) =
      (if s then ["-"%char] else []) ++ body /\
    strip_vol (string_of_list_ascii body) =
      string_of_list_ascii
        (digits_of (hundredths m e / 100)%N ++ "."%char ::
         digit_char ((hundredths m e / 10) mod 10)%N ::
         digit_char (hundredths m e mod 10)%N :: []).
Proof.
  split.
  - destruct e as [|k|k]; unfold hundredths.
    + simpl Z.max. rewrite Z2N.id by lia. simpl (2 ^ 0)%Z. lia.
    + replace (Z.max 0 (- Z.pos k)) with 0%Z by lia.
      replace (Z.max 0 (Z.pos k)) with (Z.pos k) by lia.
      assert (0 < 2 ^ Z.pos k)%Z by (apply Z.pow_pos_nonneg; lia).
      rewrite Z2N.id by nia. simpl (2 ^ 0)%Z. lia.
    + replace (Z.max 0 (- Z.neg k)) with (Z.pos k) by lia.
      replace (Z.max 0 (Z.neg k)) with 0%Z by lia.
      assert (Hd : (0 < 2 ^ Z.pos k)%Z) by (apply Z.pow_pos_nonneg; lia).
      destruct (round_half_even_nearest (Z.pos m * 100) (2 ^ Z.pos k)
                  ltac:(lia) Hd) as [H0 H1].
      rewrite Z2N.id by exact H0. simpl (2 ^ 0)%Z. lia.
  - exists (grouped (digits_of (hundredths m e / 100)%N) ++ "."%char ::
         digit_char ((hundredths m e / 10) mod 10)%N ::
         digit_char (hundredths m e mod 10)%N :: []).
    split.
    + unfold format_2f. rewrite chars_of_list. reflexivity.
    + apply chars_inj. rewrite strip_vol_chars, !chars_of_list.
      rewrite filter_app, grouped_stripped by apply digits_of_digits.
      f_equal. cbn [filter].
      assert (Hd1 : PyFloat.is_digit
                (digit_char ((hundredths m e / 10) mod 10)%N) = true)
        by (apply digit_char_is_digit, N.mod_lt; discriminate).
      assert (Hd2 : PyFloat.is_digit
                (digit_char (hundredths m e mod 10)%N) = true)
        by (apply digit_char_is_digit, N.mod_lt; discriminate).
      replace (not_char "$" "." && not_char "," ".") with true by reflexivity.
      rewrite (proj2 (proj2 (proj2 (proj2 (proj2 (digit_is_plain _ Hd1)))))).
      rewrite (proj2 (proj2 (proj2 (proj2 (proj2 (digit_is_plain _ Hd2)))))).
      reflexivity.
Qed.

(** ** The KPI cards *)

Lemma best_worst_column sym metric b w c h :
  best_worst sym metric = Ok (b, w, c, h) -> is_metric_column c = true.
Proof.
  unfold best_worst.
  destruct (String.eqb metric "% Filled Volume");
    [|destruct (String.eqb metric "Avg Fill Latency (ms)")].
  - destruct (max_then_min sym "Filled_Vol_Pct"); cbn [bind];
      intros H; [|discriminate]. injection H as _ _ <- _. reflexivity.
  - destruct (min_then_max sym "Avg_Latency_ms"); cbn [bind];
      intros H; [|discriminate]. injection H as _ _ <- _. reflexivity.
  - destruct (max_then_min sym "Total_Filled_Vol"); cbn [bind];
      intros H; [|discriminate]. injection H as _ _ <- _. reflexivity.
Qed.

Lemma located_row_fields d l r name c :
  loc d l = Ok r -> lookup_col name (cols d) = Some c ->
  exists v, field name (fields r) = Some v /\
    match c with
    | FloatCol _ => exists x, v = SFloat x
    | ObjCol _ => exists x, v = SCell x
    end.
Proof.
  intros Hl Hc. destruct (loc_inv _ _ _ Hl) as (i & _ & Hf & _).
  destruct (row_fields_lookup _ _ _ _ _ Hf Hc) as (v & Hv & Hfield).
  exists v. split; [exact Hfield|].
  destruct c as [k|k]; simpl in Hv; destruct (nth_error k i) as [x|];
    try discriminate; injection Hv as <-; eauto.
Qed.

Lemma kpi_card_ok title r c name x :
  field "Maker Stream Name" (fields r) = Some name ->
  field c (fields r) = Some (SFloat x) ->
  kpi_card title r c = inl (mkCard title name (format_2f x)).
Proof. intros H1 H2. unfold kpi_card. rewrite H1, H2. reflexivity. Qed.

(** X17.  Once best and worst rows are selected the two KPI cards are
    always produced: each row holds a stream name and a float under
    the metric column, whatever the selected metric, so neither the
    field access nor the number format can fail.  The cards show the
    stream names of the two rows and their metric values with two
    decimals. *)
Theorem kpi_cards_are_shown
  (t : RawTable) (sel : cell) (metric : string) (p : Prepared) :
  rectangular t = true ->
  missing_columns (read_table t) = [] ->
  prepare (read_table t) sel metric = Ok p ->
  exists nb nw xb xw,
    field "Maker Stream Name" (fields (p_best_row p)) = Some nb /\
    field "Maker Stream Name" (fields (p_worst_row p)) = Some nw /\
    field (p_metric_col p) (fields (p_best_row p)) = Some (SFloat xb) /\
    field (p_metric_col p) (fields (p_worst_row p)) = Some (SFloat xw) /\
    kpi_cards (p_best_row p) (p_worst_row p) (p_metric_col p) =
      Cards (mkCard "Best LP" nb (format_2f xb))
            (mkCard "Worst LP" nw (format_2f xw)).
Proof.
  intros Hr Hm Hp.
  destruct (prepare_ok _ _ _ _ Hp) as (Hn & Hs & Hbw & _).
  destruct (subset_sources _ _ _ _ Hr Hm Hn Hs)
    as (names & k1 & k2 & k3 & Ln & L1 & L2 & L3 & _).
  destruct (best_worst_located _ _ _ _ _ _ Hbw) as [[lb Hb] [lw Hw]].
  pose proof (best_worst_column _ _ _ _ _ _ Hbw) as Hc.
  assert (Lc : exists k, lookup_col (p_metric_col p) (cols (p_sym_df p))
                         = Some (FloatCol k)).
  { unfold is_metric_column in Hc. cbn [existsb] in Hc.
    rewrite !orb_true_iff in Hc.
    destruct Hc as [Hc|[Hc|[Hc|Hc]]]; try discriminate;
      apply String.eqb_eq in Hc; rewrite Hc; eauto. }
  destruct Lc as [k Lc].
  destruct (located_row_fields _ _ _ _ _ Hb Ln) as (nb & Fnb & _).
  destruct (located_row_fields _ _ _ _ _ Hw Ln) as (nw & Fnw & _).
  destruct (located_row_fields _ _ _ _ _ Hb Lc) as (vb & Fvb & xb & ->).
  destruct (located_row_fields _ _ _ _ _ Hw Lc) as (vw & Fvw & xw & ->).
  exists nb, nw, xb, xw. repeat split; auto.
  unfold kpi_cards.
  rewrite (kpi_card_ok _ _ _ _ _ Fnb Fvb), (kpi_card_ok _ _ _ _ _ Fnw Fvw).
  reflexivity.
Qed.

Lemma kpi_cards_are_shown_witness :
  exists p,
    prepare (read_table scenario) (Text "EURUSD") "Total Filled Volume" = Ok p /\
    exists nb nw xb xw,
      field "Maker Stream Name" (fields (p_best_row p)) = Some nb /\
      field "Maker Stream Name" (fields (p_worst_row p)) = Some nw /\
      field (p_metric_col p) (fields (p_best_row p)) = Some (SFloat xb) /\
      field (p_metric_col p) (fields (p_worst_row p)) = Some (SFloat xw) /\
      kpi_cards (p_best_row p) (p_worst_row p) (p_metric_col p) =
        Cards (mkCard "Best LP" nb (format_2f xb))
              (mkCard "Worst LP" nw (format_2f xw)).
Proof.
  eexists. split; [vm_compute; reflexivity|].
  apply (kpi_cards_are_shown scenario (Text "EURUSD") "Total Filled Volume");
    vm_compute; reflexivity.
Defined.

(** The cards of the scenario, by total volume. *)
Example scenario_cards :
  exists p,
    prepare (read_table scenario) (Text "EURUSD") "Total Filled Volume" = Ok p /\
    kpi_cards (p_best_row p) (p_worst_row p) (p_metric_col p) =
      Cards (mkCard "Best LP" (SCell (Text "LP_A")) "10,000.00")
            (mkCard "Worst LP" (SCell (Text "LP_B")) "8,500.50").
Proof. eexists. split; vm_compute; reflexivity. Qed.
